(** * igcc: the interactive session engine of [igcc/run.py]

    A shallow embedding of the REPL core: the two classification patterns,
    the program template and its blank-line clean-up, the undo/redo history
    with its output counters, the compile-and-run cycle and the dot commands.

    Text is modelled with [string]; a character is an 8-bit code read as the
    code point U+0000..U+00FF, and the character classes of Python ([\s],
    [\w], [str.strip], [str.splitlines]) are given on that range.  Captured
    process output is [list byte].  Python integers are [Z] where they can
    become negative (the two counters) and [nat] for the cursor, which the
    code only decrements when it is not zero. *)

From Stdlib Require Import Bool Arith ZArith Lia List Ascii String.
From Stdlib.Strings Require Import Byte.
From Stdlib Require Import DecimalString.
Import ListNotations.

Set Implicit Arguments.
Open Scope string_scope.

(* ================================================================== *)
(** ** Text primitives (Python [str]) *)
(* ================================================================== *)

Module Text.

Definition code (c : ascii) : nat := nat_of_ascii c.

Definition between (lo hi : nat) (c : ascii) : bool :=
  ((lo <=? code c) && (code c <=? hi))%nat.

(** [str.isspace] on one character; also the class [\s] of [re]. *)
Definition isspace (c : ascii) : bool :=
  between 9 13 c || between 28 32 c || (code c =? 133)%nat || (code c =? 160)%nat.

(** The class [\w] of [re] for [str] patterns: alphanumerics and [_]. *)
Definition isword (c : ascii) : bool :=
  between 48 57 c || between 65 90 c || (code c =? 95)%nat || between 97 122 c
  || (code c =? 170)%nat || between 178 179 c || (code c =? 181)%nat
  || between 185 186 c || between 188 190 c
  || between 192 214 c || between 216 246 c || between 248 255 c.

(** The line boundaries of [str.splitlines]. *)
Definition islinebreak (c : ascii) : bool :=
  between 10 13 c || between 28 30 c || (code c =? 133)%nat.

Definition nl : ascii := "010"%char.
Definition cr : ascii := "013"%char.
Definition NL : string := String nl EmptyString.
Definition DQ : string := String "034"%char EmptyString.

(** [sep.join(xs)] *)
Definition join (sep : string) (xs : list string) : string :=
  String.concat sep xs.

(** [s.split(sep)] for a one-character separator. *)
Fixpoint split (sep : ascii) (s : string) : list string :=
  match s with
  | EmptyString => [EmptyString]
  | String c s' =>
      if Ascii.eqb c sep then EmptyString :: split sep s'
      else match split sep s' with
           | l :: ls => String c l :: ls
           | [] => [String c EmptyString]
           end
  end.

Fixpoint lstrip (s : string) : string :=
  match s with
  | EmptyString => EmptyString
  | String c s' => if isspace c then lstrip s' else s
  end.

Fixpoint rstrip (s : string) : string :=
  match s with
  | EmptyString => EmptyString
  | String c s' =>
      match rstrip s' with
      | EmptyString => if isspace c then EmptyString else String c EmptyString
      | t => String c t
      end
  end.

(** [s.strip()] *)
Definition strip (s : string) : string := rstrip (lstrip s).

(** [s.startswith(p)] *)
Definition startswith (p s : string) : bool := String.prefix p s.

(** [s.splitlines()]: cut at every line boundary, [\r\n] counting as one;
    a final boundary opens no further line. *)
Fixpoint splitlines (s : string) : list string :=
  match s with
  | EmptyString => []
  | String c s' =>
      if islinebreak c then
        match s' with
        | String c' s'' =>
            if Ascii.eqb c cr && Ascii.eqb c' nl
            then EmptyString :: splitlines s''
            else EmptyString :: splitlines s'
        | EmptyString => [EmptyString]
        end
      else match splitlines s' with
           | l :: ls => String c l :: ls
           | [] => [String c EmptyString]
           end
  end.

(** [s.replace(pat, "")]: delete the occurrences of [pat], left to right,
    without overlap.  [skip] counts the characters of a found occurrence
    still to be dropped. *)
Fixpoint delete_from (pat : string) (skip : nat) (s : string) : string :=
  match s with
  | EmptyString => EmptyString
  | String c s' =>
      match skip with
      | S k => delete_from pat k s'
      | O => if (negb (String.eqb pat EmptyString)) && String.prefix pat s
             then delete_from pat (String.length pat - 1) s'
             else String c (delete_from pat 0 s')
      end
  end.

Definition delete_all (pat s : string) : string := delete_from pat 0 s.

(** [str(n)] for a natural number. *)
Definition str_of_nat (n : nat) : string :=
  NilZero.string_of_uint (Nat.to_uint n).

(** [" " * n] *)
Fixpoint spaces (n : nat) : string :=
  match n with
  | O => EmptyString
  | S k => String " "%char (spaces k)
  end.

End Text.

(* ================================================================== *)
(** ** Regular expressions ([re.match]) *)
(* ================================================================== *)

Module Re.

Inductive regex : Type :=
| Void
| Eps
| Sym (p : ascii -> bool)
| Cat (r1 r2 : regex)
| Alt (r1 r2 : regex)
| Star (r : regex).

Definition Opt (r : regex) : regex := Alt r Eps.
Definition Plus (r : regex) : regex := Cat r (Star r).
Definition Chr (c : ascii) : regex := Sym (Ascii.eqb c).

Fixpoint Lit (s : string) : regex :=
  match s with
  | EmptyString => Eps
  | String c s' => Cat (Chr c) (Lit s')
  end.

Fixpoint Seq (rs : list regex) : regex :=
  match rs with
  | [] => Eps
  | r :: rs' => Cat r (Seq rs')
  end.

Fixpoint OneOf (rs : list regex) : regex :=
  match rs with
  | [] => Void
  | r :: rs' => Alt r (OneOf rs')
  end.

(** The words of a pattern. *)
Inductive lang : regex -> string -> Prop :=
| LEps : lang Eps EmptyString
| LSym p c : p c = true -> lang (Sym p) (String c EmptyString)
| LCat r1 r2 s1 s2 : lang r1 s1 -> lang r2 s2 -> lang (Cat r1 r2) (s1 ++ s2)
| LAltL r1 r2 s : lang r1 s -> lang (Alt r1 r2) s
| LAltR r1 r2 s : lang r2 s -> lang (Alt r1 r2) s
| LStar0 r : lang (Star r) EmptyString
| LStarS r s1 s2 : lang r s1 -> lang (Star r) s2 -> lang (Star r) (s1 ++ s2).

Fixpoint nullable (r : regex) : bool :=
  match r with
  | Void => false
  | Eps => true
  | Sym _ => false
  | Cat r1 r2 => nullable r1 && nullable r2
  | Alt r1 r2 => nullable r1 || nullable r2
  | Star _ => true
  end.

Definition cat (r1 r2 : regex) : regex :=
  match r1, r2 with
  | Void, _ => Void
  | _, Void => Void
  | Eps, _ => r2
  | _, _ => Cat r1 r2
  end.

Definition alt (r1 r2 : regex) : regex :=
  match r1, r2 with
  | Void, _ => r2
  | _, Void => r1
  | _, _ => Alt r1 r2
  end.

(** Brzozowski derivative: the words [s] with [c s] in the pattern. *)
Fixpoint deriv (c : ascii) (r : regex) : regex :=
  match r with
  | Void => Void
  | Eps => Void
  | Sym p => if p c then Eps else Void
  | Cat r1 r2 =>
      if nullable r1 then alt (cat (deriv c r1) r2) (deriv c r2)
      else cat (deriv c r1) r2
  | Alt r1 r2 => alt (deriv c r1) (deriv c r2)
  | Star r1 => cat (deriv c r1) (Star r1)
  end.

(** [pattern.match(s) is not None]: some prefix of [s] is a word of the
    pattern.  The patterns of this program have no anchors, look-arounds or
    back-references, so the search of [re] finds a match exactly when one
    exists. *)
Fixpoint matches (r : regex) (s : string) : bool :=
  nullable r ||
  match s with
  | EmptyString => false
  | String c s' => matches (deriv c r) s'
  end.

End Re.

(* ================================================================== *)
(** ** Line classification patterns *)
(* ================================================================== *)

Import Text Re.

Definition ws : regex := Sym isspace.
Definition word : regex := Sym isword.

(** [[^c]] *)
Definition Except (c : ascii) : regex := Sym (fun x => negb (Ascii.eqb x c)).

(** [[\w\s\*&:<>,]] *)
Definition type_char (c : ascii) : bool :=
  isword c || isspace c ||
  existsb (Ascii.eqb c) ["*"; "&"; ":"; "<"; ">"; ","]%char.

(** [PREAMBLE_RE = \s*(#\s*include)|(using)\s]: the alternation binds
    weakest, so the pattern reads [(\s*#\s*include) | (using\s)]. *)
Definition PREAMBLE_RE : regex :=
  Alt (Seq [Star ws; Seq [Chr "#"; Star ws; Lit "include"]])
      (Seq [Lit "using"; ws]).

(** [FUNC_DEF_RE], piece by piece as in the source. *)
Definition FUNC_DEF_RE : regex :=
  Seq [ Star ws;
        Star (Seq [ OneOf [ Lit "static"; Lit "inline"; Lit "constexpr";
                            Lit "virtual"; Lit "extern";
                            Seq [Lit "template"; Star ws; Chr "<";
                                 Star (Except ">"); Chr ">"] ];
                    Plus ws ]);
        Seq [word; Star (Sym type_char)]; Plus ws;
        Plus word; Star ws; Chr "("; Star (Except ")"); Chr ")"; Star ws;
        Opt (Seq [Lit "const"; Star ws]); Opt (Seq [Lit "noexcept"; Star ws]);
        Opt (Seq [Lit "override"; Star ws]); Opt (Seq [Lit "final"; Star ws]);
        Chr "{" ].

(* ================================================================== *)
(** ** Program assembly: the template and [_clean_source] *)
(* ================================================================== *)

(** The first line of [SOURCE_CODE_TEMPLATE]. *)
Definition BOILERPLATE : string := "#include " ++ DQ ++ "boilerplate.h" ++ DQ.

(** Truth value of a [str] in a template [if] and in Python's [not]. *)
Definition truthy (s : string) : bool := negb (String.eqb s EmptyString).

(** The jinja2 filter [indent(width, first=False)] with its default
    [blank=False]: the text plus a newline is cut with [splitlines]; every
    line after the first that is not empty gets [width] spaces in front.
    The first case cannot occur: the text cut is never empty. *)
Definition indent (width : nat) (s : string) : string :=
  match splitlines (s ++ NL) with
  | [] => EmptyString
  | l0 :: [] => l0
  | l0 :: ls =>
      l0 ++ NL ++
      join NL (map (fun line => if truthy line then spaces width ++ line
                                else line) ls)
  end.

(** [SOURCE_CODE_TEMPLATE.render(...)]: the dedented template text filled
    in by the default jinja2 environment (a block tag keeps the newline
    that follows it; the single newline that ends the template is dropped;
    an [if] on a text holds when the text is not empty). *)
Definition SOURCE_CODE_TEMPLATE (user_includes user_functions user_input : string) : string :=
  BOILERPLATE ++ NL ++
  (if truthy user_includes then NL ++ user_includes ++ NL else "") ++ NL ++
  (if truthy user_functions then NL ++ user_functions ++ NL else "") ++ NL ++
  "int main(void) {" ++ NL ++
  "    " ++ indent 4 user_input ++ NL ++
  "    return 0;" ++ NL ++
  "}".

(** [line.strip() == ""] *)
Definition is_blank (line : string) : bool := String.eqb (strip line) EmptyString.

(** The loop of [_clean_source] over the lines, [prev_blank] being its
    loop variable. *)
Fixpoint clean_lines (prev_blank : bool) (lines : list string) : list string :=
  match lines with
  | [] => []
  | line :: rest =>
      if is_blank line && prev_blank then clean_lines prev_blank rest
      else line :: clean_lines (is_blank line) rest
  end.

Definition _clean_source (src : string) : string :=
  join NL (clean_lines false (split nl src)).

(* ================================================================== *)
(** ** Session state *)
(* ================================================================== *)

Record UserInput : Type := mkUserInput {
  inp : string;
  is_include : bool;
  is_function : bool;
  output_chars : Z;
  error_chars : Z
}.

(** [compile_error] is [""] at start, then [None] or a text. *)
Record Runner : Type := mkRunner {
  user_input : list UserInput;
  input_num : nat;
  compile_error : option string;
  output_chars_printed : Z;
  error_chars_printed : Z;
  show_line_numbers : bool
}.

(** [Runner.__init__] *)
Definition init : Runner :=
  {| user_input := []; input_num := 0; compile_error := Some EmptyString;
     output_chars_printed := 0; error_chars_printed := 0;
     show_line_numbers := false |}.

Definition set_user_input (l : list UserInput) (r : Runner) : Runner :=
  mkRunner l (input_num r) (compile_error r) (output_chars_printed r)
           (error_chars_printed r) (show_line_numbers r).
Definition set_input_num (n : nat) (r : Runner) : Runner :=
  mkRunner (user_input r) n (compile_error r) (output_chars_printed r)
           (error_chars_printed r) (show_line_numbers r).
Definition set_compile_error (e : option string) (r : Runner) : Runner :=
  mkRunner (user_input r) (input_num r) e (output_chars_printed r)
           (error_chars_printed r) (show_line_numbers r).
Definition set_output_chars_printed (z : Z) (r : Runner) : Runner :=
  mkRunner (user_input r) (input_num r) (compile_error r) z
           (error_chars_printed r) (show_line_numbers r).
Definition set_error_chars_printed (z : Z) (r : Runner) : Runner :=
  mkRunner (user_input r) (input_num r) (compile_error r)
           (output_chars_printed r) z (show_line_numbers r).
Definition set_show_line_numbers (b : bool) (r : Runner) : Runner :=
  mkRunner (user_input r) (input_num r) (compile_error r)
           (output_chars_printed r) (error_chars_printed r) b.

Definition set_output_chars (z : Z) (u : UserInput) : UserInput :=
  mkUserInput (inp u) (is_include u) (is_function u) z (error_chars u).
Definition set_error_chars (z : Z) (u : UserInput) : UserInput :=
  mkUserInput (inp u) (is_include u) (is_function u) (output_chars u) z.

(** The entry built for a submitted line [x] (lines 113-120). *)
Definition new_UserInput (x : string) : UserInput :=
  {| inp := x;
     is_include := matches PREAMBLE_RE x;
     is_function := matches FUNC_DEF_RE x;
     output_chars := 0; error_chars := 0 |}.

(** [get_user_input]: [islice(self.user_input, 0, self.input_num)]. *)
Definition get_user_input (r : Runner) : list UserInput :=
  firstn (input_num r) (user_input r).

Definition get_user_commands_string (r : Runner) : string :=
  join NL (map inp (filter (fun a => negb (is_include a) && negb (is_function a))
                           (get_user_input r))).

Definition get_user_includes_string (r : Runner) : string :=
  join NL (map inp (filter (fun a => is_include a) (get_user_input r))).

Definition get_user_functions_string (r : Runner) : string :=
  join NL (map inp (filter (fun a => is_function a) (get_user_input r))).

Definition get_full_source (r : Runner) : string :=
  _clean_source (SOURCE_CODE_TEMPLATE (get_user_includes_string r)
                        (get_user_functions_string r)
                        (get_user_commands_string r)).

(* ================================================================== *)
(** ** Effects: state, exceptions and a trace of what the session does *)
(* ================================================================== *)

(** What a turn does to the outside: text handed to [print], the clearing
    of the screen, and the two child processes.  [PrintDecoded b] is
    [print(b.decode("utf8"))]; [PrintUrl code] is the link of [.v], whose
    only varying part is the quoted [code]. *)
Inductive event : Type :=
| Print (text : string)
| PrintDecoded (b : list byte)
| PrintUrl (code : string)
| ClearScreen
| Compile (src : string)
| Execute.

Inductive exn : Type := IGCCQuitError | IndexError | UnicodeDecodeError.

Inductive result (A : Type) : Type :=
| Ok (a : A) (r : Runner)
| Raise (e : exn).
Arguments Raise {A} e.

Definition M (A : Type) : Type := Runner -> list event * result A.

Definition ret {A} (a : A) : M A := fun r => ([], Ok a r).

Definition bind {A B} (m : M A) (f : A -> M B) : M B :=
  fun r =>
    match m r with
    | (t, Ok a r') => ((t ++ fst (f a r'))%list, snd (f a r'))
    | (t, Raise e) => (t, Raise e)
    end.

Definition get : M Runner := fun r => ([], Ok r r).
Definition modify (f : Runner -> Runner) : M unit := fun r => ([], Ok tt (f r)).
Definition emit (e : event) : M unit := fun r => ([e], Ok tt r).
Definition raise {A} (e : exn) : M A := fun _ => ([], Raise e).

Declare Scope session_scope.
Delimit Scope session_scope with session.
Notation "x <- m ;; k" := (bind m (fun x => k))
  (at level 61, m at next level, right associativity) : session_scope.
Notation "m ;; k" := (bind m (fun _ => k))
  (at level 61, right associativity) : session_scope.
Open Scope session_scope.

(* ================================================================== *)
(** ** The external processes *)
(* ================================================================== *)

(** What [compile_process.communicate] and [returncode] give. *)
Record compile_process : Type := {
  returncode : Z;
  stdout_data : option string;
  stderr_data : option string
}.

(** What the compiled binary writes. *)
Record run_process : Type := {
  stdout : list byte;
  stderr : list byte
}.

(** [b[c:]] on a sequence, for any integer [c]. *)
Definition slice_from {A} (c : Z) (l : list A) : list A :=
  let len := Z.of_nat (List.length l) in
  let start := if (c <? 0)%Z then Z.max (len + c) 0 else c in
  skipn (Z.to_nat start) l.

Definition byte_in (lo hi : nat) (b : byte) : bool :=
  ((lo <=? Byte.to_nat b) && (Byte.to_nat b <=? hi))%nat.

(** Whether [b.decode("utf8")] succeeds: the well-formed byte sequences
    of UTF-8 (no overlong forms, no surrogates, nothing above U+10FFFF). *)
Fixpoint utf8_valid (l : list byte) : bool :=
  match l with
  | [] => true
  | b0 :: t0 =>
    if byte_in 0 127 b0 then utf8_valid t0 else
    match t0 with
    | [] => false
    | b1 :: t1 =>
      if byte_in 194 223 b0 then byte_in 128 191 b1 && utf8_valid t1 else
      match t1 with
      | [] => false
      | b2 :: t2 =>
        if byte_in 224 239 b0 then
          (if byte_in 224 224 b0 then byte_in 160 191 b1
           else if byte_in 237 237 b0 then byte_in 128 159 b1
           else byte_in 128 191 b1)
          && byte_in 128 191 b2 && utf8_valid t2
        else
        match t2 with
        | [] => false
        | b3 :: t3 =>
          if byte_in 240 244 b0 then
            (if byte_in 240 240 b0 then byte_in 144 191 b1
             else if byte_in 244 244 b0 then byte_in 128 143 b1
             else byte_in 128 191 b1)
            && byte_in 128 191 b2 && byte_in 128 191 b3 && utf8_valid t3
          else false
        end
      end
    end
  end.

(** [print(b.decode("utf8"))] *)
Definition print_decoded (b : list byte) : M unit :=
  if utf8_valid b then emit (PrintDecoded b) else raise UnicodeDecodeError.

(* ================================================================== *)
(** ** History: [redo] and [undo] *)
(* ================================================================== *)

Definition redo : M (option string) :=
  r <- get ;;
  if (List.length (user_input r) <=? input_num r)%nat then ret None
  else
    modify (set_input_num (input_num r + 1)) ;;
    r <- get ;;
    match nth_error (user_input r) (input_num r - 1) with
    | Some u => ret (Some (inp u))
    | None => raise IndexError
    end.

Definition undo : M (option string) :=
  r <- get ;;
  if (input_num r =? 0)%nat then ret None
  else
    modify (set_input_num (input_num r - 1)) ;;
    r <- get ;;
    match nth_error (user_input r) (input_num r) with
    | None => raise IndexError
    | Some undone_input =>
        modify (fun r => set_output_chars_printed
                  (output_chars_printed r - output_chars undone_input) r) ;;
        modify (fun r => set_error_chars_printed
                  (error_chars_printed r - error_chars undone_input) r) ;;
        ret (Some (inp undone_input))
    end.

(** [self.user_input[-1].f = v]: an update of the last object of the list,
    [IndexError] on the empty list. *)
Fixpoint update_last (f : UserInput -> UserInput) (l : list UserInput)
  : list UserInput :=
  match l with
  | [] => []
  | [u] => [f u]
  | u :: t => u :: update_last f t
  end.

Definition set_last (f : UserInput -> UserInput) : M unit :=
  r <- get ;;
  match user_input r with
  | [] => raise IndexError
  | l => modify (set_user_input (update_last f l))
  end.

(* ================================================================== *)
(** ** [run_compile] *)
(* ================================================================== *)

Definition UNKNOWN_COMPILE_ERROR : string :=
  "Unknown compile error - compiler did not write any output.".

Definition run_compile (cp : compile_process) : M (option string) :=
  r <- get ;;
  emit (Compile (get_full_source r)) ;;
  if (returncode cp =? 0)%Z then ret None
  else
    let out := EmptyString in
    let out := match stdout_data cp with Some d => out ++ d | None => out end in
    let out := match stderr_data cp with Some d => out ++ d | None => out end in
    if String.eqb out EmptyString then ret (Some UNKNOWN_COMPILE_ERROR)
    else ret (Some out).

(* ================================================================== *)
(** ** Dot commands *)
(* ================================================================== *)

(** The functions stored in [dot_commands], by name; [run_command] below
    gives the function itself. *)
Inductive command : Type :=
| cmd_h | cmd_c | cmd_e | cmd_l | cmd_L | cmd_n | cmd_v | cmd_r | cmd_u | cmd_q.

(** The dictionary [dot_commands], in its insertion order. *)
Definition dot_commands : list (string * (string * command)) :=
  [ (".h", ("Show this help message", cmd_h));
    (".c", ("Clear the screen", cmd_c));
    (".e", ("Show the last compile errors/warnings", cmd_e));
    (".l", ("List the code you have entered", cmd_l));
    (".L", ("List the whole program as given to the compiler", cmd_L));
    (".n", ("Toggle line numbers for .l and .L listings", cmd_n));
    (".v", ("Visualize code in PythonTutor", cmd_v));
    (".r", ("Redo undone command", cmd_r));
    (".u", ("Undo previous command", cmd_u));
    (".q", ("Quit", cmd_q)) ].

(** [dot_commands[key]], [None] when [key not in dot_commands]. *)
Fixpoint lookup {V} (key : string) (d : list (string * V)) : option V :=
  match d with
  | [] => None
  | (k, v) :: d' => if String.eqb key k then Some v else lookup key d'
  end.

(** [f"{n:>{width}}"] *)
Definition rjust (width : nat) (s : string) : string :=
  spaces (width - String.length s) ++ s.

Fixpoint number_lines (width i : nat) (lines : list string) : list string :=
  match lines with
  | [] => []
  | line :: rest =>
      (rjust width (str_of_nat (i + 1)) ++ "  " ++ line)
        :: number_lines width (S i) rest
  end.

Definition _add_line_numbers (code : string) : string :=
  let lines := split nl code in
  let width := String.length (str_of_nat (List.length lines)) in
  join NL (number_lines width 0 lines).

Fixpoint print_all (texts : list string) : M unit :=
  match texts with
  | [] => ret tt
  | t :: ts => emit (Print t) ;; print_all ts
  end.

Definition dot_h : M (bool * bool) :=
  print_all (map (fun kv => "[bold][blue]" ++ fst kv ++ "[/blue][/bold]  "
                            ++ fst (snd kv)) dot_commands) ;;
  ret (false, false).

Definition dot_c : M (bool * bool) :=
  emit ClearScreen ;; ret (false, false).

Definition dot_e : M (bool * bool) :=
  r <- get ;;
  match compile_error r with
  | Some e => if truthy e then emit (Print e)
              else emit (Print "[white on green]No compile errors")
  | None => emit (Print "[white on green]No compile errors")
  end ;;
  ret (false, false).

Definition dot_q : M (bool * bool) := raise IGCCQuitError.

Definition dot_n : M (bool * bool) :=
  modify (fun r => set_show_line_numbers (negb (show_line_numbers r)) r) ;;
  r <- get ;;
  let state := if show_line_numbers r then "on" else "off" in
  emit (Print ("[black on white]Line numbers " ++ state)) ;;
  ret (false, false).

Definition dot_l : M (bool * bool) :=
  r <- get ;;
  let parts := filter (fun p => truthy (strip p))
                      [get_user_includes_string r; get_user_commands_string r] in
  let code := join NL parts in
  (if negb (truthy (strip code))
   then emit (Print "[black on white]No code entered yet")
   else emit (Print (if show_line_numbers r then _add_line_numbers code
                     else code))) ;;
  ret (false, false).

Definition dot_L : M (bool * bool) :=
  r <- get ;;
  let src := _clean_source (delete_all (BOILERPLATE ++ NL) (get_full_source r)) in
  emit (Print (if show_line_numbers r then _add_line_numbers src else src)) ;;
  ret (false, false).

Definition dot_r : M (bool * bool) :=
  redone_line <- redo ;;
  match redone_line with
  | Some line =>
      emit (Print ("[black on white]Redone `" ++ line ++ "`")) ;;
      ret (false, true)
  | None =>
      emit (Print "[black on white]Nothing to redo") ;;
      ret (false, false)
  end.

Definition dot_u : M (bool * bool) :=
  undone_line <- undo ;;
  match undone_line with
  | Some line => emit (Print ("[black on white]Undone `" ++ line ++ "`"))
  | None => emit (Print "[black on white]Nothing to undo")
  end ;;
  ret (false, false).

Definition dot_v : M (bool * bool) :=
  r <- get ;;
  let code := delete_all (BOILERPLATE ++ NL) (get_full_source r) in
  emit (Print "[bold green]PythonTutor link:[/bold green]") ;;
  emit (PrintUrl code) ;;
  ret (false, false).

(** [func(self)] for the function stored under a command. *)
Definition run_command (c : command) : M (bool * bool) :=
  match c with
  | cmd_h => dot_h
  | cmd_c => dot_c
  | cmd_e => dot_e
  | cmd_l => dot_l
  | cmd_L => dot_L
  | cmd_n => dot_n
  | cmd_v => dot_v
  | cmd_r => dot_r
  | cmd_u => dot_u
  | cmd_q => dot_q
  end.

(** Returns [(col_inp, run_compiler)]. *)
Definition check_input_type (text : string) : M (bool * bool) :=
  if startswith "." text then
    match lookup text dot_commands with
    | None =>
        emit (Print ("[white on red]Unknown command `" ++ text
                     ++ "`. Available commands:")) ;;
        dot_h
    | Some (_, func) => run_command func
    end
  else ret (true, true).

(* ================================================================== *)
(** ** The loop body of [do_run] *)
(* ================================================================== *)

(** Lines 110-122: the new lines replace whatever lies beyond the cursor. *)
Definition splice (lines : list string) : M unit :=
  r <- get ;;
  (if (input_num r <? List.length (user_input r))%nat
   then modify (set_user_input (firstn (input_num r) (user_input r)))
   else ret tt) ;;
  let new_inp := map new_UserInput lines in
  modify (fun r => set_user_input (user_input r ++ new_inp) r) ;;
  modify (fun r => set_input_num (input_num r + List.length new_inp) r).

(** Lines 136-143. *)
Definition show_stdout (out : list byte) : M unit :=
  r <- get ;;
  if (Z.of_nat (List.length out) >? output_chars_printed r)%Z then
    let new_output := slice_from (output_chars_printed r) out in
    let len_new_output := Z.of_nat (List.length new_output) in
    print_decoded new_output ;;
    modify (fun r => set_output_chars_printed
              (output_chars_printed r + len_new_output) r) ;;
    set_last (set_output_chars len_new_output)
  else ret tt.

(** Lines 145-152. *)
Definition show_stderr (err : list byte) : M unit :=
  r <- get ;;
  if (Z.of_nat (List.length err) >? error_chars_printed r)%Z then
    let new_error := slice_from (error_chars_printed r) err in
    let len_new_error := Z.of_nat (List.length new_error) in
    print_decoded new_error ;;
    modify (fun r => set_error_chars_printed
              (error_chars_printed r + len_new_error) r) ;;
    set_last (set_error_chars len_new_error)
  else ret tt.

(** Lines 125-152: compile, and run the binary if that succeeded. *)
Definition compile_and_run (cp : compile_process) (rp : run_process) : M unit :=
  e <- run_compile cp ;;
  modify (set_compile_error e) ;;
  match e with
  | Some _ => emit (Print ("[white on red] Compile error - type .e to see it" ++ NL))
  | None =>
      emit Execute ;;
      show_stdout (stdout rp) ;;
      show_stderr (stderr rp)
  end.

Inductive loop : Type := Continue | Break.

(** One pass through the [while True] body.  [typed] is what
    [read_from_stdin] returned ([None] at the end of input); [cp] and [rp]
    are what the compiler and the binary answer if this turn starts them. *)
Definition turn (typed : option (list string))
                (cp : compile_process) (rp : run_process) : M loop :=
  match typed with
  | None => ret Break
  | Some lines =>
      flags <- check_input_type (join NL lines) ;;
      (if fst flags then splice lines else ret tt) ;;
      (if snd flags then compile_and_run cp rp else ret tt) ;;
      ret Continue
  end.

Record step : Type := {
  typed : option (list string);
  compiler : compile_process;
  binary : run_process
}.

(** [do_run] on a finite script of inputs and process answers: [Continue]
    when the script is used up with the loop still waiting for input. *)
Fixpoint do_run (script : list step) : M loop :=
  match script with
  | [] => ret Continue
  | s :: rest =>
      c <- turn (typed s) (compiler s) (binary s) ;;
      match c with
      | Break => ret Break
      | Continue => do_run rest
      end
  end.

(* ================================================================== *)
(** ** Notions used to state the properties *)
(* ================================================================== *)

(** The base on which [splice] appends: the active entries. *)
Definition kept (r : Runner) : list UserInput :=
  if (input_num r <? List.length (user_input r))%nat
  then firstn (input_num r) (user_input r) else user_input r.

(** [undo], [k] times in a row, with what each call returned. *)
Fixpoint undo_times (k : nat) : M (list (option string)) :=
  match k with
  | O => ret []
  | S k' => x <- undo ;; xs <- undo_times k' ;; ret (x :: xs)
  end.

(** The banner printed after a failed compile. *)
Definition BANNER : string :=
  "[white on red] Compile error - type .e to see it" ++ NL.

(** The text gathered by [run_compile] from the two streams. *)
Definition diagnostics (cp : compile_process) : string :=
  match stdout_data cp with Some d => d | None => EmptyString end ++
  match stderr_data cp with Some d => d | None => EmptyString end.

(** The keys of [dot_commands]. *)
Definition command_names : list string := map fst dot_commands.

(** What [dot_h] prints: one text per command. *)
Definition help_listing : list string :=
  map (fun kv => "[bold][blue]" ++ fst kv ++ "[/blue][/bold]  " ++ fst (snd kv))
      dot_commands.

(** A state as the session keeps it: the cursor within the entries. *)
Definition cursor_in_range (r : Runner) : Prop :=
  (input_num r <= List.length (user_input r))%nat.

(** The three places of the template a line can be rendered in. *)
Inductive Role : Type := Directive | FunctionDefinition | Statement.

(** The filters of [get_user_includes_string], [get_user_functions_string]
    and [get_user_commands_string], one per role. *)
Definition has_role (ro : Role) (a : UserInput) : bool :=
  match ro with
  | Directive => is_include a
  | FunctionDefinition => is_function a
  | Statement => negb (is_include a) && negb (is_function a)
  end.

(** The roles under which an entry is rendered. *)
Definition roles (a : UserInput) : list Role :=
  filter (fun ro => has_role ro a) [Directive; FunctionDefinition; Statement].

(** The lines rendered under a role, in the order of the history. *)
Definition section_lines (ro : Role) (r : Runner) : list string :=
  map inp (filter (has_role ro) (get_user_input r)).

(** Every character is white space. *)
Fixpoint all_space (s : string) : bool :=
  match s with
  | EmptyString => true
  | String c s' => isspace c && all_space s'
  end.

(** The output lengths attributed to the entries before the cursor. *)
Definition attributed_output (r : Runner) : Z :=
  fold_right Z.add 0%Z (map output_chars (get_user_input r)).

Definition attributed_error (r : Runner) : Z :=
  fold_right Z.add 0%Z (map error_chars (get_user_input r)).

(** Sample answers of the external processes. *)
Definition compiled : compile_process :=
  {| returncode := 0; stdout_data := None; stderr_data := None |}.

Definition rejected : compile_process :=
  {| returncode := 1; stdout_data := None;
     stderr_data := Some "<stdin>:4:13: error: expected expression" |}.

Definition prints (out : string) : run_process :=
  {| stdout := list_byte_of_string out; stderr := [] |}.

(** A turn in which the user types [lines], the compiler accepts and the
    binary writes [out] to its standard output. *)
Definition types (lines : list string) (out : string) : step :=
  {| typed := Some lines; compiler := compiled; binary := prints out |}.

(** The lines of a text, as [_clean_source] cuts it. *)
Definition lines_of (s : string) : list string := split nl s.

Definition nonblank (line : string) : bool := negb (is_blank line).

(** No two neighbouring lines are both blank. *)
Fixpoint no_double_blank (ls : list string) : bool :=
  match ls with
  | [] => true
  | a :: t =>
      match t with
      | [] => true
      | b :: _ => negb (is_blank a && is_blank b) && no_double_blank t
      end
  end.

(** The text holds no line boundary: it is one line for [splitlines]. *)
Fixpoint single_line (s : string) : bool :=
  match s with
  | EmptyString => true
  | String c s' => negb (islinebreak c) && single_line s'
  end.

(** The text holds no newline character. *)
Fixpoint no_newline (s : string) : bool :=
  match s with
  | EmptyString => true
  | String c s' => negb (Ascii.eqb c nl) && no_newline s'
  end.

(** What the assembled program depends on in an entry. *)
Definition shown (a : UserInput) : string * bool * bool :=
  (inp a, is_include a, is_function a).

(** A block of the template under [if]: present with its text, or absent. *)
Definition block (text : string) : string :=
  if truthy text then NL ++ text ++ NL else "".

(** How [indent] treats one line after the first. *)
Definition indent_line (width : nat) (line : string) : string :=
  if truthy line then spaces width ++ line else line.


(** Two statements: the first writes [12345], the second writes nothing. *)
Definition line_A : string := "std::cout << 12345;".
Definition line_B : string := "int x = 0;".

(** Both lines typed one after the other, both undone, both redone.  The
    binary always writes what the program before the cursor writes. *)
Definition undo_redo_session : list step :=
  [ types [line_A] "12345"; types [line_B] "12345";
    types [".u"] ""; types [".u"] "";
    types [".r"] "12345"; types [".r"] "12345" ].

(** A second printing statement: it writes [67]. *)
Definition line_C : string := "std::cout << 67;".

(** Two printing lines typed as one block, then both undone. *)
Definition block_undone_session : list step :=
  [ types [line_A; line_C] "1234567"; types [".u"] ""; types [".u"] "" ].

(** Cursor in range, and each counter equal to what is attributed to the
    entries before the cursor. *)
Definition counters_agree (r : Runner) : Prop :=
  cursor_in_range r
  /\ output_chars_printed r = attributed_output r
  /\ error_chars_printed r = attributed_error r.

(** The state a script leaves, when the loop is still running after it. *)
Definition state_after (script : list step) : option Runner :=
  match snd (do_run script init) with
  | Ok Continue r => Some r
  | _ => None
  end.

(** Cursor, number of entries and stored error agree. *)
Definition same_frame (r r' : Runner) : Prop :=
  input_num r' = input_num r /\
  List.length (user_input r') = List.length (user_input r) /\
  compile_error r' = compile_error r.


(** Sum of a count over a list of entries. *)
Definition total (f : UserInput -> Z) (l : list UserInput) : Z :=
  fold_right Z.add 0%Z (map f l).

(** The state of the session right after an append: the cursor at the end
    and a last entry [u] after the entries [l]. *)
Definition at_end (r : Runner) (l : list UserInput) (u : UserInput) : Prop :=
  user_input r = (l ++ [u])%list /\ input_num r = List.length (user_input r).

(** The session after [lines] were stored, before any run. *)
Definition stored (lines : list string) : Runner :=
  {| user_input := map new_UserInput lines; input_num := List.length lines;
     compile_error := Some EmptyString;
     output_chars_printed := 0; error_chars_printed := 0;
     show_line_numbers := false |}.

(** Two stored lines with the second one undone. *)
Definition second_undone : Runner := set_input_num 1 (stored [line_A; line_B]).

(** A statement, then a directive, then a function. *)
Definition mixed_lines : list string :=
  ["int x = 5;"; "#include <string>"; "int twice(int n) { return 2 * n; }"].

(* ================================================================== *)
(** ** Further notions used to state properties *)
(* ================================================================== *)

(** The character occurs in the text. *)
Fixpoint contains (c : ascii) (s : string) : bool :=
  match s with
  | EmptyString => false
  | String x s' => Ascii.eqb x c || contains c s'
  end.

(** Every character is a word character. *)
Fixpoint all_word (s : string) : bool :=
  match s with
  | EmptyString => true
  | String c s' => isword c && all_word s'
  end.

(** The pieces of a text, put one after the other. *)
Fixpoint cat_all (ws : list string) : string :=
  match ws with
  | [] => EmptyString
  | w :: ws' => w ++ cat_all ws'
  end.

(** The user neither redoes nor submits an empty block. *)
Definition redo_free (s : step) : Prop :=
  match typed s with
  | Some lines => lines <> [] /\ join NL lines <> ".r"
  | None => True
  end.

(** The events that start a child process. *)
Definition starts_process (e : event) : bool :=
  match e with
  | Compile _ => true
  | Execute => true
  | _ => false
  end.

(** The text starts with a character that is not white space. *)
Definition starts_nonspace (s : string) : bool :=
  match s with
  | EmptyString => false
  | String c _ => negb (isspace c)
  end.

(** The text starts with a word character. *)
Definition starts_word (s : string) : bool :=
  match s with
  | EmptyString => false
  | String c _ => isword c
  end.

(** The part of [FUNC_DEF_RE] after its leading [\s*]. *)
Definition FUNC_DEF_BODY : list regex :=
  [ Star (Seq [ OneOf [ Lit "static"; Lit "inline"; Lit "constexpr";
                        Lit "virtual"; Lit "extern";
                        Seq [Lit "template"; Star ws; Chr "<";
                             Star (Except ">"); Chr ">"] ];
                Plus ws ]);
    Seq [word; Star (Sym type_char)]; Plus ws;
    Plus word; Star ws; Chr "("; Star (Except ")"); Chr ")"; Star ws;
    Opt (Seq [Lit "const"; Star ws]); Opt (Seq [Lit "noexcept"; Star ws]);
    Opt (Seq [Lit "override"; Star ws]); Opt (Seq [Lit "final"; Star ws]);
    Chr "{" ].


(* ================================================================== *)
(** ** Facts about text *)
(* ================================================================== *)

Lemma append_empty_r (s : string) : s ++ "" = s.
Proof. induction s; simpl; congruence. Qed.

Lemma append_assoc (a b c : string) : (a ++ b) ++ c = a ++ (b ++ c).
Proof. induction a; simpl; congruence. Qed.

(* ================================================================== *)
(** ** The history operations, step by step *)
(* ================================================================== *)

Lemma splice_eq (lines : list string) (r : Runner) :
  splice lines r =
  ([], Ok tt (mkRunner (kept r ++ map new_UserInput lines)
                       (input_num r + List.length lines)
                       (compile_error r) (output_chars_printed r)
                       (error_chars_printed r) (show_line_numbers r))).
Proof.
  unfold splice, kept, bind, get, modify, ret; simpl.
  destruct (input_num r <? List.length (user_input r))%nat; simpl;
    rewrite length_map; reflexivity.
Qed.

Lemma kept_firstn (r : Runner) :
  (input_num r <= List.length (user_input r))%nat ->
  kept r = firstn (input_num r) (user_input r).
Proof.
  intros H. unfold kept.
  destruct (input_num r <? List.length (user_input r))%nat eqn:E; auto.
  apply Nat.ltb_ge in E.
  rewrite firstn_all2; auto.
Qed.

Lemma kept_length (r : Runner) :
  (input_num r <= List.length (user_input r))%nat ->
  List.length (kept r) = input_num r.
Proof.
  intros H. rewrite kept_firstn by auto. rewrite length_firstn. lia.
Qed.

Lemma undo_at (r : Runner) (n : nat) (u : UserInput) :
  input_num r = S n ->
  nth_error (user_input r) n = Some u ->
  undo r = ([], Ok (Some (inp u))
                   (mkRunner (user_input r) n (compile_error r)
                             (output_chars_printed r - output_chars u)
                             (error_chars_printed r - error_chars u)
                             (show_line_numbers r))).
Proof.
  intros Hn Hu. unfold undo, bind, get, modify, ret; simpl.
  rewrite Hn; simpl. rewrite Nat.sub_0_r, Hu. reflexivity.
Qed.

Lemma undo_at_zero (r : Runner) :
  input_num r = 0%nat -> undo r = ([], Ok None r).
Proof.
  intros Hn. unfold undo, bind, get, ret; simpl. rewrite Hn. reflexivity.
Qed.

Lemma redo_at_end (r : Runner) :
  (List.length (user_input r) <= input_num r)%nat -> redo r = ([], Ok None r).
Proof.
  intros H. unfold redo, bind, get, ret; simpl.
  apply Nat.leb_le in H. rewrite H. reflexivity.
Qed.

Lemma redo_inside (r : Runner) (u : UserInput) :
  nth_error (user_input r) (input_num r) = Some u ->
  redo r = ([], Ok (Some (inp u)) (set_input_num (input_num r + 1) r)).
Proof.
  intros Hu. unfold redo, bind, get, modify, ret; simpl.
  assert (H : (input_num r < List.length (user_input r))%nat)
    by (apply nth_error_Some; congruence).
  apply Nat.leb_gt in H. rewrite H. simpl.
  replace (input_num r + 1 - 1)%nat with (input_num r) by lia.
  rewrite Hu. reflexivity.
Qed.

Lemma undo_times_fresh (ls : list string) :
  forall (base tail : list UserInput) e oc ec sl,
  undo_times (List.length ls)
    (mkRunner (base ++ map new_UserInput ls ++ tail)
              (List.length base + List.length ls) e oc ec sl)
  = ([], Ok (map Some (rev ls))
            (mkRunner (base ++ map new_UserInput ls ++ tail)
                      (List.length base) e oc ec sl)).
Proof.
  induction ls as [|x ls' IH] using rev_ind; intros base tail e oc ec sl.
  - simpl. rewrite Nat.add_0_r. reflexivity.
  - rewrite length_app, rev_app_distr. simpl List.length. simpl rev.
    replace (List.length ls' + 1)%nat with (S (List.length ls')) by lia.
    cbn [undo_times]. unfold bind at 1.
    rewrite (@undo_at _ (List.length base + List.length ls') (new_UserInput x)).
    + cbn [fst snd app input_num user_input compile_error output_chars_printed
           error_chars_printed show_line_numbers output_chars error_chars
           new_UserInput inp].
      rewrite !Z.sub_0_r.
      rewrite map_app. cbn [map]. rewrite <- app_assoc. cbn [app].
      unfold bind. rewrite IH. reflexivity.
    + simpl. lia.
    + cbn [user_input]. rewrite map_app, <- app_assoc. cbn [map app].
      rewrite nth_error_app2 by lia.
      replace (List.length base + List.length ls' - List.length base)%nat
        with (List.length (map new_UserInput ls')) by (rewrite length_map; lia).
      rewrite nth_error_app2 by lia. rewrite Nat.sub_diag. reflexivity.
Qed.

(* ================================================================== *)
(** ** What the compile-and-run cycle leaves alone *)
(* ================================================================== *)

Lemma update_last_length (f : UserInput -> UserInput) (l : list UserInput) :
  List.length (update_last f l) = List.length l.
Proof.
  induction l as [|u [|v t] IH]; simpl in *; auto.
Qed.

Lemma same_frame_refl r : same_frame r r.
Proof. repeat split. Qed.

Lemma same_frame_trans r1 r2 r3 :
  same_frame r1 r2 -> same_frame r2 r3 -> same_frame r1 r3.
Proof. unfold same_frame; intuition congruence. Qed.

Lemma bind_get {B} (f : Runner -> M B) (r : Runner) : bind get f r = f r r.
Proof. unfold bind, get. simpl. symmetry. apply surjective_pairing. Qed.

Lemma bind_ret {A B} (a : A) (f : A -> M B) (r : Runner) : bind (ret a) f r = f a r.
Proof. unfold bind, ret. simpl. symmetry. apply surjective_pairing. Qed.

Lemma bind_modify {B} (g : Runner -> Runner) (f : unit -> M B) (r : Runner) :
  bind (modify g) f r = f tt (g r).
Proof. unfold bind, modify. simpl. symmetry. apply surjective_pairing. Qed.

Lemma bind_emit {B} (e : event) (f : unit -> M B) (r : Runner) :
  bind (emit e) f r = (e :: fst (f tt r), snd (f tt r)).
Proof. reflexivity. Qed.

Lemma bind_raise {A B} (e : exn) (f : A -> M B) (r : Runner) :
  bind (raise e) f r = ([], Raise e).
Proof. reflexivity. Qed.

Lemma bind_step {A B} (m : M A) (f : A -> M B) (r r1 : Runner) (a : A) :
  m r = ([], Ok a r1) -> bind m f r = f a r1.
Proof.
  intros E. unfold bind. rewrite E. simpl. symmetry. apply surjective_pairing.
Qed.

Lemma bind_ok {A B} (m : M A) (f : A -> M B) r t b r' :
  bind m f r = (t, Ok b r') ->
  exists t1 a r1 t2, m r = (t1, Ok a r1) /\ f a r1 = (t2, Ok b r') /\ t = (t1 ++ t2)%list.
Proof.
  unfold bind. destruct (m r) as [t1 [a r1|e]]; [|discriminate].
  destruct (f a r1) as [t2 x] eqn:E. simpl. intros H; inversion H; subst.
  exists t1, a, r1, t2. auto.
Qed.

Lemma set_last_ok (f : UserInput -> UserInput) (r r' : Runner) t :
  set_last f r = (t, Ok tt r') ->
  user_input r <> [] /\ t = [] /\
  r' = set_user_input (update_last f (user_input r)) r.
Proof.
  unfold set_last. rewrite bind_get. unfold modify, raise.
  destruct (user_input r) as [|u l] eqn:E; [discriminate|].
  intros H; inversion H; subst. repeat split. discriminate.
Qed.

Lemma print_decoded_ok (b : list byte) (r r' : Runner) t :
  print_decoded b r = (t, Ok tt r') ->
  utf8_valid b = true /\ t = [PrintDecoded b] /\ r' = r.
Proof.
  unfold print_decoded, emit, raise. destruct (utf8_valid b); [|discriminate].
  intros H; inversion H; auto.
Qed.

Lemma show_stdout_frame (out : list byte) (r r' : Runner) t :
  show_stdout out r = (t, Ok tt r') -> same_frame r r'.
Proof.
  unfold show_stdout. rewrite bind_get.
  destruct (Z.of_nat (List.length out) >? output_chars_printed r)%Z.
  - intros E.
    apply bind_ok in E. destruct E as (t1 & [] & r1 & t2 & E1 & E2 & _).
    apply print_decoded_ok in E1. destruct E1 as (_ & _ & ->).
    apply bind_ok in E2. destruct E2 as (t3 & [] & r3 & t4 & E3 & E4 & _).
    unfold modify in E3. inversion E3; subst; clear E3.
    apply set_last_ok in E4. destruct E4 as (_ & _ & ->).
    unfold same_frame; simpl. rewrite update_last_length. auto.
  - intros H; inversion H; subst. apply same_frame_refl.
Qed.

Lemma show_stderr_frame (err : list byte) (r r' : Runner) t :
  show_stderr err r = (t, Ok tt r') -> same_frame r r'.
Proof.
  unfold show_stderr. rewrite bind_get.
  destruct (Z.of_nat (List.length err) >? error_chars_printed r)%Z.
  - intros E.
    apply bind_ok in E. destruct E as (t1 & [] & r1 & t2 & E1 & E2 & _).
    apply print_decoded_ok in E1. destruct E1 as (_ & _ & ->).
    apply bind_ok in E2. destruct E2 as (t3 & [] & r3 & t4 & E3 & E4 & _).
    unfold modify in E3. inversion E3; subst; clear E3.
    apply set_last_ok in E4. destruct E4 as (_ & _ & ->).
    unfold same_frame; simpl. rewrite update_last_length. auto.
  - intros H; inversion H; subst. apply same_frame_refl.
Qed.

Lemma run_compile_eq (cp : compile_process) (r : Runner) :
  run_compile cp r =
  ([Compile (get_full_source r)],
   Ok (if (returncode cp =? 0)%Z then None
       else if String.eqb (diagnostics cp) EmptyString
            then Some UNKNOWN_COMPILE_ERROR else Some (diagnostics cp)) r).
Proof.
  unfold run_compile, diagnostics, bind, get, emit, ret; simpl.
  destruct (returncode cp =? 0)%Z; simpl; auto.
  destruct (stdout_data cp), (stderr_data cp); simpl;
    rewrite ?append_empty_r; try reflexivity;
    match goal with |- context [if ?b then _ else _] => destruct b end;
    reflexivity.
Qed.

Lemma compile_and_run_unfold (cp : compile_process) (rp : run_process) (r : Runner) :
  compile_and_run cp rp r =
  if (returncode cp =? 0)%Z then
    (Compile (get_full_source r) :: Execute
       :: fst ((show_stdout (stdout rp) ;; show_stderr (stderr rp))
                 (set_compile_error None r)),
     snd ((show_stdout (stdout rp) ;; show_stderr (stderr rp))
            (set_compile_error None r)))
  else
    ([Compile (get_full_source r); Print BANNER],
     Ok tt (set_compile_error
              (Some (if String.eqb (diagnostics cp) EmptyString
                     then UNKNOWN_COMPILE_ERROR else diagnostics cp)) r)).
Proof.
  unfold compile_and_run. unfold bind at 1. rewrite run_compile_eq.
  cbn [fst snd app]. rewrite bind_modify.
  destruct (returncode cp =? 0)%Z.
  - rewrite bind_emit. reflexivity.
  - destruct (String.eqb (diagnostics cp) EmptyString); reflexivity.
Qed.

Lemma run_part_frame (rp : run_process) (r r' : Runner) t :
  (show_stdout (stdout rp) ;; show_stderr (stderr rp)) r = (t, Ok tt r') ->
  same_frame r r'.
Proof.
  intros E. apply bind_ok in E. destruct E as (t1 & [] & r1 & t2 & E1 & E2 & _).
  apply show_stdout_frame in E1. apply show_stderr_frame in E2.
  eapply same_frame_trans; eauto.
Qed.

Lemma compile_and_run_shape (cp : compile_process) (rp : run_process) (r r' : Runner) t :
  compile_and_run cp rp r = (t, Ok tt r') ->
  input_num r' = input_num r /\
  List.length (user_input r') = List.length (user_input r) /\
  exists rest, t = Compile (get_full_source r) :: rest.
Proof.
  rewrite compile_and_run_unfold.
  destruct (returncode cp =? 0)%Z.
  - match goal with |- context [fst ?X] => destruct X as [t0 x] eqn:E end.
    simpl. intros H; inversion H; subst; clear H.
    apply run_part_frame in E. destruct E as (F1 & F2 & _). simpl in *. eauto.
  - intros H; inversion H; subst. simpl. eauto.
Qed.

(* ================================================================== *)
(** ** Turns *)
(* ================================================================== *)

Ltac mstep :=
  repeat (rewrite bind_get || rewrite bind_ret || rewrite bind_modify
          || rewrite bind_emit || rewrite bind_raise);
  cbv beta.

Ltac mstep_in H :=
  repeat (rewrite bind_get in H || rewrite bind_ret in H
          || rewrite bind_modify in H || rewrite bind_emit in H
          || rewrite bind_raise in H);
  cbv beta in H.

Lemma turn_ordinary (lines : list string) cp rp (r : Runner) :
  startswith "." (join NL lines) = false ->
  turn (Some lines) cp rp r
  = (splice lines ;; compile_and_run cp rp ;; ret Continue) r.
Proof.
  intros H. unfold turn, check_input_type. rewrite H. mstep. reflexivity.
Qed.

Lemma undo_frame (r r' : Runner) t x :
  undo r = (t, Ok x r') ->
  t = [] /\ compile_error r' = compile_error r /\
  user_input r' = user_input r /\ show_line_numbers r' = show_line_numbers r.
Proof.
  unfold undo. mstep.
  destruct (input_num r =? 0)%nat.
  - unfold ret. intros H; inversion H; subst; auto.
  - mstep. cbn [user_input input_num set_input_num].
    destruct (nth_error (user_input r) (input_num r - 1)) as [u|].
    + mstep. unfold ret. intros H; inversion H; subst; auto.
    + unfold raise. discriminate.
Qed.

Lemma redo_frame (r r' : Runner) t x :
  redo r = (t, Ok x r') ->
  t = [] /\ compile_error r' = compile_error r /\
  user_input r' = user_input r /\ show_line_numbers r' = show_line_numbers r /\
  output_chars_printed r' = output_chars_printed r /\
  error_chars_printed r' = error_chars_printed r.
Proof.
  unfold redo. mstep.
  destruct (List.length (user_input r) <=? input_num r)%nat.
  - unfold ret. intros H; inversion H; subst. repeat split.
  - mstep. cbn [user_input input_num set_input_num].
    destruct (nth_error (user_input r) (input_num r + 1 - 1)) as [u|].
    + unfold ret. intros H; inversion H; subst. repeat split.
    + unfold raise. discriminate.
Qed.

Lemma print_all_eq (texts : list string) (r : Runner) :
  print_all texts r = (map Print texts, Ok tt r).
Proof.
  induction texts as [|x xs IH]; [reflexivity|].
  simpl. rewrite bind_emit, IH. reflexivity.
Qed.

(** The help listing, one text per command. *)
Lemma dot_h_eq (r : Runner) :
  dot_h r = (map Print (map (fun kv => "[bold][blue]" ++ fst kv
                                 ++ "[/blue][/bold]  " ++ fst (snd kv))
                                dot_commands), Ok (false, false) r).
Proof.
  unfold dot_h. unfold bind. rewrite print_all_eq.
  cbn [fst snd ret]. rewrite app_nil_r. reflexivity.
Qed.

(** No command asks for its text to be stored, and none touches the
    stored compile error. *)
Lemma run_command_frame (c : command) (r r' : Runner) t fl :
  run_command c r = (t, Ok fl r') ->
  fst fl = false /\ compile_error r' = compile_error r /\
  (forall src, ~ In (Compile src) t).
Proof.
  destruct c; cbn [run_command].
  - rewrite dot_h_eq. intros H; inversion H; subst.
    repeat split. intros src Hin. simpl in Hin. intuition discriminate.
  - unfold dot_c. mstep. unfold ret. cbn [fst snd].
    intros H; inversion H; subst. repeat split.
    try (intros src Hin; simpl in Hin; intuition discriminate).
  - unfold dot_e. rewrite bind_get. unfold bind.
    destruct (compile_error r) as [e|] eqn:Ece; [destruct (truthy e)|];
      unfold emit, ret; cbn [fst snd app];
      intros H; inversion H; subst; repeat split; try congruence;
      try (intros src Hin; simpl in Hin; intuition discriminate).
  - unfold dot_l. rewrite bind_get. unfold bind.
    match goal with |- context [if ?b then _ else _] => destruct b end;
      unfold emit, ret; cbn [fst snd app];
      intros H; inversion H; subst; repeat split;
      try (intros src Hin; simpl in Hin; intuition discriminate).
  - unfold dot_L. mstep. unfold ret. cbn [fst snd].
    intros H; inversion H; subst. repeat split.
    try (intros src Hin; simpl in Hin; intuition discriminate).
  - unfold dot_n. mstep. unfold ret. cbn [fst snd].
    intros H; inversion H; subst. repeat split.
    try (intros src Hin; simpl in Hin; intuition discriminate).
  - unfold dot_v. mstep. unfold ret. cbn [fst snd].
    intros H; inversion H; subst. repeat split.
    try (intros src Hin; simpl in Hin; intuition discriminate).
  - unfold dot_r. intros H. apply bind_ok in H.
    destruct H as (t1 & a & r1 & t2 & E1 & E2 & ->).
    apply redo_frame in E1. destruct E1 as (-> & F & _).
    destruct a; rewrite bind_emit in E2; unfold ret in E2; cbn [fst snd] in E2;
      inversion E2; subst; repeat split; auto;
      try (intros src Hin; simpl in Hin; intuition discriminate).
  - unfold dot_u. intros H. apply bind_ok in H.
    destruct H as (t1 & a & r1 & t2 & E1 & E2 & ->).
    apply undo_frame in E1. destruct E1 as (-> & F & _).
    apply bind_ok in E2. destruct E2 as (t3 & [] & r3 & t4 & E3 & E4 & ->).
    unfold ret in E4. inversion E4; subst.
    destruct a; unfold emit in E3; inversion E3; subst; repeat split; auto;
      try (intros src Hin; simpl in Hin; intuition discriminate).
  - unfold dot_q, raise. discriminate.
Qed.

Lemma turn_dot_r_nothing cp rp (r : Runner) :
  (List.length (user_input r) <= input_num r)%nat ->
  turn (Some [".r"]) cp rp r
  = ([Print "[black on white]Nothing to redo"], Ok Continue r).
Proof.
  intros H. unfold turn, check_input_type.
  change (join NL [".r"]) with ".r".
  change (startswith "." ".r") with true.
  change (lookup ".r" dot_commands) with (Some ("Redo undone command", cmd_r)).
  cbn [run_command]. unfold dot_r.
  unfold bind at 1 2. rewrite (redo_at_end r H).
  cbn [fst snd app]. rewrite bind_emit. unfold ret. cbn [fst snd].
  mstep. reflexivity.
Qed.

Lemma turn_dot_u_some cp rp (r : Runner) (n : nat) (u : UserInput) :
  input_num r = S n ->
  nth_error (user_input r) n = Some u ->
  turn (Some [".u"]) cp rp r
  = ([Print ("[black on white]Undone `" ++ inp u ++ "`")],
     Ok Continue (mkRunner (user_input r) n (compile_error r)
                           (output_chars_printed r - output_chars u)
                           (error_chars_printed r - error_chars u)
                           (show_line_numbers r))).
Proof.
  intros Hn Hu. unfold turn, check_input_type.
  change (join NL [".u"]) with ".u".
  change (startswith "." ".u") with true.
  change (lookup ".u" dot_commands) with (Some ("Undo previous command", cmd_u)).
  cbn [run_command]. unfold dot_u.
  unfold bind at 1 2. rewrite (undo_at r Hn Hu).
  cbn [fst snd app]. rewrite bind_emit. unfold ret. cbn [fst snd].
  mstep. reflexivity.
Qed.

Lemma turn_dot_e_error cp rp (r : Runner) (e : string) :
  compile_error r = Some e -> truthy e = true ->
  turn (Some [".e"]) cp rp r = ([Print e], Ok Continue r).
Proof.
  intros He Ht. unfold turn, check_input_type.
  change (join NL [".e"]) with ".e".
  change (startswith "." ".e") with true.
  change (lookup ".e" dot_commands)
    with (Some ("Show the last compile errors/warnings", cmd_e)).
  cbn [run_command]. unfold dot_e.
  unfold bind at 1. rewrite bind_get, He, Ht.
  rewrite bind_emit. unfold ret. cbn [fst snd app].
  mstep. reflexivity.
Qed.

Lemma lookup_names (text : string) :
  (exists v, lookup text dot_commands = Some v) <-> In text command_names.
Proof.
  unfold command_names.
  induction dot_commands as [|[k v] d IH]; simpl.
  - split; [intros [v H]; discriminate | tauto].
  - destruct (String.eqb_spec text k) as [->|Hne].
    + split; eauto.
    + rewrite IH. split; [tauto|]. intros [H|H]; [congruence|auto].
Qed.

Lemma names_start_with_dot (text : string) :
  In text command_names -> startswith "." text = true.
Proof.
  unfold command_names. simpl. intuition (subst; reflexivity).
Qed.

Lemma check_input_type_unknown (text : string) (r : Runner) :
  startswith "." text = true -> lookup text dot_commands = None ->
  check_input_type text r
  = (Print ("[white on red]Unknown command `" ++ text
            ++ "`. Available commands:") :: map Print help_listing,
     Ok (false, false) r).
Proof.
  intros Hdot Hl. unfold check_input_type.
  rewrite Hdot, Hl, bind_emit, dot_h_eq. reflexivity.
Qed.

Lemma check_input_type_frame (text : string) (r r1 : Runner) t fl :
  check_input_type text r = (t, Ok fl r1) ->
  (fl = (true, true) /\ r1 = r /\ t = [])
  \/ (fst fl = false /\ compile_error r1 = compile_error r
      /\ forall src, ~ In (Compile src) t).
Proof.
  destruct (startswith "." text) eqn:Hdot.
  - destruct (lookup text dot_commands) as [[d c]|] eqn:Hl.
    + unfold check_input_type. rewrite Hdot, Hl. intros H.
      right. eapply run_command_frame; eauto.
    + rewrite check_input_type_unknown by auto.
      intros H; inversion H; subst. right. repeat split.
      intros src Hin. simpl in Hin. intuition discriminate.
  - unfold check_input_type. rewrite Hdot. unfold ret.
    intros H; inversion H; subst. left. auto.
Qed.

(** A finished turn either started the compiler or kept the stored
    compile error. *)
Lemma turn_compile_or_keep typed cp rp (r r' : Runner) t c :
  turn typed cp rp r = (t, Ok c r') ->
  (exists src, In (Compile src) t) \/ compile_error r' = compile_error r.
Proof.
  destruct typed as [lines|]; cbn [turn].
  2:{ unfold ret. intros H; inversion H; subst. auto. }
  intros H. apply bind_ok in H.
  destruct H as (t1 & fl & r1 & t2 & E1 & E2 & ->).
  apply bind_ok in E2. destruct E2 as (t3 & [] & r3 & t4 & E3 & E4 & ->).
  apply bind_ok in E4. destruct E4 as (t5 & [] & r5 & t6 & E5 & E6 & ->).
  unfold ret in E6. inversion E6; subst; clear E6.
  destruct (snd fl) eqn:Hs.
  - left. apply compile_and_run_shape in E5.
    destruct E5 as (_ & _ & rest & ->).
    eexists. apply in_or_app. right. apply in_or_app. right.
    apply in_or_app. left. left. reflexivity.
  - right. unfold ret in E5. inversion E5; subst; clear E5.
    apply check_input_type_frame in E1.
    destruct E1 as [(-> & _ & _)|(Hf & Hc & _)]; [discriminate|].
    rewrite Hf in E3. unfold ret in E3. inversion E3; subst. exact Hc.
Qed.

(* ================================================================== *)
(** ** The matcher decides prefix membership *)
(* ================================================================== *)

Lemma append_eq_empty (a b : string) : a ++ b = "" -> a = "" /\ b = "".
Proof. destruct a; simpl; [auto | discriminate]. Qed.

Lemma append_eq_cons (a b s : string) (c : ascii) :
  a ++ b = String c s ->
  (a = "" /\ b = String c s) \/ (exists a', a = String c a' /\ s = a' ++ b).
Proof.
  destruct a as [|x a']; simpl; intros H.
  - left; auto.
  - right. inversion H; subst. eauto.
Qed.

Lemma nullable_spec (r : regex) : nullable r = true <-> lang r "".
Proof.
  induction r; simpl.
  - split; [discriminate | intros H; inversion H].
  - split; [constructor | reflexivity].
  - split; [discriminate | intros H; inversion H].
  - rewrite andb_true_iff, IHr1, IHr2. split.
    + intros [H1 H2]. apply (LCat H1 H2).
    + intros H. inversion H; subst.
      match goal with E : _ ++ _ = "" |- _ => apply append_eq_empty in E; destruct E; subst end.
      auto.
  - rewrite orb_true_iff, IHr1, IHr2. split.
    + intros [H|H]; [apply LAltL | apply LAltR]; auto.
    + intros H; inversion H; subst; auto.
  - split; [constructor | reflexivity].
Qed.

Lemma cat_spec (r1 r2 : regex) (s : string) :
  lang (cat r1 r2) s <-> lang (Cat r1 r2) s.
Proof.
  assert (V1 : forall r s, lang (Cat Void r) s -> False).
  { intros r s' H. inversion H; subst.
    match goal with X : lang Void _ |- _ => inversion X end. }
  assert (V2 : forall r s, lang (Cat r Void) s -> False).
  { intros r s' H. inversion H; subst.
    match goal with X : lang Void _ |- _ => inversion X end. }
  assert (E1 : forall r s, lang (Cat Eps r) s <-> lang r s).
  { intros r s'. split; intros H.
    - inversion H; subst.
      match goal with X : lang Eps _ |- _ => inversion X; subst end. auto.
    - apply (LCat LEps H). }
  destruct r1, r2; simpl; try tauto;
    try (split; intros H; [inversion H | exfalso; eauto]; fail);
    try (symmetry; apply E1).
Qed.

Lemma alt_spec (r1 r2 : regex) (s : string) :
  lang (alt r1 r2) s <-> lang (Alt r1 r2) s.
Proof.
  assert (L : forall r s, lang (Alt Void r) s <-> lang r s).
  { intros r s'. split; intros H; [|apply LAltR; auto].
    inversion H; subst; auto.
    match goal with X : lang Void _ |- _ => inversion X end. }
  assert (R : forall r s, lang (Alt r Void) s <-> lang r s).
  { intros r s'. split; intros H; [|apply LAltL; auto].
    inversion H; subst; auto.
    match goal with X : lang Void _ |- _ => inversion X end. }
  destruct r1, r2; simpl; try tauto;
    try (symmetry; apply L); try (symmetry; apply R).
Qed.

Lemma star_cons (r : regex) (c : ascii) (s : string) :
  lang (Star r) (String c s) ->
  exists s1 s2, s = s1 ++ s2 /\ lang r (String c s1) /\ lang (Star r) s2.
Proof.
  intros H. remember (Star r) as q eqn:Eq. remember (String c s) as w eqn:Ew.
  revert s Ew.
  induction H as [| | | | | |r0 a b Ha IHa Hb IHb]; intros s' Ew;
    try discriminate.
  inversion Eq; subst.
  destruct (append_eq_cons _ _ Ew) as [[-> ->]|(a' & -> & ->)].
  - apply IHb; auto.
  - eauto.
Qed.

Lemma deriv_spec (r : regex) (c : ascii) (s : string) :
  lang (deriv c r) s <-> lang r (String c s).
Proof.
  revert s. induction r; intros s; simpl.
  - split; intros H; inversion H.
  - split; intros H; inversion H.
  - destruct (p c) eqn:E; split; intros H; inversion H; subst.
    + constructor; auto.
    + constructor.
    + congruence.
  - assert (A : lang (cat (deriv c r1) r2) s <->
                exists a b, s = a ++ b /\ lang r1 (String c a) /\ lang r2 b).
    { rewrite cat_spec. split.
      - intros H; inversion H; subst. do 2 eexists.
        split; [reflexivity|]. split; [apply IHr1|]; auto.
      - intros (a & b & -> & Ha & Hb). apply LCat; [apply IHr1|]; auto. }
    assert (B : lang (Cat r1 r2) (String c s) <->
                (exists a b, s = a ++ b /\ lang r1 (String c a) /\ lang r2 b)
                \/ (lang r1 "" /\ lang r2 (String c s))).
    { split.
      - intros H; inversion H; subst.
        match goal with E : _ ++ _ = String _ _ |- _ =>
          destruct (append_eq_cons _ _ E) as [[-> ->]|(a' & -> & ->)] end;
          [right | left]; eauto.
      - intros [(a & b & -> & Ha & Hb)|[Ha Hb]].
        + apply (LCat Ha Hb).
        + apply (LCat Ha Hb). }
    rewrite B. destruct (nullable r1) eqn:N.
    + rewrite alt_spec. apply nullable_spec in N. split.
      * intros H; inversion H; subst; [left; apply A | right; split; [|apply IHr2]]; auto.
      * intros [H|[_ H]]; [apply LAltL, A | apply LAltR, IHr2]; auto.
    + rewrite A. split; [auto|]. intros [H|[H _]]; auto.
      apply nullable_spec in H. congruence.
  - rewrite alt_spec. split.
    + intros H; inversion H; subst; [apply LAltL, IHr1 | apply LAltR, IHr2]; auto.
    + intros H; inversion H; subst; [apply LAltL, IHr1 | apply LAltR, IHr2]; auto.
  - rewrite cat_spec. split.
    + intros H; inversion H; subst.
      apply (@LStarS r (String c s1) s2); [apply IHr|]; auto.
    + intros H. apply star_cons in H. destruct H as (s1 & s2 & -> & H1 & H2).
      apply LCat; [apply IHr|]; auto.
Qed.

(** [matches] answers whether a prefix of the text is a word of the pattern. *)
Lemma matches_spec (r : regex) (s : string) :
  matches r s = true <-> exists p q, s = p ++ q /\ lang r p.
Proof.
  revert r. induction s as [|c s IH]; intros r; simpl.
  - rewrite orb_false_r, nullable_spec. split.
    + intros H. exists "", "". auto.
    + intros (p & q & E & H). symmetry in E.
      apply append_eq_empty in E. destruct E; subst. auto.
  - rewrite orb_true_iff, nullable_spec, IH. split.
    + intros [H|(p & q & -> & H)].
      * exists "", (String c s). auto.
      * exists (String c p), q. split; [reflexivity|]. apply deriv_spec; auto.
    + intros (p & q & E & H). symmetry in E.
      destruct (append_eq_cons _ _ E) as [[-> ->]|(a' & -> & ->)]; [left; auto|].
      right. exists a', q. split; [reflexivity|]. apply deriv_spec; auto.
Qed.

(* ================================================================== *)
(** ** Lines, blank lines and joins *)
(* ================================================================== *)

Lemma rstrip_empty (s : string) : rstrip s = "" <-> all_space s = true.
Proof.
  induction s as [|c s IH]; simpl; [tauto|].
  destruct (rstrip s) eqn:E.
  - destruct (isspace c); simpl.
    + rewrite <- IH. tauto.
    + split; discriminate.
  - split; [discriminate|]. intros H. apply andb_true_iff in H.
    destruct H as [_ H]. apply IH in H. discriminate.
Qed.

Lemma lstrip_all_space (s : string) :
  all_space (lstrip s) = true <-> all_space s = true.
Proof.
  induction s as [|c s IH]; simpl; [tauto|].
  destruct (isspace c) eqn:E; simpl; rewrite ?E; simpl; tauto.
Qed.

Lemma is_blank_spec (s : string) : is_blank s = all_space s.
Proof.
  unfold is_blank, strip.
  destruct (all_space s) eqn:E.
  - apply String.eqb_eq. apply (proj2 (rstrip_empty _)).
    apply (proj2 (lstrip_all_space _)). exact E.
  - apply String.eqb_neq. intros H.
    apply (proj1 (rstrip_empty _)) in H.
    apply (proj1 (lstrip_all_space _)) in H. congruence.
Qed.

Lemma all_space_app (a b : string) :
  all_space (a ++ b) = all_space a && all_space b.
Proof.
  induction a as [|c a IH]; simpl; auto. rewrite IH, andb_assoc. reflexivity.
Qed.

Lemma all_space_spaces (n : nat) : all_space (spaces n) = true.
Proof. induction n; simpl; auto. Qed.

Lemma split_nonempty (s : string) : split nl s <> [].
Proof.
  destruct s as [|c s]; simpl; [discriminate|].
  destruct (Ascii.eqb c nl); [discriminate|].
  destruct (split nl s); discriminate.
Qed.

(** Cutting at a newline cuts the list of lines in two. *)
Lemma split_app_nl (a b : string) :
  split nl (a ++ String nl b) = (split nl a ++ split nl b)%list.
Proof.
  induction a as [|c a IH]; simpl.
  - reflexivity.
  - destruct (Ascii.eqb c nl); rewrite IH; [reflexivity|].
    destruct (split nl a) eqn:E; [exfalso; eapply split_nonempty; eauto|].
    reflexivity.
Qed.

Lemma split_no_newline (s : string) : no_newline s = true -> split nl s = [s].
Proof.
  induction s as [|c s IH]; simpl; [reflexivity|].
  intros H. apply andb_true_iff in H. destruct H as [Hc Hs].
  apply negb_true_iff in Hc. rewrite Hc, IH by auto. reflexivity.
Qed.

Lemma split_pieces (s : string) :
  Forall (fun l => no_newline l = true) (split nl s).
Proof.
  induction s as [|c s IH]; simpl.
  - constructor; auto.
  - destruct (Ascii.eqb c nl) eqn:E.
    + constructor; auto.
    + destruct (split nl s) as [|l ls].
      * constructor; [simpl; rewrite E; reflexivity | constructor].
      * inversion IH; subst.
        constructor; [simpl; rewrite E; simpl; assumption | assumption].
Qed.

Lemma split_join (ls : list string) :
  ls <> [] -> Forall (fun l => no_newline l = true) ls ->
  split nl (join NL ls) = ls.
Proof.
  induction ls as [|x xs IH]; [congruence|].
  intros _ H. inversion H as [|? ? Hx Hxs]; subst.
  destruct xs as [|y ys].
  - simpl. apply split_no_newline; auto.
  - change (join NL (x :: y :: ys)) with (x ++ String nl (join NL (y :: ys))).
    rewrite split_app_nl, IH by (auto; discriminate).
    rewrite split_no_newline by auto. reflexivity.
Qed.

Lemma join_cons (x : string) (xs : list string) :
  xs <> [] -> join NL (x :: xs) = x ++ NL ++ join NL xs.
Proof. destruct xs; [congruence | reflexivity]. Qed.

(* ------------------------------------------------------------------ *)
(** *** [_clean_source] *)

Lemma clean_lines_nonblank (b : bool) (ls : list string) :
  filter nonblank (clean_lines b ls) = filter nonblank ls.
Proof.
  revert b. induction ls as [|l ls IH]; intros b; simpl; [reflexivity|].
  unfold nonblank at 2. destruct (is_blank l) eqn:E; simpl.
  - destruct b; simpl; [apply IH|].
    unfold nonblank at 1. rewrite E. simpl. apply IH.
  - unfold nonblank at 1. rewrite E. simpl. rewrite IH. reflexivity.
Qed.

Lemma clean_lines_pieces (P : string -> Prop) (b : bool) (ls : list string) :
  Forall P ls -> Forall P (clean_lines b ls).
Proof.
  revert b. induction ls as [|l ls IH]; intros b H; simpl; [constructor|].
  inversion H; subst.
  destruct (is_blank l && b); [apply IH | constructor]; auto.
Qed.

Lemma clean_lines_first (ls : list string) :
  ls <> [] -> clean_lines false ls <> [].
Proof.
  destruct ls as [|l ls]; [congruence|]. simpl.
  rewrite andb_false_r. discriminate.
Qed.

Lemma no_double_blank_cons (a b : string) (t : list string) :
  no_double_blank (a :: b :: t)
  = negb (is_blank a && is_blank b) && no_double_blank (b :: t).
Proof. reflexivity. Qed.

Lemma clean_lines_no_double (b : bool) (ls : list string) :
  no_double_blank (clean_lines b ls) = true
  /\ (b = true -> match clean_lines b ls with
                  | h :: _ => is_blank h = false
                  | [] => True
                  end).
Proof.
  revert b. induction ls as [|l ls IH]; intros b; [simpl; auto|].
  cbn [clean_lines].
  destruct (is_blank l) eqn:E; cbn [andb].
  - destruct b.
    + apply IH.
    + split; [|discriminate].
      destruct (IH true) as [H1 H2]. specialize (H2 eq_refl).
      destruct (clean_lines true ls) as [|h t]; [reflexivity|].
      rewrite no_double_blank_cons, E, H2, H1. reflexivity.
  - split; [|intros _; exact E].
    destruct (IH false) as [H1 _].
    destruct (clean_lines false ls) as [|h t]; [reflexivity|].
    rewrite no_double_blank_cons, E, H1. reflexivity.
Qed.

(** The lines of the cleaned text are the kept lines. *)
Lemma lines_of_clean (src : string) :
  lines_of (_clean_source src) = clean_lines false (split nl src).
Proof.
  unfold lines_of, _clean_source. apply split_join.
  - apply clean_lines_first, split_nonempty.
  - apply clean_lines_pieces, split_pieces.
Qed.

(* ------------------------------------------------------------------ *)
(** *** [splitlines] and the [indent] filter *)

Lemma splitlines_nl (s : string) :
  splitlines (String nl s) = "" :: splitlines s.
Proof. destruct s; reflexivity. Qed.

Lemma single_line_no_newline (s : string) :
  single_line s = true -> no_newline s = true.
Proof.
  induction s as [|c s IH]; simpl; auto.
  intros H. apply andb_true_iff in H. destruct H as [Hc Hs].
  rewrite IH by auto. rewrite andb_true_r.
  destruct (Ascii.eqb_spec c nl) as [->|]; [discriminate Hc | reflexivity].
Qed.

Lemma splitlines_pieces (s : string) :
  Forall (fun l => single_line l = true) (splitlines s).
Proof.
  induction s as [|c s IH]; [constructor|].
  cbn [splitlines]. destruct (islinebreak c) eqn:Ec.
  - destruct s as [|c' s']; [repeat constructor|].
    destruct (Ascii.eqb c cr && Ascii.eqb c' nl) eqn:E.
    + apply andb_true_iff in E. destruct E as [_ E].
      apply Ascii.eqb_eq in E. subst c'.
      rewrite splitlines_nl in IH. exact IH.
    + constructor; auto.
  - destruct (splitlines s) as [|l ls].
    + repeat constructor. simpl. rewrite Ec. reflexivity.
    + inversion IH; subst. constructor; auto. simpl. rewrite Ec. auto.
Qed.

Lemma splitlines_line (x rest : string) :
  single_line x = true ->
  splitlines (x ++ String nl rest) = x :: splitlines rest.
Proof.
  induction x as [|c x IH]; intros H.
  - apply splitlines_nl.
  - simpl in H. apply andb_true_iff in H. destruct H as [Hc Hx].
    apply negb_true_iff in Hc.
    change ((String c x) ++ String nl rest) with (String c (x ++ String nl rest)).
    cbn [splitlines]. rewrite Hc, IH by auto. reflexivity.
Qed.

Lemma splitlines_join (ls : list string) :
  ls <> [] -> Forall (fun l => single_line l = true) ls ->
  splitlines (join NL ls ++ NL) = ls.
Proof.
  induction ls as [|x xs IH]; [congruence|].
  intros _ H. inversion H as [|? ? Hx Hxs]; subst.
  destruct xs as [|y ys].
  - simpl. unfold NL. rewrite splitlines_line by auto. reflexivity.
  - rewrite join_cons by discriminate.
    replace ((x ++ NL ++ join NL (y :: ys)) ++ NL)
      with (x ++ String nl (join NL (y :: ys) ++ NL))
      by (rewrite append_assoc; reflexivity).
    rewrite splitlines_line by auto.
    rewrite IH by (auto; discriminate). reflexivity.
Qed.

Lemma splitlines_app_nl_nonempty (s : string) : splitlines (s ++ NL) <> [].
Proof.
  destruct s as [|c s]; [discriminate|].
  change (String c s ++ NL) with (String c (s ++ NL)).
  cbn [splitlines]. destruct (islinebreak c).
  - destruct (s ++ NL); [discriminate|].
    destruct (_ && _); discriminate.
  - destruct (splitlines (s ++ NL)); discriminate.
Qed.

Lemma indent_join (width : nat) (s : string) :
  exists l0 ls, splitlines (s ++ NL) = l0 :: ls
                /\ indent width s = join NL (l0 :: map (indent_line width) ls).
Proof.
  unfold indent.
  destruct (splitlines (s ++ NL)) as [|l0 ls] eqn:E;
    [exfalso; eapply splitlines_app_nl_nonempty; eauto|].
  exists l0, ls. split; [reflexivity|].
  destruct ls as [|l1 ls']; [reflexivity|].
  rewrite join_cons by discriminate. reflexivity.
Qed.

Lemma join_prefix_first (p x : string) (xs : list string) :
  p ++ join NL (x :: xs) = join NL ((p ++ x) :: xs).
Proof.
  destruct xs as [|y ys]; [reflexivity|].
  rewrite (@join_cons x (y :: ys)), (@join_cons (p ++ x) (y :: ys))
    by discriminate.
  rewrite append_assoc. reflexivity.
Qed.

Lemma no_newline_app (a b : string) :
  no_newline (a ++ b) = no_newline a && no_newline b.
Proof.
  induction a as [|c a IH]; simpl; auto. rewrite IH, andb_assoc. reflexivity.
Qed.

Lemma no_newline_spaces (n : nat) : no_newline (spaces n) = true.
Proof. induction n; simpl; auto. Qed.

Lemma nonblank_spec (l : string) : nonblank l = negb (all_space l).
Proof. unfold nonblank. rewrite is_blank_spec. reflexivity. Qed.

Lemma indent_line_nonblank (l : string) :
  nonblank (indent_line 4 l) = nonblank l
  /\ (nonblank l = true -> indent_line 4 l = "    " ++ l).
Proof.
  rewrite !nonblank_spec. unfold indent_line.
  destruct l as [|c l]; [split; [reflexivity | discriminate]|].
  cbn [truthy String.eqb negb]. split; reflexivity.
Qed.

Lemma nonblank_indent_line (ls : list string) :
  filter nonblank (map (indent_line 4) ls)
  = map (append "    ") (filter nonblank ls).
Proof.
  induction ls as [|l ls IH]; [reflexivity|].
  cbn [map filter]. destruct (indent_line_nonblank l) as [E1 E2].
  rewrite E1. destruct (nonblank l); cbn [map]; rewrite IH; [|reflexivity].
  rewrite E2 by reflexivity. reflexivity.
Qed.

(** The body of [main]: the non-blank pieces of the statements, each after
    four blanks. *)
Lemma body_lines (cmds : string) :
  filter nonblank (lines_of ("    " ++ indent 4 cmds))
  = map (append "    ") (filter nonblank (splitlines (cmds ++ NL))).
Proof.
  destruct (indent_join 4 cmds) as (l0 & ls & E & ->).
  pose proof (splitlines_pieces (cmds ++ NL)) as P. rewrite E in P.
  inversion P as [|? ? P0 Pls]; subst.
  rewrite E, join_prefix_first. unfold lines_of.
  rewrite split_join.
  - cbn [filter]. rewrite nonblank_indent_line.
    rewrite (nonblank_spec ("    " ++ l0)), (nonblank_spec l0).
    change (all_space ("    " ++ l0)) with (all_space l0).
    destruct (all_space l0); reflexivity.
  - discriminate.
  - constructor.
    + rewrite no_newline_app. apply single_line_no_newline in P0.
      rewrite P0. reflexivity.
    + apply Forall_forall. intros x Hx. apply in_map_iff in Hx.
      destruct Hx as (l & <- & Hl).
      rewrite Forall_forall in Pls. specialize (Pls l Hl).
      apply single_line_no_newline in Pls.
      unfold indent_line. destruct (truthy l); [|exact Pls].
      rewrite no_newline_app, no_newline_spaces, Pls. reflexivity.
Qed.

(* ------------------------------------------------------------------ *)
(** *** The rendered template, line by line *)

Lemma split_nl_head (s : string) : split nl (String nl s) = "" :: split nl s.
Proof. reflexivity. Qed.

Lemma block_lines (text : string) :
  filter nonblank (lines_of (block text)) = filter nonblank (lines_of text).
Proof.
  unfold lines_of, block, truthy.
  destruct (String.eqb_spec text "") as [->|Hne]; cbn [negb].
  - reflexivity.
  - change (NL ++ text ++ NL) with (String nl (text ++ String nl "")).
    rewrite split_nl_head, split_app_nl.
    change (filter nonblank ("" :: ?L)) with (filter nonblank L).
    rewrite filter_app.
    change (filter nonblank (split nl "")) with (@nil string).
    rewrite app_nil_r. reflexivity.
Qed.

Lemma render_shape (user_includes user_functions user_input : string) :
  SOURCE_CODE_TEMPLATE user_includes user_functions user_input
  = BOILERPLATE ++ String nl
      (block user_includes ++ String nl
         (block user_functions ++ String nl
            ("int main(void) {" ++ String nl
               (("    " ++ indent 4 user_input) ++ String nl
                  ("    return 0;" ++ String nl "}"))))).
Proof.
  unfold SOURCE_CODE_TEMPLATE. fold (block user_includes). fold (block user_functions).
  rewrite (append_assoc "    " (indent 4 user_input)). reflexivity.
Qed.

Lemma render_lines (user_includes user_functions user_input : string) :
  filter nonblank (lines_of (SOURCE_CODE_TEMPLATE user_includes user_functions user_input))
  = ([BOILERPLATE]
     ++ filter nonblank (lines_of user_includes)
     ++ filter nonblank (lines_of user_functions)
     ++ ["int main(void) {"]
     ++ map (append "    ")
            (filter nonblank (splitlines (user_input ++ NL)))
     ++ ["    return 0;"; "}"])%list.
Proof.
  rewrite render_shape. unfold lines_of at 1.
  rewrite !split_app_nl, !filter_app.
  fold (lines_of (block user_includes)). fold (lines_of (block user_functions)).
  fold (lines_of ("    " ++ indent 4 user_input)).
  rewrite !block_lines, body_lines. reflexivity.
Qed.

(* ================================================================== *)
(** ** Where the counters do follow the history *)
(* ================================================================== *)

Lemma total_app (f : UserInput -> Z) (a b : list UserInput) :
  total f (a ++ b) = (total f a + total f b)%Z.
Proof.
  unfold total. induction a as [|x a IH]; simpl; [reflexivity|].
  rewrite IH. lia.
Qed.

Lemma total_fresh (ls : list string) :
  total output_chars (map new_UserInput ls) = 0%Z
  /\ total error_chars (map new_UserInput ls) = 0%Z.
Proof. unfold total. induction ls; simpl; auto. Qed.

Lemma update_last_app (f : UserInput -> UserInput) (l : list UserInput) (u : UserInput) :
  update_last f (l ++ [u]) = (l ++ [f u])%list.
Proof.
  induction l as [|x l IH]; [reflexivity|].
  cbn [app update_last]. rewrite IH.
  destruct (l ++ [u])%list eqn:E; [destruct l; discriminate | reflexivity].
Qed.

Lemma total_firstn_succ (f : UserInput -> Z) (l : list UserInput) (n : nat) (u : UserInput) :
  nth_error l n = Some u ->
  total f (firstn (S n) l) = (total f (firstn n l) + f u)%Z.
Proof.
  revert l. induction n as [|n IH]; intros [|x l] H; try discriminate.
  - simpl in H. inversion H; subst. unfold total. simpl. lia.
  - simpl in H. specialize (IH l H).
    change (firstn (S (S n)) (x :: l)) with (x :: firstn (S n) l).
    change (firstn (S n) (x :: l)) with (x :: firstn n l).
    unfold total in *. cbn [map fold_right]. rewrite IH. lia.
Qed.

Lemma attributed_at_end (r : Runner) :
  input_num r = List.length (user_input r) ->
  attributed_output r = total output_chars (user_input r)
  /\ attributed_error r = total error_chars (user_input r).
Proof.
  intros H. unfold attributed_output, attributed_error, get_user_input, total.
  rewrite H, firstn_all. auto.
Qed.

Lemma agree_at_end (r : Runner) :
  input_num r = List.length (user_input r) ->
  (counters_agree r <->
   output_chars_printed r = total output_chars (user_input r)
   /\ error_chars_printed r = total error_chars (user_input r)).
Proof.
  intros H. destruct (attributed_at_end r H) as [A1 A2].
  unfold counters_agree, cursor_in_range. rewrite A1, A2, H. intuition lia.
Qed.

Lemma show_stdout_agree (out : list byte) (r r' : Runner) t l u :
  at_end r l u -> output_chars u = 0%Z -> counters_agree r ->
  show_stdout out r = (t, Ok tt r') ->
  counters_agree r' /\ exists u', at_end r' l u' /\ error_chars u' = error_chars u.
Proof.
  intros [Hl Hn] Hu C. unfold show_stdout. rewrite bind_get.
  destruct (Z.of_nat (List.length out) >? output_chars_printed r)%Z.
  - intros E.
    apply bind_ok in E. destruct E as (t1 & [] & r1 & t2 & E1 & E2 & _).
    apply print_decoded_ok in E1. destruct E1 as (_ & _ & ->).
    apply bind_ok in E2. destruct E2 as (t3 & [] & r3 & t4 & E3 & E4 & _).
    unfold modify in E3. inversion E3; subst; clear E3.
    apply set_last_ok in E4. destruct E4 as (_ & _ & ->).
    cbn [set_user_input set_output_chars_printed user_input input_num
         compile_error output_chars_printed error_chars_printed
         show_line_numbers].
    rewrite Hl, update_last_app.
    set (n := Z.of_nat (List.length (slice_from (output_chars_printed r) out))).
    assert (A : at_end (mkRunner (l ++ [set_output_chars n u]) (input_num r)
                   (compile_error r) (output_chars_printed r + n)
                   (error_chars_printed r) (show_line_numbers r))
                   l (set_output_chars n u)).
    { split; cbn [user_input input_num]; [reflexivity|].
      rewrite Hn, Hl, !length_app. reflexivity. }
    split; [|exists (set_output_chars n u); split; [exact A | reflexivity]].
    apply (agree_at_end _ (proj2 A)).
    apply (agree_at_end r Hn) in C. destruct C as [Ho He].
    cbn [user_input output_chars_printed error_chars_printed].
    rewrite Ho, He, Hl, !total_app. unfold total.
    cbn [map fold_right set_output_chars output_chars error_chars].
    rewrite Hu. split; lia.
  - intros H; inversion H; subst.
    split; [exact C|]. exists u. repeat split; auto.
Qed.

Lemma show_stderr_agree (err : list byte) (r r' : Runner) t l u :
  at_end r l u -> error_chars u = 0%Z -> counters_agree r ->
  show_stderr err r = (t, Ok tt r') ->
  counters_agree r'.
Proof.
  intros [Hl Hn] Hu C. unfold show_stderr. rewrite bind_get.
  destruct (Z.of_nat (List.length err) >? error_chars_printed r)%Z.
  - intros E.
    apply bind_ok in E. destruct E as (t1 & [] & r1 & t2 & E1 & E2 & _).
    apply print_decoded_ok in E1. destruct E1 as (_ & _ & ->).
    apply bind_ok in E2. destruct E2 as (t3 & [] & r3 & t4 & E3 & E4 & _).
    unfold modify in E3. inversion E3; subst; clear E3.
    apply set_last_ok in E4. destruct E4 as (_ & _ & ->).
    cbn [set_user_input set_error_chars_printed user_input input_num
         compile_error output_chars_printed error_chars_printed
         show_line_numbers].
    rewrite Hl, update_last_app.
    set (n := Z.of_nat (List.length (slice_from (error_chars_printed r) err))).
    assert (A : input_num (mkRunner (l ++ [set_error_chars n u]) (input_num r)
                   (compile_error r) (output_chars_printed r)
                   (error_chars_printed r + n) (show_line_numbers r))
                = List.length (l ++ [set_error_chars n u])).
    { cbn [input_num]. rewrite Hn, Hl, !length_app. reflexivity. }
    apply (agree_at_end _ A).
    apply (agree_at_end r Hn) in C. destruct C as [Ho He].
    cbn [user_input output_chars_printed error_chars_printed].
    rewrite Ho, He, Hl, !total_app. unfold total.
    cbn [map fold_right set_error_chars output_chars error_chars].
    rewrite Hu. split; lia.
  - intros H; inversion H; subst. exact C.
Qed.

Lemma compile_and_run_agree cp rp (r r' : Runner) t l u :
  at_end r l u -> output_chars u = 0%Z -> error_chars u = 0%Z ->
  counters_agree r ->
  compile_and_run cp rp r = (t, Ok tt r') -> counters_agree r'.
Proof.
  intros A Ho He C. rewrite compile_and_run_unfold.
  destruct (returncode cp =? 0)%Z.
  - match goal with |- context [fst ?X] => destruct X as [t0 x] eqn:E end.
    simpl. intros H; inversion H; subst; clear H.
    apply bind_ok in E. destruct E as (t1 & [] & r1 & t2 & E1 & E2 & _).
    apply (@show_stdout_agree _ _ _ _ l u) in E1; auto.
    destruct E1 as (C1 & u' & A1 & Hu').
    apply (@show_stderr_agree _ _ _ _ l u') in E2; auto. congruence.
  - intros H; inversion H; subst. exact C.
Qed.

Lemma splice_agree (lines : list string) (r r0 : Runner) :
  lines <> [] -> counters_agree r ->
  splice lines r = ([], Ok tt r0) ->
  counters_agree r0
  /\ exists l u, at_end r0 l u /\ output_chars u = 0%Z /\ error_chars u = 0%Z.
Proof.
  intros Hne (Hc & Ho & He). rewrite splice_eq.
  intros H; inversion H; subst; clear H.
  unfold cursor_in_range in Hc.
  destruct (exists_last Hne) as (ls & x & ->).
  assert (Hlen : List.length (kept r ++ map new_UserInput (ls ++ [x]))
                 = (input_num r + List.length (ls ++ [x]))%nat)
    by (rewrite length_app, length_map, kept_length by auto; reflexivity).
  set (r0 := mkRunner _ _ _ _ _ _).
  assert (A : at_end r0 (kept r ++ map new_UserInput ls) (new_UserInput x)).
  { split; unfold r0; cbn [user_input input_num].
    - rewrite map_app, app_assoc. reflexivity.
    - symmetry. exact Hlen. }
  split; [|exists (kept r ++ map new_UserInput ls)%list, (new_UserInput x); auto].
  destruct (attributed_at_end r0 (proj2 A)) as [A1 A2].
  unfold counters_agree, cursor_in_range. rewrite A1, A2.
  unfold r0. cbn [user_input input_num output_chars_printed error_chars_printed].
  rewrite !total_app.
  destruct (total_fresh (ls ++ [x])) as [-> ->].
  rewrite Ho, He. unfold attributed_output, attributed_error, get_user_input.
  rewrite <- kept_firstn by auto. unfold total.
  repeat split; try lia.
Qed.

Lemma undo_agree (r r' : Runner) t x :
  counters_agree r -> undo r = (t, Ok x r') -> counters_agree r'.
Proof.
  intros (Hc & Ho & He). unfold cursor_in_range in Hc.
  destruct (input_num r) as [|n] eqn:En.
  - rewrite undo_at_zero by auto. intros H; inversion H; subst.
    repeat split; auto. unfold cursor_in_range. lia.
  - destruct (nth_error (user_input r) n) as [u|] eqn:Eu.
    2:{ apply nth_error_None in Eu. lia. }
    rewrite (undo_at r En Eu). intros H; inversion H; subst; clear H.
    unfold counters_agree, cursor_in_range, attributed_output,
      attributed_error, get_user_input in *.
    cbn [user_input input_num output_chars_printed error_chars_printed].
    rewrite En in Ho, He.
    pose proof (total_firstn_succ output_chars _ _ Eu) as T1.
    pose proof (total_firstn_succ error_chars _ _ Eu) as T2.
    unfold total in T1, T2. repeat split; lia.
Qed.

Lemma lookup_dot_r (text d : string) :
  lookup text dot_commands = Some (d, cmd_r) -> text = ".r".
Proof.
  unfold dot_commands. cbn [lookup].
  repeat match goal with
         | |- context [String.eqb text ?k] =>
             destruct (String.eqb_spec text k); [intros H; inversion H; auto; fail|]
         end.
  discriminate.
Qed.

Lemma run_command_agree (c : command) (r r' : Runner) t fl :
  c <> cmd_r -> counters_agree r ->
  run_command c r = (t, Ok fl r') ->
  fl = (false, false) /\ counters_agree r'.
Proof.
  intros Hc C. destruct c; cbn [run_command]; try congruence.
  - rewrite dot_h_eq. intros H; inversion H; subst. auto.
  - unfold dot_c. mstep. unfold ret. cbn [fst snd].
    intros H; inversion H; subst. auto.
  - unfold dot_e. rewrite bind_get. unfold bind.
    destruct (compile_error r) as [e|]; [destruct (truthy e)|];
      unfold emit, ret; cbn [fst snd app];
      intros H; inversion H; subst; auto.
  - unfold dot_l. rewrite bind_get. unfold bind.
    match goal with |- context [if ?b then _ else _] => destruct b end;
      unfold emit, ret; cbn [fst snd app];
      intros H; inversion H; subst; auto.
  - unfold dot_L. mstep. unfold ret. cbn [fst snd].
    intros H; inversion H; subst. auto.
  - unfold dot_n. mstep. unfold ret. cbn [fst snd].
    intros H; inversion H; subst. split; [reflexivity|]. exact C.
  - unfold dot_v. mstep. unfold ret. cbn [fst snd].
    intros H; inversion H; subst. auto.
  - unfold dot_u. intros H. apply bind_ok in H.
    destruct H as (t1 & a & r1 & t2 & E1 & E2 & ->).
    apply (undo_agree C) in E1.
    apply bind_ok in E2. destruct E2 as (t3 & [] & r3 & t4 & E3 & E4 & ->).
    unfold ret in E4. inversion E4; subst.
    destruct a; unfold emit in E3; inversion E3; subst; auto.
  - unfold dot_q, raise. discriminate.
Qed.

(** As long as the user does not redo and does not submit an empty block,
    every finished turn keeps the cursor in range and both counters equal
    to what is attributed to the entries before the cursor. *)
Lemma counters_agree_without_redo
  (lines : list string) cp rp (r r' : Runner) t c :
  counters_agree r ->
  lines <> [] -> join NL lines <> ".r" ->
  turn (Some lines) cp rp r = (t, Ok c r') ->
  counters_agree r'.
Proof.
  intros C Hne Hr H.
  destruct (startswith "." (join NL lines)) eqn:Hdot.
  - cbn [turn] in H. apply bind_ok in H.
    destruct H as (t1 & fl & r1 & t2 & E1 & E2 & ->).
    assert (F : fl = (false, false) /\ counters_agree r1).
    { unfold check_input_type in E1. rewrite Hdot in E1.
      destruct (lookup (join NL lines) dot_commands) as [[d k]|] eqn:Hl.
      - apply (run_command_agree (c:=k)) in E1; auto.
        intros ->. apply lookup_dot_r in Hl. contradiction.
      - rewrite bind_emit, dot_h_eq in E1. inversion E1; subst. auto. }
    destruct F as [-> C1]. cbn [fst snd] in E2. mstep_in E2.
    unfold ret in E2. inversion E2; subst. exact C1.
  - rewrite turn_ordinary in H by exact Hdot.
    apply bind_ok in H. destruct H as (t1 & [] & r0 & t2 & E1 & E2 & ->).
    assert (t1 = []) by (rewrite splice_eq in E1; inversion E1; auto). subst t1.
    destruct (splice_agree Hne C E1) as (C0 & l & u & A & Uo & Ue).
    apply bind_ok in E2. destruct E2 as (t3 & [] & r3 & t4 & E3 & E4 & ->).
    unfold ret in E4. inversion E4; subst.
    eapply compile_and_run_agree; eauto.
Qed.
(* ================================================================== *)
(** ** Command names and surrounding white space *)
(* ================================================================== *)

Lemma lstrip_blank_prefix (w s : string) :
  all_space w = true -> lstrip (w ++ s) = lstrip s.
Proof.
  induction w as [|c w IH]; simpl; intros H; [reflexivity|].
  apply andb_true_iff in H. destruct H as [-> Hw]. auto.
Qed.

Lemma rstrip_blank_suffix (c : ascii) (w : string) :
  isspace c = false -> all_space w = true ->
  rstrip (String c w) = String c "".
Proof.
  intros Hc Hw. cbn [rstrip].
  rewrite (proj2 (rstrip_empty w) Hw), Hc. reflexivity.
Qed.

Lemma rstrip_cons (c a : ascii) (s t : string) :
  rstrip s = String a t -> rstrip (String c s) = String c (String a t).
Proof. intros H. cbn [rstrip]. rewrite H. reflexivity. Qed.

Lemma name_shape (text : string) :
  In text command_names ->
  exists c, text = String "." (String c "") /\ isspace c = false.
Proof.
  unfold command_names. simpl.
  intuition (subst; eexists; split; reflexivity).
Qed.

Lemma strip_padded_name (text w w' : string) :
  In text command_names -> all_space w = true -> all_space w' = true ->
  strip (w ++ text ++ w') = text.
Proof.
  intros Hin Hw Hw'. destruct (name_shape Hin) as (c & -> & Hc).
  unfold strip. rewrite (@lstrip_blank_prefix w _ Hw).
  cbn [append lstrip]. change (isspace ".") with false. cbv iota.
  apply rstrip_cons. apply rstrip_blank_suffix; assumption.
Qed.

Lemma padded_name_starts_with_dot (text w : string) :
  In text command_names -> startswith "." (text ++ w) = true.
Proof.
  intros Hin. destruct (name_shape Hin) as (c & -> & _). reflexivity.
Qed.

Lemma padded_name_is_no_name (text w : string) :
  In text command_names -> w <> "" -> ~ In (text ++ w) command_names.
Proof.
  intros Hin Hw Hin'. destruct (name_shape Hin) as (c & -> & _).
  destruct (name_shape Hin') as (c' & E & _).
  cbn [append] in E. inversion E. contradiction.
Qed.

Lemma blank_prefix_no_dot (w s : string) :
  w <> "" -> all_space w = true -> startswith "." (w ++ s) = false.
Proof.
  destruct w as [|c w]; [congruence|]. intros _ H. simpl in H.
  apply andb_true_iff in H. destruct H as [Hc _].
  unfold startswith. cbn [append String.prefix].
  destruct (ascii_dec "." c) as [<-|Hne]; [discriminate Hc | reflexivity].
Qed.

(* ================================================================== *)
(** ** Compile failure and success *)
(* ================================================================== *)

(** C5.  A compile that exits with a non-zero status stores the captured
    diagnostics, or the fixed placeholder when there are none, as the
    compile error; it prints the banner and does not start the binary; and
    it leaves the entries, the cursor and both counters as they were.  A
    compile that exits with status zero clears the compile error before the
    binary is run. *)
Theorem compile_failure_keeps_session
  (r : Runner) (cp : compile_process) (rp : run_process) :
  (returncode cp <> 0%Z ->
   exists r',
     compile_and_run cp rp r
       = ([Compile (get_full_source r); Print BANNER], Ok tt r')
     /\ compile_error r'
        = Some (if String.eqb (diagnostics cp) EmptyString
                then UNKNOWN_COMPILE_ERROR else diagnostics cp)
     /\ user_input r' = user_input r
     /\ input_num r' = input_num r
     /\ output_chars_printed r' = output_chars_printed r
     /\ error_chars_printed r' = error_chars_printed r)
  /\
  (returncode cp = 0%Z ->
   compile_and_run cp rp r
     = (Compile (get_full_source r) :: Execute
          :: fst ((show_stdout (stdout rp) ;; show_stderr (stderr rp))
                    (set_compile_error None r)),
        snd ((show_stdout (stdout rp) ;; show_stderr (stderr rp))
               (set_compile_error None r)))
   /\ forall t r', compile_and_run cp rp r = (t, Ok tt r') ->
                   compile_error r' = None).
Proof.
  rewrite compile_and_run_unfold.
  split; intros H.
  - apply Z.eqb_neq in H. rewrite H.
    eexists; split; [reflexivity|]. repeat split.
  - rewrite H. cbn [Z.eqb]. split; [reflexivity|].
    intros t r' E. inversion E as [[Et Es]]; clear E.
    match type of Es with context [snd ?X] => destruct X as [t0 x] eqn:E0 end.
    simpl in Es. subst x.
    apply run_part_frame in E0. destruct E0 as (_ & _ & F). exact F.
Qed.

(* ================================================================== *)
(** ** Append after undo *)
(* ================================================================== *)

(** C6.  With the cursor before the end of the history, an ordinary input
    keeps exactly the entries before the cursor, appends the new entries
    and puts the cursor at the new length; a redo right after it returns
    nothing, for the history operation and for the [.r] command that
    follows the finished turn. *)
Theorem append_discards_redo_tail
  (r : Runner) (lines : list string) (cp : compile_process) (rp : run_process)
  (H : (input_num r < List.length (user_input r))%nat) :
  (exists r1,
     splice lines r = ([], Ok tt r1)
     /\ user_input r1
        = (firstn (input_num r) (user_input r) ++ map new_UserInput lines)%list
     /\ input_num r1 = (input_num r + List.length lines)%nat
     /\ input_num r1 = List.length (user_input r1)
     /\ redo r1 = ([], Ok None r1))
  /\
  (startswith "." (join NL lines) = false ->
   forall t r2, turn (Some lines) cp rp r = (t, Ok Continue r2) ->
     input_num r2 = List.length (user_input r2)
     /\ input_num r2 = (input_num r + List.length lines)%nat
     /\ forall cp' rp',
          turn (Some [".r"]) cp' rp' r2
          = ([Print "[black on white]Nothing to redo"], Ok Continue r2)).
Proof.
  assert (Hlen : List.length (kept r ++ map new_UserInput lines)
                 = (input_num r + List.length lines)%nat).
  { rewrite length_app, length_map, kept_length by lia. reflexivity. }
  split.
  - eexists. split; [apply splice_eq|].
    cbn [user_input input_num]. rewrite Hlen.
    rewrite kept_firstn by lia. repeat split.
    apply redo_at_end. cbn [user_input input_num].
    rewrite <- (kept_firstn r) by lia. rewrite Hlen. lia.
  - intros Hord t r2 Hturn.
    rewrite turn_ordinary in Hturn by exact Hord.
    erewrite bind_step in Hturn by apply splice_eq.
    apply bind_ok in Hturn.
    destruct Hturn as (t1 & [] & r1 & t2 & E1 & E2 & ->).
    unfold ret in E2. inversion E2; subst; clear E2.
    apply compile_and_run_shape in E1. destruct E1 as (F1 & F2 & _).
    cbn [user_input input_num] in F1, F2. rewrite Hlen in F2.
    assert (G : input_num r2 = List.length (user_input r2)) by lia.
    repeat split; auto.
    intros cp' rp'. apply turn_dot_r_nothing. lia.
Qed.

(* ================================================================== *)
(** ** Append then undo *)
(* ================================================================== *)

(** C7.  From any state whose cursor lies within the history, appending a
    batch of [k] lines and then calling undo [k] times, with no run in
    between, gives back the lines last to first and leaves the cursor and
    both counters at their values from before the append. *)
Theorem append_then_undo_restores
  (r : Runner) (lines : list string) (H : cursor_in_range r) :
  exists r',
    (splice lines ;; undo_times (List.length lines)) r
      = ([], Ok (map Some (rev lines)) r')
    /\ input_num r' = input_num r
    /\ output_chars_printed r' = output_chars_printed r
    /\ error_chars_printed r' = error_chars_printed r.
Proof.
  unfold cursor_in_range in H.
  erewrite bind_step by apply splice_eq.
  pose proof (undo_times_fresh lines (kept r) [] (compile_error r)
                (output_chars_printed r) (error_chars_printed r)
                (show_line_numbers r)) as P.
  rewrite app_nil_r, (kept_length r H) in P. rewrite P.
  eexists. split; [reflexivity|]. repeat split.
Qed.

(* ================================================================== *)
(** ** Dispatch of dot commands *)
(* ================================================================== *)

(** C9, as the code has it.  The text handed to [check_input_type] is
    compared as it stands, with no white space taken off: it runs a command
    exactly when it is, as a whole, one of the command names.  Any other
    text that starts with a dot prints the unknown-command message and the
    help listing, answers (not history, not recompile), and the turn leaves
    the session as it was: nothing is appended and no compile is started.
    A text that does not start with a dot is ordinary input.  So a command
    name followed by white space is an unknown command, and a command name
    after white space is ordinary input, although trimming either gives
    the name back. *)
Theorem dot_command_dispatch (text : string) (r : Runner) :
  ((exists v, lookup text dot_commands = Some v) <-> In text command_names)
  /\ (forall d c, lookup text dot_commands = Some (d, c) ->
        check_input_type text r = run_command c r)
  /\ (startswith "." text = true -> ~ In text command_names ->
        check_input_type text r
        = (Print ("[white on red]Unknown command `" ++ text
                  ++ "`. Available commands:") :: map Print help_listing,
           Ok (false, false) r)
        /\ forall lines cp rp, join NL lines = text ->
             turn (Some lines) cp rp r
             = (Print ("[white on red]Unknown command `" ++ text
                       ++ "`. Available commands:") :: map Print help_listing,
                Ok Continue r))
  /\ (startswith "." text = false ->
        ~ In text command_names
        /\ check_input_type text r = ([], Ok (true, true) r))
  /\ (In text command_names ->
      forall w, w <> "" -> all_space w = true ->
        strip (text ++ w) = text
        /\ strip (w ++ text) = text
        /\ ~ In (text ++ w) command_names
        /\ ~ In (w ++ text) command_names
        /\ check_input_type (text ++ w) r
           = (Print ("[white on red]Unknown command `" ++ (text ++ w)
                     ++ "`. Available commands:") :: map Print help_listing,
              Ok (false, false) r)
        /\ check_input_type (w ++ text) r = ([], Ok (true, true) r)).
Proof.
  split; [apply lookup_names|]. split; [|split; [|split]].
  - intros d c Hl. unfold check_input_type.
    rewrite names_start_with_dot by (apply lookup_names; eauto).
    rewrite Hl. reflexivity.
  - intros Hdot Hnot.
    assert (Hl : lookup text dot_commands = None).
    { destruct (lookup text dot_commands) eqn:E; auto.
      exfalso. apply Hnot, lookup_names. eauto. }
    pose proof (check_input_type_unknown text r Hdot Hl) as E.
    split; [exact E|].
    intros lines cp rp <-. unfold turn. unfold bind at 1. rewrite E.
    cbn [fst snd]. mstep. unfold ret. cbn [fst snd].
    rewrite app_nil_r. reflexivity.
  - intros Hdot. split.
    + intros Hin. apply names_start_with_dot in Hin. congruence.
    + unfold check_input_type. rewrite Hdot. reflexivity.
  - intros Hin w Hw Hs.
    pose proof (@padded_name_is_no_name text w Hin Hw) as Hno.
    pose proof (@blank_prefix_no_dot w text Hw Hs) as Hdot.
    split.
    { rewrite <- (@strip_padded_name text "" w Hin eq_refl Hs) at 2.
      reflexivity. }
    split.
    { rewrite <- (@strip_padded_name text w "" Hin Hs eq_refl) at 2.
      rewrite append_empty_r. reflexivity. }
    split; [exact Hno|]. split.
    { intros Hin'. apply names_start_with_dot in Hin'. congruence. }
    split.
    + apply check_input_type_unknown.
      * apply padded_name_starts_with_dot; exact Hin.
      * destruct (lookup (text ++ w) dot_commands) eqn:E; auto.
        exfalso. apply Hno, lookup_names. eauto.
    + unfold check_input_type. rewrite Hdot. reflexivity.
Qed.

(** C9, counterexample: trimming [.h  ] and [  .h] gives the command name
    [.h], yet neither text runs the help command.  The first is answered
    as an unknown command; the second is ordinary input, stored as an
    entry and handed to the compiler inside [main]. *)
Lemma padded_command_name_is_no_command :
  strip ".h  " = ".h" /\ strip "  .h" = ".h"
  /\ In ".h" command_names
  /\ check_input_type ".h" init = (map Print help_listing, Ok (false, false) init)
  /\ check_input_type ".h  " init
     = (Print "[white on red]Unknown command `.h  `. Available commands:"
          :: map Print help_listing, Ok (false, false) init)
  /\ check_input_type "  .h" init = ([], Ok (true, true) init)
  /\ exists t r,
       turn (Some ["  .h"]) rejected (prints "") init
         = (Compile (get_full_source r) :: t, Ok Continue r)
       /\ map inp (get_user_input r) = ["  .h"]
       /\ lines_of (get_full_source r)
          = [BOILERPLATE; ""; "int main(void) {"; "      .h";
             "    return 0;"; "}"].
Proof.
  split; [reflexivity|]. split; [reflexivity|].
  split; [simpl; auto|].
  split; [vm_compute; reflexivity|]. split; [vm_compute; reflexivity|].
  split; [vm_compute; reflexivity|].
  exists [Print ("[white on red] Compile error - type .e to see it" ++ NL)],
         (set_compile_error (stderr_data rejected) (stored ["  .h"])).
  split; [vm_compute; reflexivity|].
  vm_compute. repeat split.
Qed.

(* ================================================================== *)
(** ** The stored compile error *)
(* ================================================================== *)

(** C10.  Neither undo nor redo changes the stored compile error, and a
    finished turn that did not start the compiler leaves it as it was.  So
    after a failed compile of an appended batch, undoing its last line
    keeps the error, and [.e] still prints it although the line is no
    longer before the cursor. *)
Theorem compile_error_outlives_undo :
  (forall r t x r', undo r = (t, Ok x r') -> compile_error r' = compile_error r)
  /\ (forall r t x r', redo r = (t, Ok x r') -> compile_error r' = compile_error r)
  /\ (forall typed cp rp r t c r',
        turn typed cp rp r = (t, Ok c r') ->
        (forall src, ~ In (Compile src) t) ->
        compile_error r' = compile_error r)
  /\ (forall r lines cp rp,
        cursor_in_range r -> lines <> [] ->
        startswith "." (join NL lines) = false ->
        returncode cp <> 0%Z ->
        exists t1 r1 t2 r2 diag,
          turn (Some lines) cp rp r = (t1, Ok Continue r1)
          /\ compile_error r1 = Some diag
          /\ (forall cp' rp',
                turn (Some [".u"]) cp' rp' r1 = (t2, Ok Continue r2))
          /\ S (input_num r2) = input_num r1
          /\ (forall cp' rp',
                turn (Some [".e"]) cp' rp' r2 = ([Print diag], Ok Continue r2))).
Proof.
  split; [|split; [|split]].
  - intros r t x r' H. apply undo_frame in H. tauto.
  - intros r t x r' H. apply redo_frame in H. tauto.
  - intros typed cp rp r t c r' H Hno.
    apply turn_compile_or_keep in H. destruct H as [[src Hin]|H]; auto.
    exfalso. eapply Hno; eauto.
  - intros r lines cp rp Hwf Hne Hord Hfail.
    unfold cursor_in_range in Hwf.
    destruct (exists_last Hne) as (ls & x & ->).
    set (diag := if String.eqb (diagnostics cp) EmptyString
                 then UNKNOWN_COMPILE_ERROR else diagnostics cp).
    assert (Hdiag : truthy diag = true).
    { unfold diag, truthy.
      destruct (String.eqb (diagnostics cp) EmptyString) eqn:E;
        [reflexivity | rewrite E; reflexivity]. }
    set (r0 := mkRunner (kept r ++ map new_UserInput (ls ++ [x]))
                        (input_num r + List.length (ls ++ [x]))
                        (compile_error r) (output_chars_printed r)
                        (error_chars_printed r) (show_line_numbers r)).
    set (r1 := set_compile_error (Some diag) r0).
    assert (Hn : input_num r1 = S (input_num r + List.length ls)).
    { unfold r1, r0. cbn [input_num set_compile_error].
      rewrite length_app. simpl. lia. }
    assert (Hu : nth_error (user_input r1) (input_num r + List.length ls)
                 = Some (new_UserInput x)).
    { unfold r1, r0. cbn [user_input set_compile_error].
      rewrite map_app, app_assoc. cbn [map].
      rewrite nth_error_app2
        by (rewrite length_app, length_map, kept_length; auto).
      rewrite length_app, length_map, kept_length, Nat.sub_diag by auto.
      reflexivity. }
    exists [Compile (get_full_source r0); Print BANNER], r1.
    eexists. eexists. exists diag.
    split; [|split; [|split; [|split]]].
    + rewrite turn_ordinary by exact Hord.
      erewrite bind_step by apply splice_eq. fold r0.
      unfold bind. rewrite compile_and_run_unfold.
      apply Z.eqb_neq in Hfail. rewrite Hfail. reflexivity.
    + reflexivity.
    + intros cp' rp'. apply (turn_dot_u_some cp' rp' r1 Hn Hu).
    + cbn [input_num]. symmetry. exact Hn.
    + intros cp' rp'. apply turn_dot_e_error; [reflexivity | exact Hdiag].
Qed.

(* ================================================================== *)
(** ** Classification *)
(* ================================================================== *)

Lemma section_strings (r : Runner) :
  get_user_includes_string r = join NL (section_lines Directive r)
  /\ get_user_functions_string r = join NL (section_lines FunctionDefinition r)
  /\ get_user_commands_string r = join NL (section_lines Statement r).
Proof. repeat split. Qed.

(** C3, on the code.  The line [using f() {] matches the directive pattern
    and the function pattern, so the entry made for it carries both flags
    and has two roles.  Typed into a fresh session it is stored once, and
    the program handed to the compiler holds it twice: once in the
    directive section and once in the function section, above [main],
    while the body of [main] holds no statement. *)
Theorem using_line_rendered_twice :
  matches PREAMBLE_RE "using f() {" = true
  /\ matches FUNC_DEF_RE "using f() {" = true
  /\ roles (new_UserInput "using f() {") = [Directive; FunctionDefinition]
  /\ exists t r,
       turn (Some ["using f() {"]) rejected (prints "") init
         = (Compile (get_full_source r) :: t, Ok Continue r)
       /\ map inp (get_user_input r) = ["using f() {"]
       /\ section_lines Directive r = ["using f() {"]
       /\ section_lines FunctionDefinition r = ["using f() {"]
       /\ section_lines Statement r = []
       /\ lines_of (get_full_source r)
          = [BOILERPLATE; ""; "using f() {"; ""; "using f() {"; "";
             "int main(void) {"; "    "; "    return 0;"; "}"].
Proof.
  split; [vm_compute; reflexivity|]. split; [vm_compute; reflexivity|].
  split; [vm_compute; reflexivity|].
  exists [Print ("[white on red] Compile error - type .e to see it" ++ NL)],
         (set_compile_error (stderr_data rejected) (stored ["using f() {"])).
  split; [vm_compute; reflexivity|].
  vm_compute. repeat split.
Qed.

Lemma star_ws_lang (s : string) : all_space s = true -> lang (Star ws) s.
Proof.
  induction s as [|c s IH]; simpl; intros H.
  - constructor.
  - apply andb_true_iff in H. destruct H as [Hc Hs].
    apply (@LStarS ws (String c "") s); [constructor; exact Hc | auto].
Qed.

Lemma lit_lang (s : string) : lang (Lit s) s.
Proof.
  induction s as [|c s IH]; simpl; [constructor|].
  apply (@LCat (Chr c) (Lit s) (String c "") s); auto.
  constructor. apply Ascii.eqb_refl.
Qed.

Lemma lit_inv (s w : string) : lang (Lit s) w -> w = s.
Proof.
  revert w. induction s as [|c s IH]; simpl; intros w H.
  - inversion H; auto.
  - inversion H; subst.
    match goal with X : lang (Chr c) _ |- _ => inversion X; subst end.
    match goal with X : Ascii.eqb _ _ = true |- _ => apply Ascii.eqb_eq in X; subst end.
    simpl. f_equal. auto.
Qed.

Lemma star_ws_inv (w : string) : lang (Star ws) w -> all_space w = true.
Proof.
  intros H. remember (Star ws) as q eqn:Eq.
  induction H as [| | | | | |r0 a b Ha IHa Hb IHb]; try discriminate; auto.
  inversion Eq; subst. inversion Ha; subst. simpl.
  rewrite IHb by auto. rewrite andb_true_r. assumption.
Qed.

Lemma lstrip_space_prefix (a s : string) :
  all_space a = true -> lstrip (a ++ s) = lstrip s.
Proof.
  induction a as [|c a IH]; simpl; auto.
  intros H. apply andb_true_iff in H. destruct H as [-> Ha]. auto.
Qed.

(** A line that starts, after white space, with [#], white space and
    [include] is a directive. *)
Lemma include_line_is_directive (a b rest : string) :
  all_space a = true -> all_space b = true ->
  is_include (new_UserInput (a ++ "#" ++ b ++ "include" ++ rest)) = true.
Proof.
  intros Ha Hb. cbn [is_include new_UserInput]. apply matches_spec.
  exists (a ++ "#" ++ b ++ "include"), rest. split.
  - rewrite !append_assoc. reflexivity.
  - apply LAltL. unfold Seq.
    apply LCat; [apply star_ws_lang; exact Ha|].
    rewrite <- (append_empty_r ("#" ++ b ++ "include")).
    apply LCat; [|constructor].
    apply (@LCat (Chr "#") _ "#" (b ++ "include")); [constructor; reflexivity|].
    apply LCat; [apply star_ws_lang; exact Hb|].
    rewrite <- (append_empty_r "include").
    apply LCat; [apply (lit_lang "include") | constructor].
Qed.

(** A line that starts in its first column with [using] and a white-space
    character is a directive. *)
Lemma using_line_is_directive (c : ascii) (rest : string) :
  isspace c = true ->
  is_include (new_UserInput ("using" ++ String c rest)) = true.
Proof.
  intros Hc. cbn [is_include new_UserInput]. apply matches_spec.
  exists ("using" ++ String c ""), rest. split; [reflexivity|].
  apply LAltR. unfold Seq.
  apply (@LCat (Lit "using") _ "using" (String c "")); [apply (lit_lang "using")|].
  rewrite <- (append_empty_r (String c "")).
  apply LCat; [constructor; exact Hc | constructor].
Qed.

(** With white space in front of it, [using] is never taken for a
    directive. *)
Lemma indented_using_is_no_directive (a rest : string) :
  all_space a = true -> a <> "" ->
  is_include (new_UserInput (a ++ "using" ++ rest)) = false.
Proof.
  intros Ha Hne. cbn [is_include new_UserInput].
  destruct (matches PREAMBLE_RE (a ++ "using" ++ rest)) eqn:E; [|reflexivity].
  exfalso. apply matches_spec in E. destruct E as (p & q & Epq & Hp).
  inversion Hp as [| | |r1 r2 s H1| r1 r2 s H2| |]; subst.
  - unfold Seq in H1.
    inversion H1 as [| |r1 r2 s1 s2 Hs1 Hs2| | | |]; subst.
    inversion Hs2 as [| |r1 r2 s3 s4 Hs3 Hs4| | | |]; subst.
    inversion Hs3 as [| |r1 r2 s5 s6 Hs5 Hs6| | | |]; subst.
    inversion Hs5; subst.
    apply star_ws_inv in Hs1.
    apply (f_equal lstrip) in Epq.
    rewrite (lstrip_space_prefix a _ Ha) in Epq.
    rewrite !append_assoc in Epq.
    rewrite (lstrip_space_prefix s1 _ Hs1) in Epq.
    match goal with X : Ascii.eqb _ _ = true |- _ => apply Ascii.eqb_eq in X; subst end.
    simpl in Epq. discriminate.
  - unfold Seq in H2.
    inversion H2 as [| |r1 r2 s1 s2 Hs1 Hs2| | | |]; subst.
    apply (lit_inv "using") in Hs1. subst s1.
    destruct a as [|c a]; [congruence|].
    simpl in Ha, Epq. inversion Epq; subst. discriminate.
Qed.

(** C4, on the code: a [using] declaration typed after two blanks does not
    match [PREAMBLE_RE]; the line is stored as a statement and rendered
    inside [main]. *)
Theorem indented_using_is_a_statement :
  matches PREAMBLE_RE "  using namespace std;" = false
  /\ roles (new_UserInput "  using namespace std;") = [Statement]
  /\ roles (new_UserInput "using namespace std;") = [Directive]
  /\ exists r, splice ["  using namespace std;"] init = ([], Ok tt r)
     /\ get_full_source r
        = BOILERPLATE ++ NL ++ NL ++ "int main(void) {" ++ NL
          ++ "      using namespace std;" ++ NL
          ++ "    return 0;" ++ NL ++ "}".
Proof.
  split; [vm_compute; reflexivity|].
  split; [vm_compute; reflexivity|].
  split; [vm_compute; reflexivity|].
  eexists. split; vm_compute; reflexivity.
Qed.

(* ================================================================== *)
(** ** The assembled program *)
(* ================================================================== *)

Lemma section_lines_shown (ro : Role) (l1 l2 : list UserInput) :
  map shown l1 = map shown l2 ->
  map inp (filter (has_role ro) l1) = map inp (filter (has_role ro) l2).
Proof.
  revert l2. induction l1 as [|a l1 IH]; intros [|b l2] H; try discriminate.
  - reflexivity.
  - cbn [map] in H. inversion H as [[Hi Hc Hf Ht]].
    assert (E : has_role ro a = has_role ro b)
      by (destruct ro; unfold has_role; rewrite ?Hc, ?Hf; reflexivity).
    cbn [filter]. rewrite E. destruct (has_role ro b); cbn [map];
      rewrite (IH l2 Ht); congruence.
Qed.

Lemma single_lines_joined (ls : list string) :
  Forall (fun l => single_line l = true) ls ->
  filter nonblank (lines_of (join NL ls)) = filter nonblank ls
  /\ filter nonblank (splitlines (join NL ls ++ NL)) = filter nonblank ls.
Proof.
  intros H. destruct ls as [|x xs]; [split; reflexivity|].
  unfold lines_of. rewrite split_join, splitlines_join; auto; try discriminate.
  eapply Forall_impl; [|exact H]. intros l. apply single_line_no_newline.
Qed.

Lemma section_single_lines (ro : Role) (r : Runner) :
  Forall (fun a => single_line (inp a) = true) (get_user_input r) ->
  Forall (fun l => single_line l = true) (section_lines ro r).
Proof.
  intros H. unfold section_lines. apply Forall_forall. intros l Hl.
  apply in_map_iff in Hl. destruct Hl as (a & <- & Ha).
  apply filter_In in Ha. destruct Ha as [Ha _].
  rewrite Forall_forall in H. auto.
Qed.

(** C8.  The assembled program is determined by the text and the two flags
    of the entries before the cursor.  Its first line is the boilerplate
    inclusion; no two neighbouring lines of it are both blank; and, the
    entries being single lines, its non-blank lines are, in this order:
    the boilerplate line, the non-blank directive lines, the non-blank
    function lines, the header of [main], the non-blank statement lines
    each after four blanks, the return and the closing brace, every group
    in the order of submission. *)
Theorem assembled_program_structure (r : Runner) :
  (forall r', map shown (get_user_input r') = map shown (get_user_input r) ->
              get_full_source r' = get_full_source r)
  /\ (exists rest, lines_of (get_full_source r) = BOILERPLATE :: rest)
  /\ no_double_blank (lines_of (get_full_source r)) = true
  /\ (Forall (fun a => single_line (inp a) = true) (get_user_input r) ->
      filter nonblank (lines_of (get_full_source r))
      = ([BOILERPLATE]
         ++ filter nonblank (section_lines Directive r)
         ++ filter nonblank (section_lines FunctionDefinition r)
         ++ ["int main(void) {"]
         ++ map (append "    ") (filter nonblank (section_lines Statement r))
         ++ ["    return 0;"; "}"])%list).
Proof.
  split; [|split; [|split]].
  - intros r' H. unfold get_full_source.
    destruct (section_strings r) as (-> & -> & ->).
    destruct (section_strings r') as (-> & -> & ->).
    unfold section_lines.
    rewrite (section_lines_shown Directive _ _ H).
    rewrite (section_lines_shown FunctionDefinition _ _ H).
    rewrite (section_lines_shown Statement _ _ H). reflexivity.
  - unfold get_full_source. rewrite lines_of_clean, render_shape.
    rewrite split_app_nl.
    change (split nl BOILERPLATE) with [BOILERPLATE].
    cbn [app clean_lines].
    change (is_blank BOILERPLATE) with false. cbn [andb].
    eexists. reflexivity.
  - unfold get_full_source. rewrite lines_of_clean.
    apply clean_lines_no_double.
  - intros H. unfold get_full_source.
    rewrite lines_of_clean, clean_lines_nonblank.
    fold (lines_of (SOURCE_CODE_TEMPLATE (get_user_includes_string r)
                           (get_user_functions_string r)
                           (get_user_commands_string r))).
    rewrite render_lines.
    destruct (section_strings r) as (-> & -> & ->).
    destruct (single_lines_joined (section_single_lines Directive r H)) as [-> _].
    destruct (single_lines_joined (section_single_lines FunctionDefinition r H))
      as [-> _].
    destruct (single_lines_joined (section_single_lines Statement r H)) as [_ ->].
    reflexivity.
Qed.

(* ================================================================== *)
(** ** The output counters *)
(* ================================================================== *)

(** C1, on the code.  After [undo_redo_session] both lines are before the
    cursor, five characters have been shown, and ten are attributed to the
    two lines: the first redo wrote its five characters into the last entry
    of the list, which was still beyond the cursor.  Two more undos then
    take the counter to minus five. *)
Theorem counters_drift_after_redo :
  exists r,
    state_after undo_redo_session = Some r
    /\ input_num r = 2%nat
    /\ map output_chars (user_input r) = [5; 5]%Z
    /\ output_chars_printed r = 5%Z
    /\ attributed_output r = 10%Z
    /\ exists r',
         state_after (undo_redo_session ++ [types [".u"] ""; types [".u"] ""])
           = Some r'
         /\ input_num r' = 0%nat
         /\ attributed_output r' = 0%Z
         /\ output_chars_printed r' = (-5)%Z.
Proof.
  eexists. split; [vm_compute; reflexivity|].
  repeat split. eexists. split; [vm_compute; reflexivity|].
  repeat split.
Qed.

(** C2, on the code.  After [block_undone_session] the cursor is at zero
    with two entries beyond it, the second holding seven.  The run started
    by [.r] with the cursor at one shows five new characters and adds five
    to the counter, but writes the five into the entry at index one, the
    last of the list; the entry at index zero, which is the one before the
    cursor, keeps zero. *)
Theorem redo_attributes_to_last_entry :
  exists r0 r1 t,
    state_after block_undone_session = Some r0
    /\ input_num r0 = 0%nat
    /\ map output_chars (user_input r0) = [0; 7]%Z
    /\ output_chars_printed r0 = 0%Z
    /\ turn (Some [".r"]) compiled (prints "12345") r0 = (t, Ok Continue r1)
    /\ In Execute t
    /\ input_num r1 = 1%nat
    /\ output_chars_printed r1 = 5%Z
    /\ option_map output_chars (nth_error (user_input r1) (input_num r1 - 1))
       = Some 0%Z
    /\ map output_chars (user_input r1) = [0; 5]%Z.
Proof.
  eexists. eexists. eexists.
  split; [vm_compute; reflexivity|].
  split; [reflexivity|]. split; [reflexivity|]. split; [reflexivity|].
  split; [vm_compute; reflexivity|].
  split; [simpl; tauto|]. repeat split.
Qed.

(* ================================================================== *)
(** ** The properties at concrete sessions *)
(* ================================================================== *)

(** C5 at a rejected and at an accepted compile of one stored line. *)
Lemma compile_failure_keeps_session_witness :
  (returncode rejected <> 0%Z
   /\ exists r',
        compile_and_run rejected (prints "12345") (stored [line_A])
          = ([Compile (get_full_source (stored [line_A])); Print BANNER], Ok tt r')
        /\ compile_error r' = Some "<stdin>:4:13: error: expected expression"
        /\ user_input r' = user_input (stored [line_A])
        /\ input_num r' = 1%nat
        /\ output_chars_printed r' = 0%Z
        /\ error_chars_printed r' = 0%Z)
  /\ (returncode compiled = 0%Z
      /\ forall t r', compile_and_run compiled (prints "12345") (stored [line_A])
                        = (t, Ok tt r') -> compile_error r' = None).
Proof.
  assert (H1 : returncode rejected <> 0%Z) by discriminate.
  assert (H2 : returncode compiled = 0%Z) by reflexivity.
  split; split; [exact H1 | | exact H2 |].
  - exact (proj1 (compile_failure_keeps_session (stored [line_A]) rejected
                    (prints "12345")) H1).
  - exact (proj2 (proj2 (compile_failure_keeps_session (stored [line_A]) compiled
                           (prints "12345")) H2)).
Defined.

(** C6 at two stored lines with the second undone. *)
Lemma append_discards_redo_tail_witness :
  (input_num second_undone < List.length (user_input second_undone))%nat
  /\ exists r1,
       splice ["int y = 1;"] second_undone = ([], Ok tt r1)
       /\ user_input r1 = map new_UserInput [line_A; "int y = 1;"]
       /\ input_num r1 = 2%nat
       /\ input_num r1 = List.length (user_input r1)
       /\ redo r1 = ([], Ok None r1).
Proof.
  assert (H : (input_num second_undone < List.length (user_input second_undone))%nat)
    by (simpl; lia).
  split; [exact H|].
  exact (proj1 (@append_discards_redo_tail second_undone ["int y = 1;"]
                  compiled (prints "") H)).
Defined.

(** C7 at two stored lines with the second undone and a block of two. *)
Lemma append_then_undo_restores_witness :
  cursor_in_range second_undone
  /\ exists r',
       (splice ["int y = 1;"; "int z = 2;"] ;; undo_times 2) second_undone
         = ([], Ok [Some "int z = 2;"; Some "int y = 1;"] r')
       /\ input_num r' = 1%nat
       /\ output_chars_printed r' = 0%Z
       /\ error_chars_printed r' = 0%Z.
Proof.
  assert (H : cursor_in_range second_undone)
    by (unfold cursor_in_range; simpl; lia).
  split; [exact H|].
  exact (@append_then_undo_restores second_undone ["int y = 1;"; "int z = 2;"] H).
Defined.

(** C8 at a statement, a directive and a function, stored in this order. *)
Lemma assembled_program_structure_witness :
  Forall (fun a => single_line (inp a) = true) (get_user_input (stored mixed_lines))
  /\ filter nonblank (lines_of (get_full_source (stored mixed_lines)))
     = [ BOILERPLATE; "#include <string>"; "int twice(int n) { return 2 * n; }";
         "int main(void) {"; "    int x = 5;"; "    return 0;"; "}" ].
Proof.
  assert (H : Forall (fun a => single_line (inp a) = true)
                     (get_user_input (stored mixed_lines)))
    by (repeat constructor).
  split; [exact H|].
  exact (proj2 (proj2 (proj2 (assembled_program_structure (stored mixed_lines)))) H).
Defined.

(** C9 at the unknown text [.x] and at the name [.q] next to a blank. *)
Lemma dot_command_dispatch_witness :
  (startswith "." ".x" = true
   /\ ~ In ".x" command_names
   /\ check_input_type ".x" init
      = (Print "[white on red]Unknown command `.x`. Available commands:"
           :: map Print help_listing, Ok (false, false) init)
   /\ turn (Some [".x"]) compiled (prints "12345") init
      = (Print "[white on red]Unknown command `.x`. Available commands:"
           :: map Print help_listing, Ok Continue init))
  /\ (In ".q" command_names /\ " " <> "" /\ all_space " " = true
      /\ strip (".q" ++ " ") = ".q"
      /\ strip (" " ++ ".q") = ".q"
      /\ ~ In (".q" ++ " ") command_names
      /\ ~ In (" " ++ ".q") command_names
      /\ check_input_type (".q" ++ " ") init
         = (Print ("[white on red]Unknown command `" ++ (".q" ++ " ")
                   ++ "`. Available commands:") :: map Print help_listing,
            Ok (false, false) init)
      /\ check_input_type (" " ++ ".q") init = ([], Ok (true, true) init)).
Proof.
  assert (H1 : startswith "." ".x" = true) by reflexivity.
  assert (H2 : ~ In ".x" command_names)
    by (intros H; simpl in H; intuition discriminate).
  assert (Q1 : In ".q" command_names) by (simpl; tauto).
  assert (Q2 : " " <> "") by discriminate.
  assert (Q3 : all_space " " = true) by reflexivity.
  split.
  - split; [exact H1|]. split; [exact H2|].
    destruct (proj1 (proj2 (proj2 (dot_command_dispatch ".x" init))) H1 H2)
      as [E1 E2].
    split; [exact E1|].
    exact (E2 [".x"] compiled (prints "12345") eq_refl).
  - split; [exact Q1|]. split; [exact Q2|]. split; [exact Q3|].
    exact (proj2 (proj2 (proj2 (proj2 (dot_command_dispatch ".q" init))))
             Q1 " " Q2 Q3).
Defined.

(** C10 at a rejected line typed into a fresh session. *)
Lemma compile_error_outlives_undo_witness :
  cursor_in_range init
  /\ ["int x = ;"] <> []
  /\ startswith "." (join NL ["int x = ;"]) = false
  /\ returncode rejected <> 0%Z
  /\ exists t1 r1 t2 r2 diag,
       turn (Some ["int x = ;"]) rejected (prints "") init = (t1, Ok Continue r1)
       /\ compile_error r1 = Some diag
       /\ (forall cp' rp', turn (Some [".u"]) cp' rp' r1 = (t2, Ok Continue r2))
       /\ S (input_num r2) = input_num r1
       /\ (forall cp' rp',
             turn (Some [".e"]) cp' rp' r2 = ([Print diag], Ok Continue r2)).
Proof.
  assert (H1 : cursor_in_range init) by (unfold cursor_in_range; simpl; lia).
  assert (H2 : ["int x = ;"] <> []) by discriminate.
  assert (H3 : startswith "." (join NL ["int x = ;"]) = false) by reflexivity.
  assert (H4 : returncode rejected <> 0%Z) by discriminate.
  split; [exact H1|]. split; [exact H2|]. split; [exact H3|].
  split; [exact H4|].
  exact (proj2 (proj2 (proj2 compile_error_outlives_undo))
           init ["int x = ;"] rejected (prints "") H1 H2 H3 H4).
Defined.

(* ================================================================== *)
(** ** More on the two patterns *)
(* ================================================================== *)

Lemma contains_app (c : ascii) (a b : string) :
  contains c (a ++ b) = contains c a || contains c b.
Proof.
  induction a as [|x a IH]; simpl; auto. rewrite IH, orb_assoc. reflexivity.
Qed.

Lemma lang_seq (rs : list regex) (ws : list string) :
  Forall2 lang rs ws -> lang (Seq rs) (cat_all ws).
Proof.
  induction 1 as [|r w rs ws Hr _ IH]; simpl; [constructor|].
  apply LCat; assumption.
Qed.

Lemma seq_inv (rs : list regex) (w : string) :
  lang (Seq rs) w -> exists ws, Forall2 lang rs ws /\ w = cat_all ws.
Proof.
  revert w. induction rs as [|r rs IH]; intros w H; simpl in H.
  - inversion H; subst. exists []. split; [constructor | reflexivity].
  - inversion H as [| |r1 r2 s1 s2 H1 H2| | | |]; subst.
    destruct (IH _ H2) as (ws & F & ->).
    exists (s1 :: ws). split; [constructor; assumption | reflexivity].
Qed.

(** A word of a sequence holds every character the sequence asks for. *)
Lemma seq_contains (c : ascii) (rs : list regex) (w : string) :
  lang (Seq rs) w -> In (Chr c) rs -> contains c w = true.
Proof.
  revert w. induction rs as [|r rs IH]; intros w H Hin; [destruct Hin|].
  simpl in H. inversion H as [| |r1 r2 s1 s2 H1 H2| | | |]; subst.
  rewrite contains_app. destruct Hin as [->|Hin].
  - inversion H1; subst.
    match goal with X : Ascii.eqb _ _ = true |- _ => apply Ascii.eqb_eq in X; subst end.
    simpl. rewrite Ascii.eqb_refl. reflexivity.
  - rewrite (IH _ H2 Hin). apply orb_true_r.
Qed.

Lemma star_sym_lang (p : ascii -> bool) (s : string) :
  (forall c, contains c s = true -> p c = true) -> lang (Star (Sym p)) s.
Proof.
  induction s as [|x s IH]; intros H; [constructor|].
  apply (@LStarS (Sym p) (String x "") s).
  - constructor. apply H. simpl. rewrite Ascii.eqb_refl. reflexivity.
  - apply IH. intros c Hc. apply H. simpl. rewrite Hc. apply orb_true_r.
Qed.

Lemma all_word_contains (s : string) (c : ascii) :
  all_word s = true -> contains c s = true -> isword c = true.
Proof.
  induction s as [|x s IH]; simpl; [discriminate|].
  intros H Hc. apply andb_true_iff in H. destruct H as [Hx Hs].
  apply orb_true_iff in Hc. destruct Hc as [Hc|Hc]; auto.
  apply Ascii.eqb_eq in Hc. subst. exact Hx.
Qed.

Lemma all_space_contains (s : string) (c : ascii) :
  all_space s = true -> contains c s = true -> isspace c = true.
Proof.
  induction s as [|x s IH]; simpl; [discriminate|].
  intros H Hc. apply andb_true_iff in H. destruct H as [Hx Hs].
  apply orb_true_iff in Hc. destruct Hc as [Hc|Hc]; auto.
  apply Ascii.eqb_eq in Hc. subst. exact Hx.
Qed.

Lemma plus_word_lang (s : string) :
  all_word s = true -> s <> "" -> lang (Plus word) s.
Proof.
  destruct s as [|x s]; [congruence|]. simpl. intros H _.
  apply andb_true_iff in H. destruct H as [Hx Hs].
  apply (@LCat word (Star word) (String x "") s); [constructor; exact Hx|].
  apply star_sym_lang. intros c. apply all_word_contains. exact Hs.
Qed.

Lemma alt_inv (r1 r2 : regex) (s : string) :
  lang (Alt r1 r2) s -> lang r1 s \/ lang r2 s.
Proof. intros H; inversion H; subst; auto. Qed.

(** The words of [PREAMBLE_RE]. *)
Lemma preamble_inv (p : string) :
  lang PREAMBLE_RE p ->
  (exists a b, all_space a = true /\ all_space b = true
               /\ p = a ++ "#" ++ b ++ "include")
  \/ (exists c, isspace c = true /\ p = "using" ++ String c "").
Proof.
  intros Hp. unfold PREAMBLE_RE in Hp.
  apply alt_inv in Hp. destruct Hp as [H1|H2].
  - left. apply seq_inv in H1. destruct H1 as (ws1 & F & ->).
    inversion F as [|? a ? l1 Ha F1]; subst.
    inversion F1 as [|? m ? l2 Hm F2]; subst. inversion F2; subst.
    apply (seq_inv [Chr "#"; Star ws; Lit "include"]) in Hm.
    destruct Hm as (ws2 & G & ->).
    inversion G as [|? h ? l3 Hh G1]; subst.
    inversion G1 as [|? b ? l4 Hb G2]; subst.
    inversion G2 as [|? i ? l5 Hi G3]; subst. inversion G3; subst.
    apply star_ws_inv in Ha. apply star_ws_inv in Hb.
    apply (lit_inv "include") in Hi. subst i.
    inversion Hh; subst.
    match goal with X : Ascii.eqb _ _ = true |- _ => apply Ascii.eqb_eq in X; subst end.
    exists a, b. repeat split; auto. simpl.
    rewrite !append_empty_r. reflexivity.
  - right. apply seq_inv in H2. destruct H2 as (ws1 & F & ->).
    inversion F as [|? u ? l1 Hu F1]; subst.
    inversion F1 as [|? m ? l2 Hm F2]; subst. inversion F2; subst.
    apply (lit_inv "using") in Hu. subst u.
    inversion Hm; subst. exists c. split; auto.
Qed.

(** [FUNC_DEF_RE] asks for a parenthesis pair and an opening brace. *)
Lemma func_def_contains (x : string) :
  matches FUNC_DEF_RE x = true ->
  contains "(" x = true /\ contains ")" x = true /\ contains "{" x = true.
Proof.
  intros H. apply matches_spec in H. destruct H as (p & q & -> & Hp).
  rewrite !contains_app.
  unfold FUNC_DEF_RE in Hp.
  rewrite (@seq_contains "(" _ _ Hp), (@seq_contains ")" _ _ Hp), (@seq_contains "{" _ _ Hp);
    [auto | simpl; tauto ..].
Qed.

(* ------------------------------------------------------------------ *)
(** *** Leading white space and the function pattern *)

Lemma word_not_space (c : ascii) : isword c = true -> isspace c = false.
Proof.
  destruct c as [b0 b1 b2 b3 b4 b5 b6 b7].
  destruct b0, b1, b2, b3, b4, b5, b6, b7; intros H;
    first [reflexivity | discriminate H].
Qed.

Lemma starts_nonspace_app (a b : string) :
  starts_nonspace a = true -> starts_nonspace (a ++ b) = true.
Proof. destruct a; [discriminate | auto]. Qed.

Lemma starts_word_app (a b : string) :
  starts_word a = true -> starts_word (a ++ b) = true.
Proof. destruct a; [discriminate | auto]. Qed.

Lemma starts_word_nonspace (s : string) :
  starts_word s = true -> starts_nonspace s = true.
Proof.
  destruct s as [|c s]; [discriminate|]. simpl. intros H.
  rewrite (word_not_space c H). reflexivity.
Qed.

Lemma star_starts (r : regex) (s : string) :
  (forall w, lang r w -> starts_word w = true) ->
  lang (Star r) s -> s = "" \/ starts_word s = true.
Proof.
  intros Hr H. remember (Star r) as q eqn:Eq.
  induction H as [| | | | | |r0 a b Ha IHa Hb IHb]; try discriminate; auto.
  inversion Eq; subst. right. apply starts_word_app. auto.
Qed.

Lemma lit_starts (l w rest : string) :
  lang (Lit l) w -> starts_word l = true ->
  starts_word (w ++ rest) = true.
Proof.
  intros H Hl. apply (lit_inv l) in H. subst w.
  apply starts_word_app. exact Hl.
Qed.

(** A qualifier group of [FUNC_DEF_RE] starts with a letter. *)
Lemma qualifier_starts (w : string) :
  lang (Seq [ OneOf [ Lit "static"; Lit "inline"; Lit "constexpr";
                      Lit "virtual"; Lit "extern";
                      Seq [Lit "template"; Star ws; Chr "<";
                           Star (Except ">"); Chr ">"] ];
              Plus ws ]) w ->
  starts_word w = true.
Proof.
  intros H. apply seq_inv in H. destruct H as (ws1 & F & ->).
  inversion F as [|? k ? l1 Hk F1]; subst. cbn [cat_all].
  apply (@alt_inv (Lit "static")) in Hk. destruct Hk as [Hk|Hk];
    [exact (@lit_starts "static" _ _ Hk eq_refl)|].
  apply (@alt_inv (Lit "inline")) in Hk. destruct Hk as [Hk|Hk];
    [exact (@lit_starts "inline" _ _ Hk eq_refl)|].
  apply (@alt_inv (Lit "constexpr")) in Hk. destruct Hk as [Hk|Hk];
    [exact (@lit_starts "constexpr" _ _ Hk eq_refl)|].
  apply (@alt_inv (Lit "virtual")) in Hk. destruct Hk as [Hk|Hk];
    [exact (@lit_starts "virtual" _ _ Hk eq_refl)|].
  apply (@alt_inv (Lit "extern")) in Hk. destruct Hk as [Hk|Hk];
    [exact (@lit_starts "extern" _ _ Hk eq_refl)|].
  apply (@alt_inv (Seq [Lit "template"; Star ws; Chr "<"; Star (Except ">");
                        Chr ">"]) Void) in Hk.
  destruct Hk as [Hk|Hk]; [|inversion Hk].
  apply (seq_inv [Lit "template"; Star ws; Chr "<"; Star (Except ">"); Chr ">"])
    in Hk.
  destruct Hk as (ws2 & G & ->).
  inversion G as [|? m ? l2 Hm G1]; subst. cbn [cat_all].
  rewrite append_assoc. exact (@lit_starts "template" _ _ Hm eq_refl).
Qed.

Lemma func_def_split (p : string) :
  lang FUNC_DEF_RE p <->
  exists s1 s2, p = s1 ++ s2 /\ all_space s1 = true
                /\ lang (Seq FUNC_DEF_BODY) s2.
Proof.
  change FUNC_DEF_RE with (Cat (Star ws) (Seq FUNC_DEF_BODY)). split.
  - intros H. inversion H as [| |r1 r2 s1 s2 H1 H2| | | |]; subst.
    exists s1, s2. split; [reflexivity|]. split; [apply star_ws_inv|]; auto.
  - intros (s1 & s2 & -> & H1 & H2). apply LCat; [apply star_ws_lang|]; auto.
Qed.

Lemma func_def_body_starts (s : string) :
  lang (Seq FUNC_DEF_BODY) s -> starts_word s = true.
Proof.
  intros H. apply seq_inv in H. destruct H as (ws1 & F & ->).
  inversion F as [|? sq ? l1 Hq F1]; subst.
  inversion F1 as [|? sw ? l2 Hw F2]; subst. cbn [cat_all].
  destruct (star_starts qualifier_starts Hq) as [->|Hs].
  - cbn [append].
    apply (seq_inv [word; Star (Sym type_char)]) in Hw.
    destruct Hw as (ws2 & G & ->).
    inversion G as [|? c0 ? l3 Hc G1]; subst. inversion Hc; subst.
    simpl. assumption.
  - apply starts_word_app. exact Hs.
Qed.

Lemma lstrip_nonspace (s : string) :
  starts_nonspace s = true -> lstrip s = s.
Proof.
  destruct s as [|c s]; [discriminate|]. simpl. intros H.
  apply negb_true_iff in H. rewrite H. reflexivity.
Qed.

Lemma lstrip_split (x : string) :
  exists s0, all_space s0 = true /\ x = s0 ++ lstrip x.
Proof.
  induction x as [|c x IH]; [exists ""; auto|].
  simpl. destruct (isspace c) eqn:E.
  - destruct IH as (s0 & H0 & Hx). exists (String c s0). simpl.
    rewrite E, H0. split; [reflexivity | congruence].
  - exists "". auto.
Qed.

(* ================================================================== *)
(** ** More on turns and sessions *)
(* ================================================================== *)

Lemma bind_raise_inv {A B} (m : M A) (f : A -> M B) (r : Runner) t e :
  bind m f r = (t, Raise e) ->
  (exists t1, m r = (t1, Raise e))
  \/ (exists t1 a r1 t2, m r = (t1, Ok a r1) /\ f a r1 = (t2, Raise e)).
Proof.
  unfold bind. destruct (m r) as [t1 [a r1|e1]].
  - destruct (f a r1) as [t2 x] eqn:E. simpl. intros H; inversion H; subst.
    right. eauto 6.
  - intros H; inversion H; subst. left. eauto.
Qed.

Lemma undo_in_range (r : Runner) :
  cursor_in_range r ->
  exists x r', undo r = ([], Ok x r') /\ cursor_in_range r'
               /\ user_input r' = user_input r.
Proof.
  unfold cursor_in_range. intros H.
  destruct (input_num r) as [|n] eqn:En.
  - rewrite undo_at_zero by auto. exists None, r. repeat split; auto. lia.
  - destruct (nth_error (user_input r) n) as [u|] eqn:Eu.
    2:{ apply nth_error_None in Eu. lia. }
    rewrite (undo_at r En Eu). eexists. eexists. split; [reflexivity|].
    cbn [input_num user_input]. split; [lia | reflexivity].
Qed.

Lemma redo_total (r : Runner) :
  (redo r = ([], Ok None r)
   /\ (List.length (user_input r) <= input_num r)%nat)
  \/ (exists u, nth_error (user_input r) (input_num r) = Some u
                /\ redo r = ([], Ok (Some (inp u))
                                    (set_input_num (input_num r + 1) r))).
Proof.
  destruct (nth_error (user_input r) (input_num r)) as [u|] eqn:E.
  - right. exists u. split; [reflexivity | apply redo_inside; exact E].
  - left. apply nth_error_None in E. split; [apply redo_at_end|]; exact E.
Qed.

(** What a command other than [.r] does to a session whose cursor is in
    range: it answers (not history, not recompile), starts no process and
    leaves the entries alone. *)
Lemma run_command_quiet (c : command) (r r' : Runner) t fl :
  c <> cmd_r ->
  run_command c r = (t, Ok fl r') ->
  fl = (false, false) /\ user_input r' = user_input r
  /\ forallb (fun e => negb (starts_process e)) t = true
  /\ (cursor_in_range r -> cursor_in_range r').
Proof.
  intros Hc. destruct c; cbn [run_command]; try congruence.
  - rewrite dot_h_eq. intros H; inversion H; subst. repeat split; auto.
  - unfold dot_c. mstep. unfold ret. cbn [fst snd].
    intros H; inversion H; subst. repeat split; auto.
  - unfold dot_e. rewrite bind_get. unfold bind.
    destruct (compile_error r) as [e|]; [destruct (truthy e)|];
      unfold emit, ret; cbn [fst snd app];
      intros H; inversion H; subst; repeat split; auto.
  - unfold dot_l. rewrite bind_get. unfold bind.
    match goal with |- context [if ?b then _ else _] => destruct b end;
      unfold emit, ret; cbn [fst snd app];
      intros H; inversion H; subst; repeat split; auto.
  - unfold dot_L. mstep. unfold ret. cbn [fst snd].
    intros H; inversion H; subst. repeat split; auto.
  - unfold dot_n. mstep. unfold ret. cbn [fst snd].
    intros H; inversion H; subst. repeat split; auto.
  - unfold dot_v. mstep. unfold ret. cbn [fst snd].
    intros H; inversion H; subst. repeat split; auto.
  - unfold dot_u. intros H. apply bind_ok in H.
    destruct H as (t1 & a & r1 & t2 & E1 & E2 & ->).
    apply bind_ok in E2. destruct E2 as (t3 & [] & r3 & t4 & E3 & E4 & ->).
    unfold ret in E4. inversion E4; subst; clear E4.
    assert (r' = r1 /\ forallb (fun e => negb (starts_process e)) t3 = true)
      as [-> Ht3]
      by (destruct a; unfold emit in E3; inversion E3; subst; auto).
    pose proof (undo_frame E1) as (-> & _ & Hu & _).
    repeat split; auto.
    + cbn [app]. rewrite app_nil_r. exact Ht3.
    + intros Hr. destruct (undo_in_range Hr) as (x & r2 & E & Hr2 & _).
      rewrite E in E1. inversion E1; subst. exact Hr2.
  - unfold dot_q, raise. discriminate.
Qed.

Lemma redo_range (r r' : Runner) t x :
  cursor_in_range r -> redo r = (t, Ok x r') ->
  cursor_in_range r' /\ user_input r' = user_input r
  /\ (x <> None -> user_input r' <> []).
Proof.
  unfold cursor_in_range. intros Hr H.
  destruct (redo_total r) as [[E Hl]|(u & Hu & E)]; rewrite E in H;
    inversion H; subst; clear H.
  - repeat split; auto; congruence.
  - assert (input_num r < List.length (user_input r))%nat
      by (apply nth_error_Some; congruence).
    cbn [set_input_num input_num user_input]. repeat split; [lia|].
    intros _ Hnil. rewrite Hnil in H. simpl in H. lia.
Qed.

(** Every finished turn keeps the cursor within the entries. *)
Lemma turn_in_range typed cp rp (r r' : Runner) t c :
  cursor_in_range r -> turn typed cp rp r = (t, Ok c r') -> cursor_in_range r'.
Proof.
  intros Hr. destruct typed as [lines|]; cbn [turn].
  2:{ unfold ret. intros H; inversion H; subst. exact Hr. }
  intros H. apply bind_ok in H.
  destruct H as (t1 & fl & r1 & t2 & E1 & E2 & ->).
  apply bind_ok in E2. destruct E2 as (t3 & [] & r3 & t4 & E3 & E4 & ->).
  apply bind_ok in E4. destruct E4 as (t5 & [] & r5 & t6 & E5 & E6 & ->).
  unfold ret in E6. inversion E6; subst; clear E6.
  assert (R1 : cursor_in_range r1).
  { unfold check_input_type in E1.
    destruct (startswith "." (join NL lines)).
    - destruct (lookup (join NL lines) dot_commands) as [[d k]|].
      + destruct k;
          try (apply run_command_quiet in E1; [tauto | discriminate]).
        cbn [run_command] in E1. unfold dot_r in E1. apply bind_ok in E1.
        destruct E1 as (u1 & a & q1 & u2 & F1 & F2 & ->).
        apply (redo_range Hr) in F1. destruct F1 as (F1 & _).
        destruct a; rewrite bind_emit in F2; unfold ret in F2;
          cbn [fst snd] in F2; inversion F2; subst; exact F1.
      + rewrite bind_emit, dot_h_eq in E1. inversion E1; subst. exact Hr.
    - unfold ret in E1. inversion E1; subst. exact Hr. }
  assert (R3 : cursor_in_range r3).
  { destruct (fst fl).
    - rewrite splice_eq in E3. inversion E3; subst.
      unfold cursor_in_range in *. cbn [user_input input_num].
      rewrite length_app, length_map, kept_length by exact R1. lia.
    - unfold ret in E3. inversion E3; subst. exact R1. }
  destruct (snd fl).
  - apply compile_and_run_shape in E5. destruct E5 as (F1 & F2 & _).
    unfold cursor_in_range in *. lia.
  - unfold ret in E5. inversion E5; subst. exact R3.
Qed.

(* ------------------------------------------------------------------ *)
(** *** Which exceptions can leave a turn *)

Lemma set_last_raise (f : UserInput -> UserInput) (r : Runner) t e :
  set_last f r = (t, Raise e) -> user_input r = [].
Proof.
  unfold set_last. rewrite bind_get. unfold modify, raise.
  destruct (user_input r); [reflexivity | discriminate].
Qed.

Lemma print_decoded_raise (b : list byte) (r : Runner) t e :
  print_decoded b r = (t, Raise e) -> e = UnicodeDecodeError.
Proof.
  unfold print_decoded, emit, raise. destruct (utf8_valid b); [discriminate|].
  intros H; inversion H; reflexivity.
Qed.

Lemma show_stdout_index (out : list byte) (r : Runner) t :
  show_stdout out r = (t, Raise IndexError) -> user_input r = [].
Proof.
  unfold show_stdout. rewrite bind_get.
  destruct (Z.of_nat (List.length out) >? output_chars_printed r)%Z;
    [|unfold ret; discriminate].
  intros H. apply bind_raise_inv in H.
  destruct H as [(t1 & H)|(t1 & [] & r1 & t2 & E1 & H)].
  - apply print_decoded_raise in H. discriminate.
  - apply print_decoded_ok in E1. destruct E1 as (_ & _ & ->).
    rewrite bind_modify in H. apply set_last_raise in H. exact H.
Qed.

Lemma show_stderr_index (err : list byte) (r : Runner) t :
  show_stderr err r = (t, Raise IndexError) -> user_input r = [].
Proof.
  unfold show_stderr. rewrite bind_get.
  destruct (Z.of_nat (List.length err) >? error_chars_printed r)%Z;
    [|unfold ret; discriminate].
  intros H. apply bind_raise_inv in H.
  destruct H as [(t1 & H)|(t1 & [] & r1 & t2 & E1 & H)].
  - apply print_decoded_raise in H. discriminate.
  - apply print_decoded_ok in E1. destruct E1 as (_ & _ & ->).
    rewrite bind_modify in H. apply set_last_raise in H. exact H.
Qed.

Lemma length_zero_nil {A} (l l' : list A) :
  List.length l' = List.length l -> l' = [] -> l = [].
Proof. intros H ->. destruct l; [reflexivity | discriminate]. Qed.

(** The cycle raises [IndexError] only on an empty list of entries. *)
Lemma compile_and_run_index cp rp (r : Runner) t :
  compile_and_run cp rp r = (t, Raise IndexError) -> user_input r = [].
Proof.
  rewrite compile_and_run_unfold.
  destruct (returncode cp =? 0)%Z; [|discriminate].
  match goal with |- context [fst ?X] => destruct X as [t0 x] eqn:E end.
  simpl. intros H; inversion H; subst; clear H.
  apply bind_raise_inv in E.
  destruct E as [(t1 & E)|(t1 & [] & r1 & t2 & E1 & E)].
  - apply show_stdout_index in E. exact E.
  - apply show_stderr_index in E. apply show_stdout_frame in E1.
    destruct E1 as (_ & F & _). cbn [user_input set_compile_error] in F.
    eapply length_zero_nil; eauto.
Qed.

(** With the cursor in range, a command raises nothing but the quit
    signal. *)
Lemma run_command_raise (c : command) (r : Runner) t e :
  cursor_in_range r -> run_command c r = (t, Raise e) -> e = IGCCQuitError.
Proof.
  intros Hr. destruct c; cbn [run_command].
  - rewrite dot_h_eq. discriminate.
  - unfold dot_c. mstep. discriminate.
  - unfold dot_e. rewrite bind_get. unfold bind.
    destruct (compile_error r) as [x|]; [destruct (truthy x)|];
      unfold emit, ret; cbn [fst snd app]; discriminate.
  - unfold dot_l. rewrite bind_get. unfold bind.
    match goal with |- context [if ?b then _ else _] => destruct b end;
      unfold emit, ret; cbn [fst snd app]; discriminate.
  - unfold dot_L. mstep. discriminate.
  - unfold dot_n. mstep. discriminate.
  - unfold dot_v. mstep. discriminate.
  - unfold dot_r. unfold bind at 1.
    destruct (redo_total r) as [[E _]|(u & _ & E)]; rewrite E;
      cbn [fst snd app]; rewrite bind_emit; discriminate.
  - unfold dot_u. unfold bind at 1.
    destruct (undo_in_range Hr) as (x & r1 & E & _). rewrite E.
    cbn [fst snd app]. unfold bind.
    destruct x; unfold emit, ret; cbn [fst snd app]; discriminate.
  - unfold dot_q, raise. intros H; inversion H; reflexivity.
Qed.

Lemma compile_and_run_first cp rp (r : Runner) :
  exists rest x, compile_and_run cp rp r = (Compile (get_full_source r) :: rest, x).
Proof.
  rewrite compile_and_run_unfold. destruct (returncode cp =? 0)%Z; eauto.
Qed.

Lemma bind_first {A B} (m : M A) (f : A -> M B) (r : Runner) e t x :
  m r = (e :: t, x) -> exists rest, fst (bind m f r) = e :: rest.
Proof.
  intros E. unfold bind. rewrite E. destruct x; simpl; eauto.
Qed.

Lemma visible_after_splice (r : Runner) (lines : list string) :
  cursor_in_range r ->
  firstn (input_num r + List.length lines)
         (kept r ++ map new_UserInput lines)
  = (get_user_input r ++ map new_UserInput lines)%list.
Proof.
  unfold cursor_in_range. intros Hr.
  rewrite <- (kept_length r Hr) at 1.
  rewrite <- (length_map new_UserInput lines), <- length_app.
  rewrite firstn_all. rewrite kept_firstn by exact Hr. reflexivity.
Qed.

(* ------------------------------------------------------------------ *)
(** *** The two output streams, evaluated *)

Lemma slice_from_nonneg {A} (c : Z) (l : list A) :
  (0 <= c)%Z -> slice_from c l = skipn (Z.to_nat c) l.
Proof.
  intros H. unfold slice_from.
  destruct (Z.ltb_spec c 0); [lia | reflexivity].
Qed.










Lemma turn_dot_u_nothing cp rp (r : Runner) :
  input_num r = 0%nat ->
  turn (Some [".u"]) cp rp r
  = ([Print "[black on white]Nothing to undo"], Ok Continue r).
Proof.
  intros H. unfold turn, check_input_type.
  change (join NL [".u"]) with ".u".
  change (startswith "." ".u") with true.
  change (lookup ".u" dot_commands) with (Some ("Undo previous command", cmd_u)).
  cbn [run_command]. unfold dot_u.
  unfold bind at 1 2. rewrite (undo_at_zero r H).
  cbn [fst snd app]. rewrite bind_emit. unfold ret. cbn [fst snd].
  mstep. reflexivity.
Qed.

Lemma attributed_at_zero (r : Runner) :
  input_num r = 0%nat -> attributed_output r = 0%Z /\ attributed_error r = 0%Z.
Proof.
  intros H. unfold attributed_output, attributed_error, get_user_input.
  rewrite H. split; reflexivity.
Qed.

Lemma show_stdout_undecodable (out : list byte) (r : Runner) :
  (0 <= output_chars_printed r < Z.of_nat (List.length out))%Z ->
  utf8_valid (skipn (Z.to_nat (output_chars_printed r)) out) = false ->
  show_stdout out r = ([], Raise UnicodeDecodeError).
Proof.
  intros Hc Hv. unfold show_stdout. rewrite bind_get.
  destruct (Z.gtb_spec (Z.of_nat (List.length out)) (output_chars_printed r));
    [|lia].
  rewrite slice_from_nonneg by lia.
  unfold print_decoded. rewrite Hv. reflexivity.
Qed.

Lemma undo_trace (r : Runner) : fst (undo r) = [].
Proof.
  unfold undo, bind, get, modify, ret, raise. cbn [fst snd app].
  destruct (input_num r =? 0)%nat; cbn [fst snd app]; [reflexivity|].
  match goal with |- context [nth_error ?l ?n] => destruct (nth_error l n) end;
    reflexivity.
Qed.

(** A command other than [.r] that raises has printed nothing. *)
Lemma run_command_raise_trace (c : command) (r : Runner) t e :
  c <> cmd_r -> run_command c r = (t, Raise e) -> t = [].
Proof.
  intros Hc. destruct c; cbn [run_command]; try congruence.
  - rewrite dot_h_eq. discriminate.
  - unfold dot_c. mstep. discriminate.
  - unfold dot_e. rewrite bind_get. unfold bind.
    destruct (compile_error r) as [x|]; [destruct (truthy x)|];
      unfold emit, ret; cbn [fst snd app]; discriminate.
  - unfold dot_l. rewrite bind_get. unfold bind.
    match goal with |- context [if ?b then _ else _] => destruct b end;
      unfold emit, ret; cbn [fst snd app]; discriminate.
  - unfold dot_L. mstep. discriminate.
  - unfold dot_n. mstep. discriminate.
  - unfold dot_v. mstep. discriminate.
  - unfold dot_u. unfold bind at 1. pose proof (undo_trace r) as T.
    destruct (undo r) as [t1 [x r1|e1]]; cbn [fst snd] in *; subst t1.
    + unfold bind. destruct x; unfold emit, ret; cbn [fst snd app];
        discriminate.
    + intros H; inversion H; reflexivity.
  - unfold dot_q, raise. intros H; inversion H; reflexivity.
Qed.

(** With the cursor in range, only [.q] raises. *)
Lemma run_command_no_raise (c : command) (r : Runner) t e :
  cursor_in_range r -> c <> cmd_q -> run_command c r = (t, Raise e) -> False.
Proof.
  intros Hr Hc. destruct c; cbn [run_command]; try congruence.
  - rewrite dot_h_eq. discriminate.
  - unfold dot_c. mstep. discriminate.
  - unfold dot_e. rewrite bind_get. unfold bind.
    destruct (compile_error r) as [x|]; [destruct (truthy x)|];
      unfold emit, ret; cbn [fst snd app]; discriminate.
  - unfold dot_l. rewrite bind_get. unfold bind.
    match goal with |- context [if ?b then _ else _] => destruct b end;
      unfold emit, ret; cbn [fst snd app]; discriminate.
  - unfold dot_L. mstep. discriminate.
  - unfold dot_n. mstep. discriminate.
  - unfold dot_v. mstep. discriminate.
  - unfold dot_r. unfold bind at 1.
    destruct (redo_total r) as [[E _]|(u & _ & E)]; rewrite E;
      cbn [fst snd app]; rewrite bind_emit; discriminate.
  - unfold dot_u. unfold bind at 1.
    destruct (undo_in_range Hr) as (x & r1 & E & _). rewrite E.
    cbn [fst snd app]. unfold bind.
    destruct x; unfold emit, ret; cbn [fst snd app]; discriminate.
Qed.

Lemma lookup_dot_q (text d : string) :
  lookup text dot_commands = Some (d, cmd_q) -> text = ".q".
Proof.
  unfold dot_commands. cbn [lookup].
  repeat match goal with
         | |- context [String.eqb text ?k] =>
             destruct (String.eqb_spec text k); [intros H; inversion H; auto; fail|]
         end.
  discriminate.
Qed.

(** A turn on a command name, from what the command does. *)
Lemma turn_command_ok (lines : list string) cp rp (r r1 : Runner) d k t :
  lookup (join NL lines) dot_commands = Some (d, k) ->
  run_command k r = (t, Ok (false, false) r1) ->
  turn (Some lines) cp rp r = (t, Ok Continue r1).
Proof.
  intros Hl E. unfold turn, check_input_type.
  rewrite names_start_with_dot by (apply lookup_names; eauto).
  rewrite Hl. unfold bind at 1. rewrite E. cbn [fst snd]. mstep.
  unfold ret. cbn [fst snd]. rewrite app_nil_r. reflexivity.
Qed.

Lemma turn_command_raise (lines : list string) cp rp (r : Runner) d k t e :
  lookup (join NL lines) dot_commands = Some (d, k) ->
  run_command k r = (t, Raise e) ->
  turn (Some lines) cp rp r = (t, Raise e).
Proof.
  intros Hl E. unfold turn, check_input_type.
  rewrite names_start_with_dot by (apply lookup_names; eauto).
  rewrite Hl. unfold bind at 1. rewrite E. reflexivity.
Qed.

Lemma turn_unknown (lines : list string) cp rp (r : Runner) :
  startswith "." (join NL lines) = true ->
  lookup (join NL lines) dot_commands = None ->
  turn (Some lines) cp rp r
  = (Print ("[white on red]Unknown command `" ++ join NL lines
            ++ "`. Available commands:") :: map Print help_listing,
     Ok Continue r).
Proof.
  intros Hdot Hl. unfold turn. unfold bind at 1.
  rewrite (check_input_type_unknown _ r Hdot Hl).
  cbn [fst snd]. mstep. unfold ret. cbn [fst snd].
  rewrite app_nil_r. reflexivity.
Qed.

Lemma prints_start_no_process (texts : list string) :
  forallb (fun e => negb (starts_process e)) (map Print texts) = true.
Proof. induction texts; simpl; auto. Qed.

(* ================================================================== *)
(** ** More on [_clean_source] and [_add_line_numbers] *)
(* ================================================================== *)

Lemma join_split (s : string) : join NL (split nl s) = s.
Proof.
  induction s as [|c s IH]; [reflexivity|].
  cbn [split]. destruct (Ascii.eqb_spec c nl) as [->|Hne].
  - rewrite join_cons by apply split_nonempty. rewrite IH. reflexivity.
  - destruct (split nl s) as [|l ls] eqn:E;
      [exfalso; eapply split_nonempty; eauto|].
    rewrite <- IH. destruct ls; reflexivity.
Qed.

Lemma clean_lines_fixed (b : bool) (ls : list string) :
  no_double_blank ls = true ->
  (b = true -> match ls with h :: _ => is_blank h = false | [] => True end) ->
  clean_lines b ls = ls.
Proof.
  revert b. induction ls as [|l ls IH]; intros b Hn Hb; [reflexivity|].
  cbn [clean_lines].
  assert (E : is_blank l && b = false).
  { destruct b; [rewrite (Hb eq_refl); reflexivity | apply andb_false_r]. }
  rewrite E. f_equal. apply IH.
  - destruct ls as [|h t]; [reflexivity|].
    rewrite no_double_blank_cons in Hn. apply andb_true_iff in Hn. tauto.
  - intros Hl. destruct ls as [|h t]; [exact I|].
    rewrite no_double_blank_cons, Hl in Hn. cbn [andb] in Hn.
    apply andb_true_iff in Hn. destruct Hn as [Hn _].
    apply negb_true_iff in Hn. exact Hn.
Qed.

Lemma no_newline_digits (d : Decimal.uint) :
  no_newline (NilEmpty.string_of_uint d) = true.
Proof. induction d; simpl; auto. Qed.

Lemma no_newline_str_of_nat (n : nat) : no_newline (str_of_nat n) = true.
Proof.
  unfold str_of_nat, NilZero.string_of_uint.
  destruct (Nat.to_uint n); try reflexivity; apply no_newline_digits.
Qed.

Lemma number_lines_pieces (width i : nat) (ls : list string) :
  Forall (fun l => no_newline l = true) ls ->
  Forall (fun l => no_newline l = true) (number_lines width i ls).
Proof.
  revert i. induction ls as [|l ls IH]; intros i H; [constructor|].
  inversion H; subst. cbn [number_lines]. constructor; [|apply IH; auto].
  unfold rjust. rewrite !no_newline_app, no_newline_spaces,
    no_newline_str_of_nat. simpl. assumption.
Qed.

Lemma number_lines_nth (width i k : nat) (ls : list string) (line : string) :
  nth_error ls k = Some line ->
  nth_error (number_lines width i ls) k
  = Some (rjust width (str_of_nat (i + k + 1)) ++ "  " ++ line).
Proof.
  revert i k. induction ls as [|l ls IH]; intros i [|k] H; try discriminate.
  - simpl in H. inversion H; subst. cbn [number_lines nth_error].
    rewrite Nat.add_0_r. reflexivity.
  - simpl in H. cbn [number_lines nth_error]. rewrite (IH (S i) k H).
    replace (S i + k + 1)%nat with (i + S k + 1)%nat by lia. reflexivity.
Qed.

Lemma number_lines_length (width i : nat) (ls : list string) :
  List.length (number_lines width i ls) = List.length ls.
Proof.
  revert i. induction ls as [|l ls IH]; intros i; simpl; auto.
Qed.

(* ================================================================== *)
(** ** Further properties: classification *)
(* ================================================================== *)

(** X1.  A line is flagged as a directive exactly when it consists of white
    space, [#], white space and [include] followed by anything, or starts
    in its first column with [using] and one white-space character. *)
Theorem directive_lines_exactly (x : string) :
  is_include (new_UserInput x) = true <->
  (exists a b rest, all_space a = true /\ all_space b = true
                    /\ x = a ++ "#" ++ b ++ "include" ++ rest)
  \/ (exists c rest, isspace c = true /\ x = "using" ++ String c rest).
Proof.
  cbn [is_include new_UserInput]. split.
  - intros H. apply matches_spec in H. destruct H as (p & q & -> & Hp).
    destruct (preamble_inv Hp) as [(a & b & Ha & Hb & ->)|(c & Hc & ->)].
    + left. exists a, b, q. repeat split; auto.
      rewrite !append_assoc. reflexivity.
    + right. exists c, q. split; auto.
  - intros [(a & b & rest & Ha & Hb & ->)|(c & rest & Hc & ->)].
    + apply (include_line_is_directive a b rest Ha Hb).
    + apply (using_line_is_directive c rest Hc).
Qed.

(** X2.  A return type and a name made of word characters, a parameter
    list without a closing parenthesis inside, then [) {]: such a line is
    flagged as a function definition, whatever follows the brace. *)
Theorem simple_definition_is_function (ty name params rest : string) :
  all_word ty = true -> ty <> "" ->
  all_word name = true -> name <> "" ->
  contains ")" params = false ->
  is_function (new_UserInput (ty ++ " " ++ name ++ "(" ++ params ++ ") {" ++ rest))
  = true.
Proof.
  intros Hty Hty0 Hname Hname0 Hpar.
  cbn [is_function new_UserInput]. apply matches_spec.
  exists (cat_all [""; ""; ty; " "; name; ""; "("; params; ")"; " ";
                   ""; ""; ""; ""; "{"]), rest.
  split.
  - cbn [cat_all append]. rewrite ?append_empty_r.
    repeat (rewrite append_assoc; cbn [append]). reflexivity.
  - unfold FUNC_DEF_RE. apply lang_seq.
    repeat (apply Forall2_cons); try apply Forall2_nil.
    + constructor.
    + constructor.
    + destruct ty as [|c ty']; [congruence|]. simpl in Hty.
      apply andb_true_iff in Hty. destruct Hty as [Hc Hty'].
      replace (String c ty') with (cat_all [String c ""; ty'])
        by (simpl; rewrite append_empty_r; reflexivity).
      apply lang_seq. apply Forall2_cons; [constructor; exact Hc|].
      apply Forall2_cons; [|apply Forall2_nil].
      apply star_sym_lang. intros d Hd. unfold type_char.
      rewrite (@all_word_contains _ _ Hty' Hd). reflexivity.
    + apply (@LCat ws (Star ws) " " ""); constructor. reflexivity.
    + apply plus_word_lang; assumption.
    + constructor.
    + constructor. reflexivity.
    + apply star_sym_lang. intros d Hd.
      cbv beta. destruct (Ascii.eqb_spec d ")") as [->|Hne];
        [congruence | reflexivity].
    + constructor. reflexivity.
    + apply (@LStarS ws " " ""); constructor. reflexivity.
    + apply LAltR; constructor.
    + apply LAltR; constructor.
    + apply LAltR; constructor.
    + apply LAltR; constructor.
    + constructor. reflexivity.
Qed.

(** X2 at [int twice(int n) { return 2 * n; }]. *)
Lemma simple_definition_is_function_witness :
  (all_word "int" = true /\ "int" <> "" /\ all_word "twice" = true
   /\ "twice" <> "" /\ contains ")" "int n" = false)
  /\ is_function (new_UserInput ("int" ++ " " ++ "twice" ++ "(" ++ "int n"
                                 ++ ") {" ++ " return 2 * n; }")) = true.
Proof.
  assert (H1 : all_word "int" = true) by reflexivity.
  assert (H2 : "int" <> "") by discriminate.
  assert (H3 : all_word "twice" = true) by reflexivity.
  assert (H4 : "twice" <> "") by discriminate.
  assert (H5 : contains ")" "int n" = false) by reflexivity.
  split; [repeat split; assumption|].
  exact (@simple_definition_is_function "int" "twice" "int n"
           " return 2 * n; }" H1 H2 H3 H4 H5).
Defined.

(** X3.  A line flagged as a function definition holds an opening
    parenthesis, a closing parenthesis and an opening brace: a line that
    lacks one of them is never taken for a function. *)
Theorem function_needs_parentheses_and_brace (x : string) :
  is_function (new_UserInput x) = true ->
  contains "(" x = true /\ contains ")" x = true /\ contains "{" x = true.
Proof.
  cbn [is_function new_UserInput]. intros H.
  apply matches_spec in H. destruct H as (p & q & -> & Hp).
  rewrite !contains_app. unfold FUNC_DEF_RE in Hp.
  assert (A : contains "(" p = true) by (apply (@seq_contains _ _ _ Hp); simpl; tauto).
  assert (B : contains ")" p = true) by (apply (@seq_contains _ _ _ Hp); simpl; tauto).
  assert (C : contains "{" p = true) by (apply (@seq_contains _ _ _ Hp); simpl; tauto).
  rewrite A, B, C. auto.
Qed.

(** X3 at [int f() {]. *)
Lemma function_needs_parentheses_and_brace_witness :
  is_function (new_UserInput "int f() {") = true
  /\ contains "(" "int f() {" = true /\ contains ")" "int f() {" = true
  /\ contains "{" "int f() {" = true.
Proof.
  assert (H : is_function (new_UserInput "int f() {") = true)
    by (vm_compute; reflexivity).
  split; [exact H|].
  exact (@function_needs_parentheses_and_brace "int f() {" H).
Defined.

(** X4.  A line of white space only, the empty line included, matches
    neither pattern and is stored as a statement. *)
Theorem blank_line_is_statement (x : string) :
  all_space x = true -> roles (new_UserInput x) = [Statement].
Proof.
  intros Hx.
  assert (Hi : matches PREAMBLE_RE x = false).
  { destruct (matches PREAMBLE_RE x) eqn:E; [|reflexivity]. exfalso.
    apply matches_spec in E. destruct E as (p & q & -> & Hp).
    rewrite !all_space_app in Hx.
    destruct (preamble_inv Hp) as [(a & b & _ & _ & ->)|(c & _ & ->)].
    - rewrite !all_space_app in Hx. simpl in Hx.
      rewrite !andb_false_r in Hx. discriminate.
    - simpl in Hx. discriminate. }
  assert (Hf : matches FUNC_DEF_RE x = false).
  { destruct (matches FUNC_DEF_RE x) eqn:E; [|reflexivity]. exfalso.
    destruct (func_def_contains x E) as (_ & _ & Hb).
    pose proof (@all_space_contains _ _ Hx Hb) as Hs. discriminate. }
  unfold roles, has_role. cbn [filter is_include is_function new_UserInput].
  rewrite Hi, Hf. reflexivity.
Qed.

(** X4 at a line of two blanks. *)
Lemma blank_line_is_statement_witness :
  all_space "  " = true /\ roles (new_UserInput "  ") = [Statement].
Proof.
  assert (H : all_space "  " = true) by reflexivity.
  split; [exact H|].
  exact (@blank_line_is_statement "  " H).
Defined.

(** X21.  White space in front of a line never changes whether the line is
    flagged as a function definition. *)
Theorem indentation_keeps_function_flag (a x : string) :
  all_space a = true ->
  is_function (new_UserInput (a ++ x)) = is_function (new_UserInput x).
Proof.
  intros Ha. cbn [is_function new_UserInput].
  destruct (matches FUNC_DEF_RE x) eqn:E.
  - apply matches_spec in E. destruct E as (p & q & -> & Hp).
    apply func_def_split in Hp. destruct Hp as (s1 & s2 & -> & H1 & H2).
    apply matches_spec. exists ((a ++ s1) ++ s2), q. split.
    + rewrite !append_assoc. reflexivity.
    + apply func_def_split. exists (a ++ s1), s2.
      rewrite all_space_app, Ha, H1. auto.
  - destruct (matches FUNC_DEF_RE (a ++ x)) eqn:E'; [|reflexivity].
    exfalso. apply matches_spec in E'. destruct E' as (p & q & Epq & Hp).
    apply func_def_split in Hp. destruct Hp as (s1 & s2 & -> & H1 & H2).
    pose proof (starts_word_nonspace _ (func_def_body_starts H2)) as Hs.
    apply (f_equal lstrip) in Epq.
    rewrite (lstrip_space_prefix a _ Ha), !append_assoc,
      (lstrip_space_prefix s1 _ H1) in Epq.
    rewrite (lstrip_nonspace (s2 ++ q)) in Epq
      by (apply starts_nonspace_app; exact Hs).
    destruct (lstrip_split x) as (s0 & H0 & Hx). rewrite Epq in Hx.
    assert (M : matches FUNC_DEF_RE x = true).
    { apply matches_spec. exists (s0 ++ s2), q. split.
      - rewrite append_assoc. exact Hx.
      - apply func_def_split. exists s0, s2. auto. }
    congruence.
Qed.

(** X21 at a definition typed after two blanks. *)
Lemma indentation_keeps_function_flag_witness :
  all_space "  " = true
  /\ is_function (new_UserInput ("  " ++ "int f() {"))
     = is_function (new_UserInput "int f() {").
Proof.
  assert (H : all_space "  " = true) by reflexivity.
  split; [exact H|].
  exact (@indentation_keeps_function_flag "  " "int f() {" H).
Defined.

(** X22.  Only a line that starts in its first column with [using] and a
    white-space character can carry both flags: an include line is never
    flagged as a function definition. *)
Theorem two_flags_only_for_using (x : string) :
  is_include (new_UserInput x) = true ->
  is_function (new_UserInput x) = true ->
  exists c rest, isspace c = true /\ x = "using" ++ String c rest.
Proof.
  cbn [is_include is_function new_UserInput]. intros Hi Hf.
  apply matches_spec in Hi. destruct Hi as (p & q & -> & Hp).
  destruct (preamble_inv Hp) as [(a & b & Ha & Hb & ->)|(c & Hc & ->)].
  - exfalso. apply matches_spec in Hf. destruct Hf as (p' & q' & Epq & Hp').
    apply func_def_split in Hp'. destruct Hp' as (s1 & s2 & -> & H1 & H2).
    pose proof (func_def_body_starts H2) as Hw.
    apply (f_equal lstrip) in Epq.
    rewrite !append_assoc in Epq.
    rewrite (lstrip_space_prefix a _ Ha), (lstrip_space_prefix s1 _ H1) in Epq.
    rewrite (lstrip_nonspace (s2 ++ q')) in Epq
      by (apply starts_word_nonspace, starts_word_app; exact Hw).
    destruct s2 as [|c s2]; [discriminate|].
    simpl in Epq, Hw. inversion Epq; subst. discriminate.
  - exists c, q. split; [exact Hc | reflexivity].
Qed.

(** X22 at the line [using f() {]. *)
Lemma two_flags_only_for_using_witness :
  is_include (new_UserInput "using f() {") = true
  /\ is_function (new_UserInput "using f() {") = true
  /\ exists c rest, isspace c = true /\ "using f() {" = "using" ++ String c rest.
Proof.
  assert (H1 : is_include (new_UserInput "using f() {") = true)
    by (vm_compute; reflexivity).
  assert (H2 : is_function (new_UserInput "using f() {") = true)
    by (vm_compute; reflexivity).
  split; [exact H1|]. split; [exact H2|].
  exact (@two_flags_only_for_using "using f() {" H1 H2).
Defined.

(* ================================================================== *)
(** ** Further properties: the session *)
(* ================================================================== *)

(** X5.  In every session, whatever is typed and whatever the processes
    answer, the cursor stays within the stored entries. *)
Theorem cursor_stays_in_range (script : list step) (t : list event)
  (c : loop) (r : Runner) :
  do_run script init = (t, Ok c r) -> cursor_in_range r.
Proof.
  assert (G : forall script r0 t c r,
             cursor_in_range r0 -> do_run script r0 = (t, Ok c r) ->
             cursor_in_range r).
  { clear. induction script as [|s rest IH]; intros r0 t c r H0 H.
    - cbn [do_run] in H. unfold ret in H. inversion H; subst. exact H0.
    - cbn [do_run] in H. apply bind_ok in H.
      destruct H as (t1 & k & r1 & t2 & E1 & E2 & ->).
      apply (@turn_in_range _ _ _ _ _ _ _ H0) in E1.
      destruct k.
      + eapply IH; eauto.
      + unfold ret in E2. inversion E2; subst. exact E1. }
  apply G. unfold cursor_in_range. simpl. lia.
Qed.

(** X5 at the session of two lines, two undos and two redos. *)
Lemma cursor_stays_in_range_witness :
  exists t r, do_run undo_redo_session init = (t, Ok Continue r)
              /\ cursor_in_range r.
Proof.
  destruct (do_run undo_redo_session init) as [t [c r|e]] eqn:E;
    [|vm_compute in E; discriminate].
  assert (c = Continue)
    by (vm_compute in E; inversion E; reflexivity).
  subst c. exists t, r. split; [reflexivity|].
  exact (@cursor_stays_in_range undo_redo_session t Continue r E).
Defined.

(** X6.  In a session in which the user never redoes and never submits an
    empty block, the cursor stays in range and each counter equals the sum
    of the lengths attributed to the entries before the cursor. *)
Theorem counters_follow_history_without_redo (script : list step)
  (t : list event) (c : loop) (r : Runner) :
  Forall redo_free script ->
  do_run script init = (t, Ok c r) ->
  counters_agree r.
Proof.
  assert (G : forall script r0 t c r,
             counters_agree r0 -> Forall redo_free script ->
             do_run script r0 = (t, Ok c r) -> counters_agree r).
  { clear. induction script as [|s rest IH]; intros r0 t c r H0 F H.
    - cbn [do_run] in H. unfold ret in H. inversion H; subst. exact H0.
    - inversion F as [|? ? Fs Frest]; subst.
      cbn [do_run] in H. apply bind_ok in H.
      destruct H as (t1 & k & r1 & t2 & E1 & E2 & ->).
      assert (H1 : counters_agree r1).
      { unfold redo_free in Fs. destruct (typed s) as [lines|].
        - destruct Fs as [Hne Hr].
          eapply counters_agree_without_redo; eauto.
        - cbn [turn] in E1. unfold ret in E1. inversion E1; subst. exact H0. }
      destruct k.
      + eapply IH; eauto.
      + unfold ret in E2. inversion E2; subst. exact H1. }
  apply G. repeat split. unfold cursor_in_range. simpl. lia.
Qed.

(** X6 at two lines typed and undone. *)
Lemma counters_follow_history_without_redo_witness :
  Forall redo_free (firstn 4 undo_redo_session)
  /\ exists t r, do_run (firstn 4 undo_redo_session) init = (t, Ok Continue r)
                 /\ counters_agree r.
Proof.
  assert (F : Forall redo_free (firstn 4 undo_redo_session)).
  { repeat constructor; try discriminate;
      intro H; vm_compute in H; discriminate. }
  split; [exact F|].
  destruct (do_run (firstn 4 undo_redo_session) init) as [t [c r|e]] eqn:E;
    [|vm_compute in E; discriminate].
  assert (c = Continue) by (vm_compute in E; inversion E; reflexivity).
  subst c. exists t, r. split; [reflexivity|].
  exact (@counters_follow_history_without_redo
           (firstn 4 undo_redo_session) t Continue r F E).
Defined.

(** X7.  With the cursor in range, a turn on a non-empty input never ends
    in [IndexError]: neither the history operations nor the attribution of
    new output index outside the entries. *)
Theorem nonempty_input_never_index_error
  (r : Runner) (lines : list string) (cp : compile_process) (rp : run_process)
  (t : list event) :
  cursor_in_range r -> lines <> [] ->
  turn (Some lines) cp rp r <> (t, Raise IndexError).
Proof.
  intros Hr Hne H. cbn [turn] in H.
  apply bind_raise_inv in H.
  destruct H as [(t1 & H)|(t1 & fl & r1 & t2 & E1 & H)].
  - unfold check_input_type in H.
    destruct (startswith "." (join NL lines)); [|unfold ret in H; discriminate].
    destruct (lookup (join NL lines) dot_commands) as [[d k]|].
    + apply (run_command_raise _ Hr) in H. discriminate.
    + rewrite bind_emit, dot_h_eq in H. discriminate.
  - assert (A : (fl = (true, true) /\ r1 = r)
                \/ (fst fl = false
                    /\ (snd fl = true -> user_input r1 <> []))).
    { unfold check_input_type in E1.
      destruct (startswith "." (join NL lines)).
      - right. destruct (lookup (join NL lines) dot_commands) as [[d k]|].
        + destruct k;
            try (apply run_command_quiet in E1; [|discriminate];
                 destruct E1 as (-> & _); split; [reflexivity | discriminate]).
          cbn [run_command] in E1. unfold dot_r in E1. apply bind_ok in E1.
          destruct E1 as (u1 & a & q1 & u2 & F1 & F2 & ->).
          apply (redo_range Hr) in F1. destruct F1 as (_ & _ & F1).
          destruct a; rewrite bind_emit in F2; unfold ret in F2;
            cbn [fst snd] in F2; inversion F2; subst;
            (split; [reflexivity|]); [intros _; apply F1 | ]; discriminate.
        + rewrite bind_emit, dot_h_eq in E1. inversion E1; subst.
          split; [reflexivity | discriminate].
      - left. unfold ret in E1. inversion E1; subst. auto. }
    apply bind_raise_inv in H.
    destruct H as [(t3 & H)|(t3 & [] & r3 & t4 & E3 & H)].
    + destruct (fst fl); [rewrite splice_eq in H | unfold ret in H];
        discriminate.
    + apply bind_raise_inv in H.
      destruct H as [(t5 & H)|(t5 & [] & r5 & t6 & _ & H)];
        [|unfold ret in H; discriminate].
      destruct A as [[-> ->]|[Hf Hs]].
      * cbn [fst snd] in E3, H. rewrite splice_eq in E3.
        inversion E3; subst; clear E3.
        apply compile_and_run_index in H. cbn [user_input] in H.
        apply app_eq_nil in H. destruct H as [_ H].
        apply map_eq_nil in H. contradiction.
      * rewrite Hf in E3. unfold ret in E3. inversion E3; subst.
        destruct (snd fl); [|unfold ret in H; discriminate].
        apply compile_and_run_index in H. apply Hs; auto.
Qed.

(** X7 at a first line typed into a fresh session. *)
Lemma nonempty_input_never_index_error_witness :
  cursor_in_range init /\ [line_A] <> []
  /\ turn (Some [line_A]) compiled (prints "12345") init
     <> ([], Raise IndexError).
Proof.
  assert (H1 : cursor_in_range init) by (unfold cursor_in_range; simpl; lia).
  assert (H2 : [line_A] <> []) by discriminate.
  split; [exact H1|]. split; [exact H2|].
  exact (@nonempty_input_never_index_error init [line_A] compiled
           (prints "12345") [] H1 H2).
Defined.

(** X8.  Undo followed at once by redo puts the cursor back and returns
    the same text twice, with the entries untouched; the two counters are
    not put back: they stay lowered by what was attributed to the line. *)
Theorem undo_then_redo (r : Runner) :
  cursor_in_range r -> input_num r <> 0%nat ->
  exists u r',
    nth_error (user_input r) (input_num r - 1) = Some u
    /\ (x <- undo ;; y <- redo ;; ret (x, y)) r
       = ([], Ok (Some (inp u), Some (inp u)) r')
    /\ input_num r' = input_num r
    /\ user_input r' = user_input r
    /\ output_chars_printed r' = (output_chars_printed r - output_chars u)%Z
    /\ error_chars_printed r' = (error_chars_printed r - error_chars u)%Z.
Proof.
  unfold cursor_in_range. intros Hr Hn.
  destruct (input_num r) as [|n] eqn:En; [congruence|].
  destruct (nth_error (user_input r) n) as [u|] eqn:Eu.
  2:{ apply nth_error_None in Eu. lia. }
  exists u. eexists. split.
  - simpl. rewrite Nat.sub_0_r. exact Eu.
  - split.
    + erewrite bind_step by (apply (undo_at r En Eu)).
      erewrite bind_step by (apply redo_inside; cbn [user_input input_num];
                             exact Eu).
      reflexivity.
    + cbn [set_input_num input_num user_input output_chars_printed
           error_chars_printed]. repeat split. lia.
Qed.

(** X8 at two stored lines. *)
Lemma undo_then_redo_witness :
  cursor_in_range (stored [line_A; line_B])
  /\ input_num (stored [line_A; line_B]) <> 0%nat
  /\ exists u r',
       nth_error (user_input (stored [line_A; line_B])) 1 = Some u
       /\ (x <- undo ;; y <- redo ;; ret (x, y)) (stored [line_A; line_B])
          = ([], Ok (Some (inp u), Some (inp u)) r')
       /\ input_num r' = 2%nat.
Proof.
  assert (H1 : cursor_in_range (stored [line_A; line_B]))
    by (unfold cursor_in_range; simpl; lia).
  assert (H2 : input_num (stored [line_A; line_B]) <> 0%nat) by discriminate.
  split; [exact H1|]. split; [exact H2|].
  destruct (@undo_then_redo (stored [line_A; line_B]) H1 H2)
    as (u & r' & E1 & E2 & E3 & _).
  exists u, r'. repeat split; assumption.
Defined.

(** X9.  An ordinary input is compiled together with exactly the entries
    that were before the cursor: the program handed to the compiler is the
    one assembled from those entries followed by the new lines, so undone
    entries never reach the compiler. *)
Theorem ordinary_turn_compiles_visible_prefix
  (r : Runner) (lines : list string) (cp : compile_process) (rp : run_process) :
  cursor_in_range r -> startswith "." (join NL lines) = false ->
  exists r0 rest,
    fst (turn (Some lines) cp rp r) = Compile (get_full_source r0) :: rest
    /\ get_user_input r0
       = (get_user_input r ++ map new_UserInput lines)%list.
Proof.
  intros Hr Hord.
  rewrite turn_ordinary by exact Hord.
  erewrite bind_step by apply splice_eq.
  set (r0 := mkRunner _ _ _ _ _ _).
  destruct (compile_and_run_first cp rp r0) as (rest & x & E).
  destruct (@bind_first _ _ (compile_and_run cp rp)
              (fun _ => ret Continue) r0 _ _ _ E) as (rest' & E').
  exists r0, rest'. split; [exact E'|].
  unfold get_user_input at 1, r0. cbn [user_input input_num].
  apply visible_after_splice. exact Hr.
Qed.

(** X9 at two stored lines with the second undone. *)
Lemma ordinary_turn_compiles_visible_prefix_witness :
  cursor_in_range second_undone
  /\ startswith "." (join NL ["int y = 1;"]) = false
  /\ exists r0 rest,
       fst (turn (Some ["int y = 1;"]) compiled (prints "12345") second_undone)
         = Compile (get_full_source r0) :: rest
       /\ get_user_input r0 = map new_UserInput [line_A; "int y = 1;"].
Proof.
  assert (H1 : cursor_in_range second_undone)
    by (unfold cursor_in_range; simpl; lia).
  assert (H2 : startswith "." (join NL ["int y = 1;"]) = false) by reflexivity.
  split; [exact H1|]. split; [exact H2|].
  exact (@ordinary_turn_compiles_visible_prefix second_undone ["int y = 1;"]
           compiled (prints "12345") H1 H2).
Defined.

(** X10.  When the compiler rejects an ordinary input, the turn still
    finishes: the new lines stay stored before the cursor, the binary is
    not started, both counters keep their values and the diagnostics are
    kept as the compile error. *)
Theorem rejected_input_stays_stored
  (r : Runner) (lines : list string) (cp : compile_process) (rp : run_process) :
  cursor_in_range r -> startswith "." (join NL lines) = false ->
  returncode cp <> 0%Z ->
  exists src r',
    turn (Some lines) cp rp r = ([Compile src; Print BANNER], Ok Continue r')
    /\ get_user_input r' = (get_user_input r ++ map new_UserInput lines)%list
    /\ input_num r' = (input_num r + List.length lines)%nat
    /\ output_chars_printed r' = output_chars_printed r
    /\ error_chars_printed r' = error_chars_printed r
    /\ exists e, compile_error r' = Some e /\ e <> "".
Proof.
  intros Hr Hord Hfail.
  rewrite turn_ordinary by exact Hord.
  erewrite bind_step by apply splice_eq.
  unfold bind at 1. rewrite compile_and_run_unfold.
  apply Z.eqb_neq in Hfail. rewrite Hfail. cbn [fst snd app].
  unfold ret. cbn [fst snd]. eexists. eexists. split; [reflexivity|].
  cbn [set_compile_error input_num user_input output_chars_printed
       error_chars_printed compile_error].
  split.
  - unfold get_user_input at 1. cbn [user_input input_num].
    apply visible_after_splice. exact Hr.
  - repeat split. eexists. split; [reflexivity|].
    destruct (String.eqb_spec (diagnostics cp) ""); [discriminate | assumption].
Qed.

(** X10 at a rejected line typed into a fresh session. *)
Lemma rejected_input_stays_stored_witness :
  cursor_in_range init
  /\ startswith "." (join NL ["int x = ;"]) = false
  /\ returncode rejected <> 0%Z
  /\ exists src r',
       turn (Some ["int x = ;"]) rejected (prints "") init
         = ([Compile src; Print BANNER], Ok Continue r')
       /\ get_user_input r' = map new_UserInput ["int x = ;"]
       /\ input_num r' = 1%nat.
Proof.
  assert (H1 : cursor_in_range init) by (unfold cursor_in_range; simpl; lia).
  assert (H2 : startswith "." (join NL ["int x = ;"]) = false) by reflexivity.
  assert (H3 : returncode rejected <> 0%Z) by discriminate.
  split; [exact H1|]. split; [exact H2|]. split; [exact H3|].
  destruct (@rejected_input_stays_stored init ["int x = ;"] rejected
              (prints "") H1 H2 H3) as (src & r' & E1 & E2 & E3 & _).
  exists src, r'. repeat split; assumption.
Defined.



(** X12.  When every entry before the cursor is a function definition and
    no directive, [.l] lists nothing: it prints that no code was entered,
    as it does for an empty history. *)
Theorem listing_omits_functions (r : Runner) :
  Forall (fun a => is_function a = true /\ is_include a = false)
         (get_user_input r) ->
  dot_l r = ([Print "[black on white]No code entered yet"], Ok (false, false) r).
Proof.
  intros H.
  assert (A : forall ro, ro <> FunctionDefinition -> section_lines ro r = []).
  { intros ro Hro. unfold section_lines.
    replace (filter (has_role ro) (get_user_input r)) with (@nil UserInput);
      [reflexivity|].
    symmetry. induction (get_user_input r) as [|a l IH]; [reflexivity|].
    inversion H as [|? ? [Hf Hi] Hl]; subst. cbn [filter].
    replace (has_role ro a) with false; [auto|].
    destruct ro; unfold has_role; rewrite ?Hf, ?Hi; simpl; congruence. }
  unfold dot_l. rewrite bind_get.
  destruct (section_strings r) as (-> & _ & ->).
  rewrite !A by discriminate. reflexivity.
Qed.

(** X12 at a single stored function definition. *)
Lemma listing_omits_functions_witness :
  Forall (fun a => is_function a = true /\ is_include a = false)
         (get_user_input (stored ["int twice(int n) { return 2 * n; }"]))
  /\ dot_l (stored ["int twice(int n) { return 2 * n; }"])
     = ([Print "[black on white]No code entered yet"],
        Ok (false, false) (stored ["int twice(int n) { return 2 * n; }"])).
Proof.
  assert (H : Forall (fun a => is_function a = true /\ is_include a = false)
                (get_user_input (stored ["int twice(int n) { return 2 * n; }"])))
    by (repeat constructor; vm_compute; reflexivity).
  split; [exact H|].
  exact (@listing_omits_functions
           (stored ["int twice(int n) { return 2 * n; }"]) H).
Defined.

(** X13.  A turn on a text that starts with a dot and is not [.r] never
    starts the compiler or the binary, however it ends.  If it finishes,
    the loop goes on and the stored entries are as before.  On [.q] it
    does not finish: it prints nothing and ends in the quit signal.  On
    any other such text, named command or not, it does finish when the
    cursor lies within the history. *)
Theorem dot_texts_start_no_process
  (r : Runner) (lines : list string) (cp : compile_process) (rp : run_process) :
  startswith "." (join NL lines) = true -> join NL lines <> ".r" ->
  forallb (fun e => negb (starts_process e))
          (fst (turn (Some lines) cp rp r)) = true
  /\ (forall t c r', turn (Some lines) cp rp r = (t, Ok c r') ->
        c = Continue /\ user_input r' = user_input r)
  /\ (join NL lines = ".q" ->
        turn (Some lines) cp rp r = ([], Raise IGCCQuitError))
  /\ (join NL lines <> ".q" -> cursor_in_range r ->
        exists t r', turn (Some lines) cp rp r = (t, Ok Continue r')
                     /\ user_input r' = user_input r).
Proof.
  intros Hdot Hr.
  destruct (lookup (join NL lines) dot_commands) as [[d k]|] eqn:Hl.
  - assert (Hk : k <> cmd_r)
      by (intros ->; apply lookup_dot_r in Hl; contradiction).
    destruct (run_command k r) as [t1 [fl r1|e]] eqn:E.
    + destruct (@run_command_quiet _ _ _ _ _ Hk E) as (-> & Hu & Ht & _).
      rewrite (@turn_command_ok lines cp rp _ _ _ _ _ Hl E). cbn [fst].
      split; [exact Ht|]. split; [|split].
      * intros t c r' H; inversion H; subst; auto.
      * intros Hq. rewrite Hq in Hl. cbn in Hl. inversion Hl; subst.
        cbn in E. discriminate.
      * intros _ _. eauto.
    + pose proof (@run_command_raise_trace _ _ _ _ Hk E) as ->.
      rewrite (@turn_command_raise lines cp rp _ _ _ _ _ Hl E). cbn [fst].
      split; [reflexivity|]. split; [|split].
      * discriminate.
      * intros Hq. rewrite Hq in Hl. cbn in Hl. inversion Hl; subst.
        cbn in E. inversion E; reflexivity.
      * intros Hq Hc. exfalso.
        apply (@run_command_no_raise k r [] e Hc); [|exact E].
        intros ->. apply lookup_dot_q in Hl. contradiction.
  - rewrite (@turn_unknown lines cp rp r Hdot Hl). cbn [fst].
    split; [apply (prints_start_no_process (_ :: help_listing))|].
    split; [|split].
    + intros t c r' H; inversion H; subst; auto.
    + intros Hq. rewrite Hq in Hl. cbn in Hl. discriminate.
    + intros _ _. eauto.
Qed.

(** X13 at the unknown text [.x], at [.u] and at [.q], one line stored. *)
Lemma dot_texts_start_no_process_witness :
  (startswith "." (join NL [".x"]) = true /\ join NL [".x"] <> ".r"
   /\ join NL [".x"] <> ".q" /\ cursor_in_range (stored [line_A])
   /\ forallb (fun e => negb (starts_process e))
        (fst (turn (Some [".x"]) compiled (prints "12345") (stored [line_A])))
      = true
   /\ exists t r',
        turn (Some [".x"]) compiled (prints "12345") (stored [line_A])
          = (t, Ok Continue r')
        /\ user_input r' = user_input (stored [line_A]))
  /\ (startswith "." (join NL [".q"]) = true /\ join NL [".q"] <> ".r"
      /\ join NL [".q"] = ".q"
      /\ turn (Some [".q"]) compiled (prints "12345") (stored [line_A])
         = ([], Raise IGCCQuitError)).
Proof.
  assert (H1 : startswith "." (join NL [".x"]) = true) by reflexivity.
  assert (H2 : join NL [".x"] <> ".r") by discriminate.
  assert (H3 : join NL [".x"] <> ".q") by discriminate.
  assert (H4 : cursor_in_range (stored [line_A]))
    by (unfold cursor_in_range; simpl; lia).
  assert (Q1 : startswith "." (join NL [".q"]) = true) by reflexivity.
  assert (Q2 : join NL [".q"] <> ".r") by discriminate.
  assert (Q3 : join NL [".q"] = ".q") by reflexivity.
  split.
  - split; [exact H1|]. split; [exact H2|]. split; [exact H3|].
    split; [exact H4|].
    destruct (@dot_texts_start_no_process (stored [line_A]) [".x"] compiled
                (prints "12345") H1 H2) as (T & _ & _ & F).
    split; [exact T | exact (F H3 H4)].
  - split; [exact Q1|]. split; [exact Q2|]. split; [exact Q3|].
    exact (proj1 (proj2 (proj2
             (@dot_texts_start_no_process (stored [line_A]) [".q"] compiled
                (prints "12345") Q1 Q2))) Q3).
Defined.



(** X18.  When the counters agree with the history, undoing every line
    before the cursor brings the cursor and both counters back to zero and
    leaves the entries stored. *)
Theorem undo_everything_resets_counters (r : Runner) :
  counters_agree r ->
  exists xs r',
    undo_times (input_num r) r = ([], Ok xs r')
    /\ List.length xs = input_num r
    /\ input_num r' = 0%nat
    /\ output_chars_printed r' = 0%Z
    /\ error_chars_printed r' = 0%Z
    /\ user_input r' = user_input r.
Proof.
  remember (input_num r) as n eqn:En. revert r En.
  induction n as [|n IH]; intros r En C.
  - exists [], r. destruct C as (_ & Ho & He).
    destruct (attributed_at_zero r (eq_sym En)) as [A1 A2].
    repeat split; auto; congruence.
  - destruct C as (Hr & Ho & He).
    assert (C : counters_agree r) by (repeat split; assumption).
    unfold cursor_in_range in Hr.
    destruct (nth_error (user_input r) n) as [u|] eqn:Eu.
    2:{ apply nth_error_None in Eu. lia. }
    pose proof (undo_at r (eq_sym En) Eu) as E.
    pose proof (undo_agree C E) as C1.
    destruct (IH (mkRunner (user_input r) n (compile_error r)
                    (output_chars_printed r - output_chars u)
                    (error_chars_printed r - error_chars u)
                    (show_line_numbers r)) eq_refl C1)
      as (xs & r' & E' & Hx & H0 & H1 & H2 & H3).
    exists (Some (inp u) :: xs), r'. split.
    + cbn [undo_times]. erewrite bind_step by exact E.
      erewrite bind_step by exact E'. reflexivity.
    + cbn [user_input] in H3. simpl. repeat split; auto.
Qed.

(** X18 at two stored lines. *)
Lemma undo_everything_resets_counters_witness :
  counters_agree (stored [line_A; line_B])
  /\ exists xs r',
       undo_times 2 (stored [line_A; line_B]) = ([], Ok xs r')
       /\ input_num r' = 0%nat
       /\ output_chars_printed r' = 0%Z.
Proof.
  assert (H : counters_agree (stored [line_A; line_B]))
    by (repeat split; unfold cursor_in_range; simpl; lia).
  split; [exact H|].
  destruct (@undo_everything_resets_counters (stored [line_A; line_B]) H)
    as (xs & r' & E & _ & H0 & H1 & _).
  exists xs, r'. repeat split; assumption.
Defined.

(** X19.  At the ends of the history the two commands do nothing: [.u]
    with the cursor at zero prints that there is nothing to undo, [.r]
    with the cursor at the end prints that there is nothing to redo and
    starts no compile; the session stays as it was. *)
Theorem undo_redo_at_the_ends (r : Runner) (cp : compile_process)
  (rp : run_process) :
  (input_num r = 0%nat ->
   turn (Some [".u"]) cp rp r
   = ([Print "[black on white]Nothing to undo"], Ok Continue r))
  /\ ((List.length (user_input r) <= input_num r)%nat ->
      turn (Some [".r"]) cp rp r
      = ([Print "[black on white]Nothing to redo"], Ok Continue r)).
Proof.
  split.
  - apply turn_dot_u_nothing.
  - apply turn_dot_r_nothing.
Qed.

(** X19 at a fresh session. *)
Lemma undo_redo_at_the_ends_witness :
  (input_num init = 0%nat
   /\ turn (Some [".u"]) compiled (prints "12345") init
      = ([Print "[black on white]Nothing to undo"], Ok Continue init))
  /\ ((List.length (user_input init) <= input_num init)%nat
      /\ turn (Some [".r"]) compiled (prints "12345") init
         = ([Print "[black on white]Nothing to redo"], Ok Continue init)).
Proof.
  assert (H1 : input_num init = 0%nat) by reflexivity.
  assert (H2 : (List.length (user_input init) <= input_num init)%nat)
    by (simpl; lia).
  split; split; [exact H1 | | exact H2 |].
  - exact (proj1 (undo_redo_at_the_ends init compiled (prints "12345")) H1).
  - exact (proj2 (undo_redo_at_the_ends init compiled (prints "12345")) H2).
Defined.

(** X20.  New output that is not valid UTF-8 ends the session: when the
    compiler accepts an ordinary input and the bytes of the standard output
    beyond a non-negative counter do not decode, the turn starts both
    processes, prints nothing and ends in [UnicodeDecodeError]. *)
Theorem undecodable_output_ends_turn
  (r : Runner) (lines : list string) (cp : compile_process) (rp : run_process) :
  startswith "." (join NL lines) = false ->
  returncode cp = 0%Z ->
  (0 <= output_chars_printed r < Z.of_nat (List.length (stdout rp)))%Z ->
  utf8_valid (skipn (Z.to_nat (output_chars_printed r)) (stdout rp)) = false ->
  exists src,
    turn (Some lines) cp rp r
    = ([Compile src; Execute], Raise UnicodeDecodeError).
Proof.
  intros Hord Hcp Hc Hv.
  rewrite turn_ordinary by exact Hord.
  erewrite bind_step by apply splice_eq.
  set (r0 := mkRunner _ _ _ _ _ _).
  assert (E : (show_stdout (stdout rp) ;; show_stderr (stderr rp))
                (set_compile_error None r0)
              = ([], Raise UnicodeDecodeError)).
  { unfold bind. rewrite show_stdout_undecodable by assumption. reflexivity. }
  unfold bind at 1. rewrite compile_and_run_unfold, Hcp. cbn [Z.eqb].
  rewrite E. cbn [fst snd app]. eexists. reflexivity.
Qed.

(** X20 at a binary that writes the single byte 255. *)
Lemma undecodable_output_ends_turn_witness :
  startswith "." (join NL [line_A]) = false
  /\ returncode compiled = 0%Z
  /\ utf8_valid (skipn 0 ["255"%byte]) = false
  /\ exists src,
       turn (Some [line_A]) compiled
            {| stdout := ["255"%byte]; stderr := [] |} init
       = ([Compile src; Execute], Raise UnicodeDecodeError).
Proof.
  assert (H1 : startswith "." (join NL [line_A]) = false) by reflexivity.
  assert (H2 : returncode compiled = 0%Z) by reflexivity.
  assert (H3 : (0 <= output_chars_printed init
                  < Z.of_nat (List.length
                       (stdout {| stdout := ["255"%byte]; stderr := [] |})))%Z)
    by (simpl; lia).
  assert (H4 : utf8_valid
                 (skipn (Z.to_nat (output_chars_printed init))
                        (stdout {| stdout := ["255"%byte]; stderr := [] |}))
               = false) by reflexivity.
  split; [exact H1|]. split; [exact H2|]. split; [exact H4|].
  exact (@undecodable_output_ends_turn init [line_A] compiled
           {| stdout := ["255"%byte]; stderr := [] |} H1 H2 H3 H4).
Defined.

(** X23.  After a finished compile-and-run cycle, [.e] tells how the
    compile went: it prints the diagnostics (or the placeholder) when the
    compiler exited with a non-zero status, and that there are no compile
    errors when it exited with zero. *)
Theorem show_errors_after_cycle
  (r r' : Runner) (cp : compile_process) (rp : run_process) (t : list event) :
  compile_and_run cp rp r = (t, Ok tt r') ->
  dot_e r'
  = ([Print (if (returncode cp =? 0)%Z
             then "[white on green]No compile errors"
             else if String.eqb (diagnostics cp) ""
                  then UNKNOWN_COMPILE_ERROR else diagnostics cp)],
     Ok (false, false) r').
Proof.
  rewrite compile_and_run_unfold. intros H.
  assert (E : compile_error r'
              = if (returncode cp =? 0)%Z then None
                else Some (if String.eqb (diagnostics cp) ""
                           then UNKNOWN_COMPILE_ERROR else diagnostics cp)).
  { destruct (returncode cp =? 0)%Z.
    - inversion H as [[Et Es]]; clear H.
      match type of Es with context [snd ?X] =>
        destruct X as [t0 x] eqn:E0 end.
      simpl in Es. subst x. apply run_part_frame in E0.
      destruct E0 as (_ & _ & F). exact F.
    - inversion H; subst. reflexivity. }
  unfold dot_e. rewrite bind_get, E.
  destruct (returncode cp =? 0)%Z; [reflexivity|].
  assert (T : truthy (if String.eqb (diagnostics cp) ""
                      then UNKNOWN_COMPILE_ERROR else diagnostics cp) = true).
  { unfold truthy. destruct (String.eqb (diagnostics cp) "") eqn:D;
      [reflexivity | rewrite D; reflexivity]. }
  rewrite T. reflexivity.
Qed.

(** X23 at a rejected compile of one stored line. *)
Lemma show_errors_after_cycle_witness :
  exists r',
    compile_and_run rejected (prints "") (stored [line_A])
      = ([Compile (get_full_source (stored [line_A])); Print BANNER], Ok tt r')
    /\ dot_e r'
       = ([Print "<stdin>:4:13: error: expected expression"], Ok (false, false) r').
Proof.
  assert (E : compile_and_run rejected (prints "") (stored [line_A])
              = ([Compile (get_full_source (stored [line_A])); Print BANNER],
                 Ok tt (set_compile_error
                          (Some "<stdin>:4:13: error: expected expression")
                          (stored [line_A]))))
    by (vm_compute; reflexivity).
  eexists. split; [exact E|].
  exact (@show_errors_after_cycle (stored [line_A]) _ rejected (prints "") _ E).
Defined.

(* ================================================================== *)
(** ** Further properties: text clean-up and numbering *)
(* ================================================================== *)

(** X15.  [_clean_source] only drops blank lines: for every text, the
    non-blank lines of the result are those of the text, in the same
    order, and no two neighbouring lines of the result are both blank. *)
Theorem clean_source_drops_only_blank_lines (src : string) :
  filter nonblank (lines_of (_clean_source src)) = filter nonblank (lines_of src)
  /\ no_double_blank (lines_of (_clean_source src)) = true.
Proof.
  rewrite lines_of_clean. split.
  - apply clean_lines_nonblank.
  - apply clean_lines_no_double.
Qed.

(** X16.  [_clean_source] leaves a text unchanged exactly when the text
    has no two neighbouring blank lines; so a second pass changes nothing. *)
Theorem clean_source_fixed_points (src : string) :
  (_clean_source src = src <-> no_double_blank (lines_of src) = true)
  /\ _clean_source (_clean_source src) = _clean_source src.
Proof.
  assert (F : forall s, no_double_blank (lines_of s) = true ->
                        _clean_source s = s).
  { intros s H. unfold _clean_source.
    rewrite clean_lines_fixed; [apply join_split | exact H | discriminate]. }
  split; [split|].
  - intros E. rewrite <- E, lines_of_clean. apply clean_lines_no_double.
  - apply F.
  - apply F. rewrite lines_of_clean. apply clean_lines_no_double.
Qed.

(** X17.  Numbering keeps the lines: the numbered text has as many lines
    as the text, and its line [k] is the number [k + 1], right-justified
    to the width of the largest number, two blanks, and line [k] of the
    text. *)
Theorem add_line_numbers_keeps_lines (code : string) :
  List.length (lines_of (_add_line_numbers code)) = List.length (lines_of code)
  /\ forall k line,
       nth_error (lines_of code) k = Some line ->
       nth_error (lines_of (_add_line_numbers code)) k
       = Some (rjust (String.length (str_of_nat (List.length (lines_of code))))
                     (str_of_nat (k + 1)) ++ "  " ++ line).
Proof.
  assert (E : lines_of (_add_line_numbers code)
              = number_lines
                  (String.length (str_of_nat (List.length (lines_of code))))
                  0 (lines_of code)).
  { unfold _add_line_numbers, lines_of. apply split_join.
    - destruct (split nl code) eqn:S;
        [exfalso; eapply split_nonempty; eauto | discriminate].
    - apply number_lines_pieces, split_pieces. }
  rewrite E. split.
  - apply number_lines_length.
  - intros k line H. rewrite (@number_lines_nth _ 0 _ _ _ H). reflexivity.
Qed.

(** X17 at a text of two lines. *)
Lemma add_line_numbers_keeps_lines_witness :
  nth_error (lines_of ("int x = 5;" ++ NL ++ "x++;")) 1 = Some "x++;"
  /\ nth_error (lines_of (_add_line_numbers ("int x = 5;" ++ NL ++ "x++;"))) 1
     = Some "2  x++;".
Proof.
  assert (H : nth_error (lines_of ("int x = 5;" ++ NL ++ "x++;")) 1
              = Some "x++;") by reflexivity.
  split; [exact H|].
  exact (proj2 (add_line_numbers_keeps_lines ("int x = 5;" ++ NL ++ "x++;"))
           1%nat "x++;" H).
Defined.
